(** * Interval bound propagation: [bounds.py]

    A shallow embedding of [interval_bound_propagation/src/bounds.py]
    ([AbstractBounds] and [IntervalBounds]) together with the part of the
    tensor library the file calls, and the properties of bound propagation
    proved about it.

    Modelling choices.
    - Tensor elements are real numbers ([R]): arithmetic is exact, so rounding,
      overflow and NaN of machine floats are outside the model.
    - A tensor is a shape and its elements in row-major order.  Elementwise
      binary operations broadcast as the tensor library does.
    - Python objects live in a heap and are handled through references, so
      that "does not mutate" and "returns a new object" are statements about
      the heap.  Calls of the wrapped monotonic function are recorded in a
      call log.
    - Exceptions are values of [exn]; a computation returns [Ok] or [Raise].
    - The operations of the tensor library and of Sonnet follow their
      documented behaviour on shapes and elements; an operation refused for
      its shapes raises [InvalidArgumentError].  Convolution is the
      two-dimensional one, on batch x height x width x channels.
    - A wrapped function is a function of its arguments: it has no access to
      the heap.
    - [1 / sqrt v] has a value for [0 < v] only.  [TensorOps.rsqrt] is total,
      so a statement about the values batch normalisation returns carries the
      hypothesis that every element of [variance + epsilon] is positive, or
      is an equation that holds for whatever [rsqrt] returns elsewhere. *)

From Stdlib Require Import String Reals Lra Lia List Arith Bool.
Import ListNotations.

Set Implicit Arguments.

(** ** Exceptions and results *)

Inductive exn : Type :=
| ValueError (msg : string)
| NotImplementedError (msg : string)
| AssertionError
| AttributeError
| TypeError
| InvalidArgumentError (op : string).

Inductive result (A : Type) : Type :=
| Ok (a : A)
| Raise (e : exn).

Arguments Ok {A} a.
Arguments Raise {A} e.

Definition rbind {A B} (r : result A) (k : A -> result B) : result B :=
  match r with
  | Ok a => k a
  | Raise e => Raise e
  end.

Definition rmap {A B} (f : A -> B) (r : result A) : result B :=
  rbind r (fun a => Ok (f a)).

(** ** Tensors *)

Record tensor : Type := mkTensor { shape : list nat; data : list R }.

Module TensorOps.

Open Scope R_scope.

(** Number of elements of a shape. *)
Definition size (s : list nat) : nat := fold_right Nat.mul 1%nat s.

(** A tensor is well formed when it has as many elements as its shape says. *)
Definition wf (x : tensor) : Prop := length (data x) = size (shape x).

(** Row-major position of a multi-index. *)
Fixpoint offset (s idx : list nat) (acc : nat) : nat :=
  match s, idx with
  | d :: s', i :: idx' => offset s' idx' (acc * d + i)
  | _, _ => acc
  end.

Definition get (x : tensor) (idx : list nat) : R :=
  nth (offset (shape x) idx 0) (data x) 0.

(** All multi-indices of a shape, in row-major order. *)
Fixpoint indices (s : list nat) : list (list nat) :=
  match s with
  | [] => [[]]
  | d :: s' => flat_map (fun i => map (cons i) (indices s')) (seq 0 d)
  end.

Definition Rsum (l : list R) : R := fold_right Rplus 0 l.

(** A Python float used as a tensor operand becomes a rank-0 tensor. *)
Definition scalar (v : R) : tensor := mkTensor [] [v].

(** *** Broadcasting *)

(** Shapes are aligned on their last dimension; two dimensions are
    compatible when they are equal or one of them is 1. *)
Fixpoint broadcast_rev (r1 r2 : list nat) : option (list nat) :=
  match r1, r2 with
  | [], r => Some r
  | r, [] => Some r
  | a :: r1', b :: r2' =>
      match broadcast_rev r1' r2' with
      | None => None
      | Some r =>
          if (a =? b)%nat then Some (a :: r)
          else if (a =? 1)%nat then Some (b :: r)
          else if (b =? 1)%nat then Some (a :: r)
          else None
      end
  end.

Definition broadcast_shape (s1 s2 : list nat) : option (list nat) :=
  option_map (@rev nat) (broadcast_rev (rev s1) (rev s2)).

(** The index into an operand of shape [s] that the index [idx] of the
    broadcast result reads: leading dimensions the operand does not have are
    dropped, and a dimension of size 1 is read at 0. *)
Definition bindex (s idx : list nat) : list nat :=
  map (fun di => if (fst di =? 1)%nat then 0%nat else snd di)
      (combine s (skipn (length idx - length s) idx)).

Definition bget (x : tensor) (idx : list nat) : R :=
  get x (bindex (shape x) idx).

Definition binop (name : string) (f : R -> R -> R) (x y : tensor)
  : result tensor :=
  match broadcast_shape (shape x) (shape y) with
  | Some s =>
      Ok (mkTensor s (map (fun idx => f (bget x idx) (bget y idx)) (indices s)))
  | None => Raise (InvalidArgumentError name)
  end.

Definition unop (f : R -> R) (x : tensor) : tensor :=
  mkTensor (shape x) (map f (data x)).

Definition add := binop "add" Rplus.
Definition subtract := binop "sub" Rminus.
Definition multiply := binop "mul" Rmult.
Definition truediv := binop "truediv" Rdiv.
Definition abs := unop Rabs.
Definition negative := unop Ropp.
(** [rsqrt]: [1 / sqrt v], meaningful for [0 < v]; for other [v] the
    library returns an infinity or a NaN, which no real number stands for. *)
Definition rsqrt := unop (fun v => / sqrt v).

(** *** Matrix product *)

(** The last two dimensions of a shape and the batch dimensions before. *)
Definition split_last2 (s : list nat) : option (list nat * nat * nat) :=
  match rev s with
  | n :: m :: b => Some (rev b, m, n)
  | _ => None
  end.

Definition list_eqb (s1 s2 : list nat) : bool :=
  if list_eq_dec Nat.eq_dec s1 s2 then true else false.

(** [matmul a b]: both operands have rank at least 2, the same batch
    dimensions, and the inner dimensions agree. *)
Definition matmul (a b : tensor) : result tensor :=
  match split_last2 (shape a), split_last2 (shape b) with
  | Some (ba, m, k), Some (bb, k', n) =>
      if list_eqb ba bb && (k =? k')%nat then
        Ok (mkTensor (ba ++ [m; n])
              (map (fun idx =>
                      match split_last2 idx with
                      | Some (bi, i, j) =>
                          Rsum (map (fun kk => get a (bi ++ [i; kk]) * get b (bi ++ [kk; j]))
                                    (seq 0 k))
                      | None => 0
                      end)
                   (indices (ba ++ [m; n]))))
      else Raise (InvalidArgumentError "matmul")
  | _, _ => Raise (InvalidArgumentError "matmul")
  end.

(** *** Two-dimensional convolution *)

Inductive padding : Type := SAME | VALID.

(** Output length and leading padding along one spatial dimension of input
    length [n], kernel length [k] and stride [s]. *)
Definition conv_out (p : padding) (n k s : nat) : option (nat * nat) :=
  if (s =? 0)%nat || (k =? 0)%nat then None
  else match p with
       | VALID => if (n <? k)%nat then None else Some (((n - k) / s + 1)%nat, 0%nat)
       | SAME =>
           let o := ((n + s - 1) / s)%nat in
           Some (o, (((o - 1) * s + k - n) / 2)%nat)
       end.

(** Element of the input at a position of the padded input; the padding
    reads as 0. *)
Definition padded_get (x : tensor) (h w pt pl : nat) (n r c ch : nat) : R :=
  if (pt <=? r)%nat && (r - pt <? h)%nat && (pl <=? c)%nat && (c - pl <? w)%nat
  then get x [n; (r - pt)%nat; (c - pl)%nat; ch]
  else 0.

(** [convolution x f p strides]: [x] is batch x height x width x channels,
    [f] is kernel-height x kernel-width x in-channels x out-channels. *)
Definition convolution (x f : tensor) (p : padding) (strides : list nat)
  : result tensor :=
  match shape x, shape f, strides with
  | [nb; h; w; ci], [kh; kw; ci'; co], [sh; sw] =>
      match conv_out p h kh sh, conv_out p w kw sw with
      | Some (oh, pt), Some (ow, pl) =>
          if (ci =? ci')%nat then
            Ok (mkTensor [nb; oh; ow; co]
                  (map (fun idx =>
                          match idx with
                          | [n; i; j; o] =>
                              Rsum (map (fun di =>
                                Rsum (map (fun dj =>
                                  Rsum (map (fun c =>
                                          padded_get x h w pt pl n (i * sh + di) (j * sw + dj) c
                                          * get f [di; dj; c; o])
                                        (seq 0 ci)))
                                  (seq 0 kw)))
                                (seq 0 kh))
                          | _ => 0
                          end)
                       (indices [nb; oh; ow; co])))
          else Raise (InvalidArgumentError "convolution")
      | _, _ => Raise (InvalidArgumentError "convolution")
      end
  | _, _, _ => Raise (InvalidArgumentError "convolution")
  end.

(** *** Reshaping *)

(** [squeeze x axis=0]: removes the leading dimension, which must be 1. *)
Definition squeeze0 (x : tensor) : result tensor :=
  match shape x with
  | 1%nat :: s => Ok (mkTensor s (data x))
  | _ => Raise (InvalidArgumentError "squeeze")
  end.

(** [stack xs]: the tensors, all of one shape, along a new leading axis. *)
Definition stack (xs : list tensor) : result tensor :=
  match xs with
  | [] => Raise (InvalidArgumentError "stack")
  | x :: _ =>
      if forallb (fun y => list_eqb (shape y) (shape x)) xs
      then Ok (mkTensor (length xs :: shape x) (concat (map data xs)))
      else Raise (InvalidArgumentError "stack")
  end.

(** Reshaping to batch x features: the leading dimension is kept and the
    others are merged; the elements and their order do not change. *)
Definition batch_flatten (x : tensor) : result tensor :=
  match shape x with
  | b :: rest => Ok (mkTensor [b; size rest] (data x))
  | [] => Raise (ValueError "Input tensor has 0 dimensions, should have at least as many as preserve_dims=1")
  end.

End TensorOps.

(** ** Python values *)

(** What a [lower] or [upper] attribute holds: a tensor, or a tuple. *)
#[warnings="-register-all"]
Inductive value : Type :=
| Tensor (x : tensor)
| Tuple (xs : list value).

Definition is_tuple (v : value) : bool :=
  match v with
  | Tuple _ => true
  | Tensor _ => false
  end.

Fixpoint sequence {A} (l : list (result A)) : result (list A) :=
  match l with
  | [] => Ok []
  | r :: l' => rbind r (fun a => rbind (sequence l') (fun s => Ok (a :: s)))
  end.

(** The conversion every tensor operation applies to its operands: a tensor
    is itself, a tuple is packed along a new leading axis. *)
Fixpoint convert_to_tensor (v : value) : result tensor :=
  match v with
  | Tensor x => Ok x
  | Tuple [] => Ok (mkTensor [0] [])
  | Tuple xs => rbind (sequence (map convert_to_tensor xs)) TensorOps.stack
  end.

Module Py.

Definition lift2 (op : tensor -> tensor -> result tensor) (a b : value)
  : result value :=
  rbind (convert_to_tensor a) (fun x =>
  rbind (convert_to_tensor b) (fun y =>
  rmap Tensor (op x y))).

(** [a + b]: two tuples are concatenated; otherwise one operand is a tensor
    and its [__add__] or [__radd__] adds the converted operands. *)
Definition add (a b : value) : result value :=
  match a, b with
  | Tuple xs, Tuple ys => Ok (Tuple (xs ++ ys))
  | _, _ => lift2 TensorOps.add a b
  end.

(** [a - b]: tuples have no subtraction. *)
Definition sub (a b : value) : result value :=
  match a, b with
  | Tuple _, Tuple _ => Raise TypeError
  | _, _ => lift2 TensorOps.subtract a b
  end.

(** [a / v] for a Python float [v]. *)
Definition truediv (a : value) (v : R) : result value :=
  match a with
  | Tuple _ => Raise TypeError
  | Tensor x => rmap Tensor (TensorOps.truediv x (TensorOps.scalar v))
  end.

(** The arguments of a call [f] applied to the unpacked [v]: the
    elements of a tuple; a tensor is not iterable. *)
Definition unpack (v : value) : result (list value) :=
  match v with
  | Tuple xs => Ok xs
  | Tensor _ => Raise TypeError
  end.

(** [l[1:-1]]. *)
Definition slice_1_m1 {A} (l : list A) : list A := removelast (tl l).

End Py.

(** The tensor library as the code calls it: operands that come from the
    attributes of a bounds object are values and are converted first. *)
Module tf.

Definition matmul (a : value) (b : tensor) : result value :=
  Py.lift2 TensorOps.matmul a (Tensor b).

Definition multiply (a : value) (b : tensor) : result value :=
  Py.lift2 TensorOps.multiply a (Tensor b).

Definition abs : tensor -> tensor := TensorOps.abs.
Definition rsqrt : tensor -> tensor := TensorOps.rsqrt.
Definition negative : tensor -> tensor := TensorOps.negative.
Definition squeeze_axis0 : tensor -> result tensor := TensorOps.squeeze0.

Module nn.
Definition convolution (a : value) (f : tensor) (padding : TensorOps.padding)
           (strides : list nat) : result value :=
  rbind (convert_to_tensor a) (fun x =>
  rmap Tensor (TensorOps.convolution x f padding strides)).
End nn.

End tf.

Definition dquote : string := String (Ascii.ascii_of_nat 34) EmptyString.

(** ** Objects, the heap and the computation monad *)

Definition ref : Type := nat.

(** An instance of [IntervalBounds] with its two attributes, or an object of
    another class, of which only the class name and the text it formats to
    matter here. *)
Inductive object : Type :=
| IntervalBoundsObj (_lower _upper : value)
| ForeignObj (class_name : string) (repr : string).

(** A Python function: its [__name__] and what a call returns. *)
Record py_function : Type := mkFunction {
  __name__ : string;
  apply : list value -> result value
}.

(** The heap of objects, and the log of the calls of wrapped functions. *)
Record state : Type := mkState {
  heap : list object;
  calls : list (string * list value)
}.

Definition M (A : Type) : Type := state -> result A * state.

Definition ret {A} (a : A) : M A := fun s => (Ok a, s).

Definition raise {A} (e : exn) : M A := fun s => (Raise e, s).

Definition bind {A B} (m : M A) (k : A -> M B) : M B :=
  fun s =>
    match m s with
    | (Ok a, s') => k a s'
    | (Raise e, s') => (Raise e, s')
    end.

Definition lift {A} (r : result A) : M A := fun s => (r, s).

Declare Scope monad_scope.
Delimit Scope monad_scope with monad.
Notation "x <- m ;; k" := (bind m (fun x => k))
  (at level 61, m at next level, right associativity) : monad_scope.
Notation "m ;; k" := (bind m (fun _ => k))
  (at level 61, right associativity) : monad_scope.
Open Scope monad_scope.
Open Scope string_scope.

(** Attribute reads and object creation. *)

Definition deref (r : ref) : M object :=
  fun s =>
    match nth_error (heap s) r with
    | Some o => (Ok o, s)
    | None => (Raise AttributeError, s)
    end.

Definition getattr_lower (r : ref) : M value :=
  o <- deref r ;;
  match o with
  | IntervalBoundsObj l _ => ret l
  | ForeignObj _ _ => raise AttributeError
  end.

Definition getattr_upper (r : ref) : M value :=
  o <- deref r ;;
  match o with
  | IntervalBoundsObj _ u => ret u
  | ForeignObj _ _ => raise AttributeError
  end.

(** [r.__class__.__name__]. *)
Definition class_name_of (r : ref) : M string :=
  o <- deref r ;;
  match o with
  | IntervalBoundsObj _ _ => ret "IntervalBounds"
  | ForeignObj c _ => ret c
  end.

(** ['{}'.format(r)]. *)
Definition format (r : ref) : M string :=
  o <- deref r ;;
  match o with
  | IntervalBoundsObj _ _ => ret "<interval_bound_propagation.src.bounds.IntervalBounds object>"
  | ForeignObj _ t => ret t
  end.

(** Allocation of a new object at the next free address. *)
Definition new (o : object) : M ref :=
  fun s => (Ok (length (heap s)), mkState (heap s ++ [o]) (calls s)).

(** A call of a wrapped function on the argument list [args], recorded in
    the log. *)
Definition call (fn : py_function) (args : list value) : M value :=
  fun s => (apply fn args, mkState (heap s) (calls s ++ [(__name__ fn, args)])).

(** ** Layer wrappers *)

(** The Sonnet modules a wrapper gives access to, with the attributes
    [propagate_through] reads. *)
Module snt.

(** [snt.BatchFlatten()(v)]. *)
Definition BatchFlatten (v : value) : result value :=
  rbind (convert_to_tensor v) (fun x => rmap Tensor (TensorOps.batch_flatten x)).

(** [snt.Linear]; [b] exists when the module has a bias. *)
Module Linear.
Record t : Type := mk { w : tensor; bias : option tensor }.
Definition has_bias (m : t) : bool :=
  match bias m with Some _ => true | None => false end.
Definition b (m : t) : result tensor :=
  match bias m with Some x => Ok x | None => Raise AttributeError end.
End Linear.

(** [snt.Conv2D]. *)
Module Conv2D.
Record t : Type := mk {
  w : tensor;
  bias : option tensor;
  padding : TensorOps.padding;
  stride : list nat
}.
Definition has_bias (m : t) : bool :=
  match bias m with Some _ => true | None => false end.
Definition b (m : t) : result tensor :=
  match bias m with Some x => Ok x | None => Raise AttributeError end.
End Conv2D.

End snt.

Module ibp.

(** Modelled from the spec: [ibp.BatchNorm] is defined outside [bounds.py];
    it has a running mean, a running variance, an optional scale, an
    optional bias ([None] when absent) and the epsilon of numerical
    stability, a Python float. *)
Module BatchNorm.
Record t : Type := mk {
  mean : tensor;
  variance : tensor;
  scale : option tensor;
  bias : option tensor;
  epsilon : R
}.
End BatchNorm.

End ibp.

Module verifiable_wrapper.

(** Modelled from the spec: the classes of [verifiable_wrapper] are defined
    outside [bounds.py].  A wrapper is of one of the five classes
    [propagate_through] tests for, and gives its [module], or of another
    class, of which the name matters.  Every wrapper has the attribute
    [module], so that reading it cannot fail. *)
Inductive VerifiableWrapper : Type :=
| LinearFCWrapper (module : snt.Linear.t)
| LinearConv2dWrapper (module : snt.Conv2D.t)
| MonotonicWrapper (module : py_function)
| BatchNormWrapper (module : ibp.BatchNorm.t)
| BatchFlattenWrapper
| OtherWrapper (class_name : string).

Definition class_name (wrapper : VerifiableWrapper) : string :=
  match wrapper with
  | LinearFCWrapper _ => "LinearFCWrapper"
  | LinearConv2dWrapper _ => "LinearConv2dWrapper"
  | MonotonicWrapper _ => "MonotonicWrapper"
  | BatchNormWrapper _ => "BatchNormWrapper"
  | BatchFlattenWrapper => "BatchFlattenWrapper"
  | OtherWrapper c => c
  end.

End verifiable_wrapper.

(** ** [AbstractBounds] *)

Module AbstractBounds.
Import verifiable_wrapper.

(** [combine_with] is abstract in [AbstractBounds]: it has no body there.
    The default handlers all raise through [_raise_not_implemented]. *)
Definition _raise_not_implemented {A} (self : ref) (name : string) : M A :=
  c <- class_name_of self ;;
  raise (NotImplementedError
           (name ++ " modules are not supported by " ++ dquote ++ c ++ dquote ++ ".")).

Definition _linear (self : ref) (w : tensor) (b : option tensor) : M ref :=
  _raise_not_implemented self "snt.Linear".

Definition _conv2d (self : ref) (w : tensor) (b : option tensor)
           (padding : TensorOps.padding) (strides : list nat) : M ref :=
  _raise_not_implemented self "snt.Conv2D".

Definition _monotonic_fn (self : ref) (fn : py_function) : M ref :=
  _raise_not_implemented self (__name__ fn).

Definition _batch_norm (self : ref) (mean variance : tensor)
           (scale bias : option tensor) (epsilon : R) : M ref :=
  _raise_not_implemented self "ibp.BatchNorm".

Definition _batch_flatten (self : ref) : M ref :=
  _raise_not_implemented self "snt.BatchFlatten".

(** A subclass, as the handlers it defines; a handler it does not define
    is inherited from [AbstractBounds]. *)
Record class : Type := mkClass {
  def_linear : option (ref -> tensor -> option tensor -> M ref);
  def_conv2d : option (ref -> tensor -> option tensor ->
                       TensorOps.padding -> list nat -> M ref);
  def_monotonic_fn : option (ref -> py_function -> M ref);
  def_batch_norm : option (ref -> tensor -> tensor -> option tensor ->
                           option tensor -> R -> M ref);
  def_batch_flatten : option (ref -> M ref)
}.

Definition resolve {A} (defined : option A) (inherited : A) : A :=
  match defined with
  | Some f => f
  | None => inherited
  end.

Section Dispatch.

(** The classes of the program, by name. *)
Variable classes : string -> class.

(** [self.m(...)]: the handler [m] of the class of [self]. *)
Definition method {A} (self : ref) (def : class -> option A) (inherited : A)
  : M A :=
  c <- class_name_of self ;;
  ret (resolve (def (classes c)) inherited).

Definition propagate_through (self : ref) (wrapper : VerifiableWrapper)
  : M ref :=
  match wrapper with
  | LinearFCWrapper module =>
      let w := snt.Linear.w module in
      b <- (if snt.Linear.has_bias module
            then x <- lift (snt.Linear.b module) ;; ret (Some x)
            else ret None) ;;
      m <- method self def_linear _linear ;;
      m self w b
  | LinearConv2dWrapper module =>
      let w := snt.Conv2D.w module in
      b <- (if snt.Conv2D.has_bias module
            then x <- lift (snt.Conv2D.b module) ;; ret (Some x)
            else ret None) ;;
      let padding := snt.Conv2D.padding module in
      let strides := Py.slice_1_m1 (snt.Conv2D.stride module) in
      m <- method self def_conv2d _conv2d ;;
      m self w b padding strides
  | MonotonicWrapper module =>
      m <- method self def_monotonic_fn _monotonic_fn ;;
      m self module
  | BatchNormWrapper module =>
      m <- method self def_batch_norm _batch_norm ;;
      m self (ibp.BatchNorm.mean module) (ibp.BatchNorm.variance module)
        (ibp.BatchNorm.scale module) (ibp.BatchNorm.bias module)
        (ibp.BatchNorm.epsilon module)
  | BatchFlattenWrapper =>
      m <- method self def_batch_flatten _batch_flatten ;;
      m self
  | OtherWrapper _ =>
      raise (NotImplementedError (class_name wrapper ++ " not supported."))
  end.

End Dispatch.

End AbstractBounds.

(** ** [IntervalBounds] *)

Module IntervalBounds.

(** [IntervalBounds(lower, upper)]: a new object with the two attributes. *)
Definition __init__ (lower upper : value) : M ref :=
  new (IntervalBoundsObj lower upper).

(** The properties [lower] and [upper] read [_lower] and [_upper]. *)
Definition lower (self : ref) : M value := getattr_lower self.

Definition upper (self : ref) : M value := getattr_upper self.

(** [isinstance(r, IntervalBounds)]. *)
Definition isinstance (r : ref) : M bool :=
  o <- deref r ;;
  match o with
  | IntervalBoundsObj _ _ => ret true
  | ForeignObj _ _ => ret false
  end.

Definition _ensure_singleton (self : ref) : M unit :=
  l <- getattr_lower self ;;
  u <- getattr_upper self ;;
  if is_tuple l || is_tuple u
  then raise (ValueError "Cannot proceed with multiple inputs.")
  else ret tt.

Definition combine_with (self bounds : ref) : M ref :=
  isi <- isinstance bounds ;;
  if negb isi then
    t <- format bounds ;;
    raise (NotImplementedError ("Cannot combine IntervalBounds with " ++ t))
  else
    _ensure_singleton bounds ;;
    l <- getattr_lower self ;;
    lu <- (if negb (is_tuple l) then
             _ensure_singleton self ;;
             sl <- getattr_lower self ;;
             bl <- lower bounds ;;
             su <- getattr_upper self ;;
             bu <- upper bounds ;;
             ret (Tuple [sl; bl], Tuple [su; bu])
           else
             sl <- getattr_lower self ;;
             bl <- lower bounds ;;
             lower <- lift (Py.add sl (Tuple [bl])) ;;
             su <- getattr_upper self ;;
             bu <- upper bounds ;;
             upper <- lift (Py.add su (Tuple [bu])) ;;
             ret (lower, upper)) ;;
    __init__ (fst lu) (snd lu).

(** The two lines the affine handlers share,
    [c = (self.lower + self.upper) / 2.] and
    [r = (self.upper - self.lower) / 2.]. *)
Definition center (self : ref) : M value :=
  l <- lower self ;;
  u <- upper self ;;
  s <- lift (Py.add l u) ;;
  lift (Py.truediv s 2).

Definition radius (self : ref) : M value :=
  u <- upper self ;;
  l <- lower self ;;
  d <- lift (Py.sub u l) ;;
  lift (Py.truediv d 2).

(** [if b is not None: c = c + b]. *)
Definition add_bias (c : value) (b : option tensor) : M value :=
  match b with
  | Some b => lift (Py.add c (Tensor b))
  | None => ret c
  end.

Definition _linear (self : ref) (w : tensor) (b : option tensor) : M ref :=
  _ensure_singleton self ;;
  c <- center self ;;
  r <- radius self ;;
  c <- lift (tf.matmul c w) ;;
  c <- add_bias c b ;;
  r <- lift (tf.matmul r (tf.abs w)) ;;
  lo <- lift (Py.sub c r) ;;
  up <- lift (Py.add c r) ;;
  __init__ lo up.

Definition _conv2d (self : ref) (w : tensor) (b : option tensor)
           (padding : TensorOps.padding) (strides : list nat) : M ref :=
  _ensure_singleton self ;;
  c <- center self ;;
  r <- radius self ;;
  c <- lift (tf.nn.convolution c w padding strides) ;;
  c <- add_bias c b ;;
  r <- lift (tf.nn.convolution r (tf.abs w) padding strides) ;;
  lo <- lift (Py.sub c r) ;;
  up <- lift (Py.add c r) ;;
  __init__ lo up.

Definition _monotonic_fn (self : ref) (fn : py_function) : M ref :=
  l <- getattr_lower self ;;
  if is_tuple l then
    u <- getattr_upper self ;;
    if negb (is_tuple u) then raise AssertionError
    else
      l <- lower self ;;
      largs <- lift (Py.unpack l) ;;
      lo <- call fn largs ;;
      u <- upper self ;;
      uargs <- lift (Py.unpack u) ;;
      up <- call fn uargs ;;
      __init__ lo up
  else
    _ensure_singleton self ;;
    l <- lower self ;;
    lo <- call fn [l] ;;
    u <- upper self ;;
    up <- call fn [u] ;;
    __init__ lo up.

Definition _batch_norm (self : ref) (mean variance : tensor)
           (scale bias : option tensor) (epsilon : R) : M ref :=
  _ensure_singleton self ;;
  v <- lift (TensorOps.add variance (TensorOps.scalar epsilon)) ;;
  let multiplier := tf.rsqrt v in
  multiplier <- match scale with
                | Some scale => lift (TensorOps.multiply multiplier scale)
                | None => ret multiplier
                end ;;
  let w := multiplier in
  b <- lift (TensorOps.multiply (tf.negative multiplier) mean) ;;
  b <- match bias with
       | Some bias => lift (TensorOps.add b bias)
       | None => ret b
       end ;;
  b <- lift (tf.squeeze_axis0 b) ;;
  c <- center self ;;
  r <- radius self ;;
  cw <- lift (tf.multiply c w) ;;
  c <- lift (Py.add cw (Tensor b)) ;;
  r <- lift (tf.multiply r (tf.abs w)) ;;
  lo <- lift (Py.sub c r) ;;
  up <- lift (Py.add c r) ;;
  __init__ lo up.

Definition _batch_flatten (self : ref) : M ref :=
  _ensure_singleton self ;;
  l <- lower self ;;
  lo <- lift (snt.BatchFlatten l) ;;
  u <- upper self ;;
  up <- lift (snt.BatchFlatten u) ;;
  __init__ lo up.

(** The class: every handler is defined. *)
Definition cls : AbstractBounds.class :=
  AbstractBounds.mkClass (Some _linear) (Some _conv2d) (Some _monotonic_fn)
                         (Some _batch_norm) (Some _batch_flatten).

End IntervalBounds.

(** The classes of a program: [IntervalBounds], and the other subclasses of
    [AbstractBounds] given by [others]. *)
Definition classes (others : string -> AbstractBounds.class) (name : string)
  : AbstractBounds.class :=
  if String.eqb name "IntervalBounds" then IntervalBounds.cls else others name.

Definition propagate_through (others : string -> AbstractBounds.class)
  : ref -> verifiable_wrapper.VerifiableWrapper -> M ref :=
  AbstractBounds.propagate_through (classes others).

(** * Facts about the embedding *)

(** ** Indices and elements of tensors *)

Module TensorFacts.
Import TensorOps.

Open Scope R_scope.

(** A multi-index [idx] is within the shape [s]. *)
Definition valid (idx s : list nat) : Prop := Forall2 lt idx s.

Lemma length_indices (s : list nat) : length (indices s) = size s.
Proof.
  induction s as [|d s IH]; simpl; [reflexivity|].
  rewrite (@flat_map_constant_length _ _ (size s)).
  - now rewrite length_seq.
  - intros x _. now rewrite length_map.
Qed.

Lemma offset_acc (s : list nat) :
  forall idx acc, length idx = length s ->
    offset s idx acc = (acc * size s + offset s idx 0)%nat.
Proof.
  induction s as [|d s IH]; intros [|i idx] acc Hl; simpl in *; try lia.
  rewrite (IH idx (acc * d + i)%nat), (IH idx i) by lia. nia.
Qed.

Lemma valid_length idx s : valid idx s -> length idx = length s.
Proof. intros H. induction H; simpl; congruence. Qed.

Lemma offset_lt idx s : valid idx s -> (offset s idx 0 < size s)%nat.
Proof.
  intros H. induction H as [|i d idx s Hi H IH]; simpl; [lia|].
  rewrite offset_acc by now apply valid_length. nia.
Qed.

Lemma nth_flat_map_const {A B} (f : A -> list B) (c : nat) (dx : A) (d : B) :
  (forall x, length (f x) = c) ->
  forall l i j, (i < length l)%nat -> (j < c)%nat ->
    nth (i * c + j) (flat_map f l) d = nth j (f (nth i l dx)) d.
Proof.
  intros Hc. induction l as [|a l IH]; intros i j Hi Hj; simpl in *; [lia|].
  destruct i as [|i]; simpl.
  - apply app_nth1. now rewrite Hc.
  - rewrite app_nth2 by (rewrite Hc; lia). rewrite Hc.
    replace (c + i * c + j - c)%nat with (i * c + j)%nat by lia.
    apply IH; lia.
Qed.

Lemma nth_indices idx s d :
  valid idx s -> nth (offset s idx 0) (indices s) d = idx.
Proof.
  intros H. induction H as [|i n idx s Hi H IH]; simpl; [reflexivity|].
  rewrite offset_acc by now apply valid_length.
  rewrite (@nth_flat_map_const _ _ _ (size s) 0%nat).
  - rewrite seq_nth by assumption. simpl.
    rewrite (nth_indep _ d (i :: d)).
    + change (i :: d) with (cons i d). rewrite map_nth. now rewrite IH.
    + rewrite length_map, length_indices. now apply offset_lt.
  - intros x. now rewrite length_map, length_indices.
  - now rewrite length_seq.
  - now apply offset_lt.
Qed.

(** The element at [idx] of a tensor tabulated over the indices of its
    shape. *)
Lemma get_tabulate (g : list nat -> R) s idx :
  valid idx s -> get (mkTensor s (map g (indices s))) idx = g idx.
Proof.
  intros H. unfold get; simpl.
  rewrite (nth_indep _ 0 (g [])).
  - rewrite map_nth. now rewrite nth_indices.
  - rewrite length_map, length_indices. now apply offset_lt.
Qed.

Lemma get_unop f x idx : f 0 = 0 -> get (unop f x) idx = f (get x idx).
Proof.
  intros H0. unfold get, unop; simpl.
  rewrite <- H0 at 1. apply map_nth.
Qed.

Lemma get_abs x idx : get (abs x) idx = Rabs (get x idx).
Proof. apply get_unop, Rabs_R0. Qed.

(** *** Broadcasting *)

Lemma broadcast_rev_refl r : broadcast_rev r r = Some r.
Proof.
  induction r as [|a r IH]; simpl; [reflexivity|].
  now rewrite IH, Nat.eqb_refl.
Qed.

Lemma broadcast_shape_refl s : broadcast_shape s s = Some s.
Proof.
  unfold broadcast_shape. rewrite broadcast_rev_refl. simpl.
  now rewrite rev_involutive.
Qed.

Lemma broadcast_shape_scalar s : broadcast_shape s [] = Some s.
Proof.
  unfold broadcast_shape. simpl.
  assert (H : broadcast_rev (rev s) [] = Some (rev s)) by now destruct (rev s).
  rewrite H. simpl. now rewrite rev_involutive.
Qed.

Lemma bindex_valid idx s : valid idx s -> bindex s idx = idx.
Proof.
  intros H. unfold bindex.
  rewrite (valid_length H), Nat.sub_diag. simpl.
  induction H as [|i d idx s Hi H IH]; simpl; [reflexivity|].
  rewrite IH. destruct (Nat.eqb_spec d 1); [|reflexivity].
  f_equal. lia.
Qed.

Lemma bget_valid x idx : valid idx (shape x) -> bget x idx = get x idx.
Proof. intros H. unfold bget. now rewrite bindex_valid. Qed.

Lemma bget_scalar v idx : bget (scalar v) idx = v.
Proof. reflexivity. Qed.

(** Every index enumerated for a shape is within it. *)
Lemma indices_valid s : Forall (fun idx => valid idx s) (indices s).
Proof.
  induction s as [|d s IH]; simpl.
  - repeat constructor.
  - apply Forall_forall. intros idx Hin.
    apply in_flat_map in Hin. destruct Hin as (i & Hi & Hin).
    apply in_map_iff in Hin. destruct Hin as (idx' & <- & Hin').
    apply in_seq in Hi. constructor; [lia|].
    rewrite Forall_forall in IH. now apply IH.
Qed.

End TensorFacts.

(** ** The elementwise order on tensors and values *)

Module Order.
Import TensorOps.

Open Scope R_scope.

(** [x <= y] elementwise, for tensors of one shape. *)
Definition tle (x y : tensor) : Prop :=
  shape x = shape y /\ Forall2 Rle (data x) (data y).


(** The order on what [lower] and [upper] hold: tensors are compared
    elementwise, tuples component by component. *)
#[warnings="-register-all"]
Inductive vle : value -> value -> Prop :=
| vle_tensor x y : tle x y -> vle (Tensor x) (Tensor y)
| vle_tuple xs ys : Forall2 vle xs ys -> vle (Tuple xs) (Tuple ys).




Lemma Forall2_nth_le l1 l2 n :
  Forall2 Rle l1 l2 -> nth n l1 0 <= nth n l2 0.
Proof.
  intros H. revert n. induction H; intros [|n]; simpl; auto; lra.
Qed.

Lemma tle_bget x y idx : tle x y -> bget x idx <= bget y idx.
Proof.
  intros [Hs Hd]. unfold bget, get. rewrite Hs. now apply Forall2_nth_le.
Qed.













End Order.

(** ** What the methods compute

    Each method of [IntervalBounds] reads the attributes of its receiver,
    computes two values and allocates one object.  The functions of
    [Pure] are that computation as a function of the attributes read, and
    the lemmas of [Run] prove that the methods, run on a heap, do exactly
    that. *)

Declare Scope result_scope.
Delimit Scope result_scope with result.
Notation "'let?' x := r 'in' k" := (rbind r (fun x => k))
  (at level 10, x pattern, r at level 100, k at level 200) : result_scope.

Module Pure.

Open Scope result_scope.

Definition ensure_singleton (l u : value) : result unit :=
  if is_tuple l || is_tuple u
  then Raise (ValueError "Cannot proceed with multiple inputs.")
  else Ok tt.

Definition center (l u : value) : result value :=
  let? s := Py.add l u in Py.truediv s 2.

Definition radius (l u : value) : result value :=
  let? d := Py.sub u l in Py.truediv d 2.

Definition add_bias (c : value) (b : option tensor) : result value :=
  match b with
  | Some b => Py.add c (Tensor b)
  | None => Ok c
  end.

(** The bounds [(c - r, c + r)]. *)
Definition around (c r : value) : result (value * value) :=
  let? lo := Py.sub c r in
  let? up := Py.add c r in
  Ok (lo, up).

Definition linear (l u : value) (w : tensor) (b : option tensor)
  : result (value * value) :=
  let? _ := ensure_singleton l u in
  let? c := center l u in
  let? r := radius l u in
  let? c := tf.matmul c w in
  let? c := add_bias c b in
  let? r := tf.matmul r (tf.abs w) in
  around c r.

Definition conv2d (l u : value) (w : tensor) (b : option tensor)
           (padding : TensorOps.padding) (strides : list nat)
  : result (value * value) :=
  let? _ := ensure_singleton l u in
  let? c := center l u in
  let? r := radius l u in
  let? c := tf.nn.convolution c w padding strides in
  let? c := add_bias c b in
  let? r := tf.nn.convolution r (tf.abs w) padding strides in
  around c r.

(** The multiplier and the bias, before the squeeze, that batch
    normalisation folds its parameters into. *)
Definition multiplier (variance : tensor) (scale : option tensor) (epsilon : R)
  : result tensor :=
  let? v := TensorOps.add variance (TensorOps.scalar epsilon) in
  match scale with
  | Some scale => TensorOps.multiply (tf.rsqrt v) scale
  | None => Ok (tf.rsqrt v)
  end.

Definition folded_bias (m mean : tensor) (bias : option tensor) : result tensor :=
  let? b := TensorOps.multiply (tf.negative m) mean in
  match bias with
  | Some bias => TensorOps.add b bias
  | None => Ok b
  end.

Definition batch_norm (l u : value) (mean variance : tensor)
           (scale bias : option tensor) (epsilon : R) : result (value * value) :=
  let? _ := ensure_singleton l u in
  let? w := multiplier variance scale epsilon in
  let? b := folded_bias w mean bias in
  let? b := tf.squeeze_axis0 b in
  let? c := center l u in
  let? r := radius l u in
  let? cw := tf.multiply c w in
  let? c := Py.add cw (Tensor b) in
  let? r := tf.multiply r (tf.abs w) in
  around c r.

Definition batch_flatten (l u : value) : result (value * value) :=
  let? _ := ensure_singleton l u in
  let? lo := snt.BatchFlatten l in
  let? up := snt.BatchFlatten u in
  Ok (lo, up).

Definition combine (sl su bl bu : value) : result (value * value) :=
  let? _ := ensure_singleton bl bu in
  if negb (is_tuple sl) then
    let? _ := ensure_singleton sl su in
    Ok (Tuple [sl; bl], Tuple [su; bu])
  else
    let? lo := Py.add sl (Tuple [bl]) in
    let? up := Py.add su (Tuple [bu]) in
    Ok (lo, up).

End Pure.

Module Run.

Open Scope result_scope.

(** The state after allocating the bounds [r], or after the exception. *)
Definition alloc (s : state) (r : result (value * value)) : result ref * state :=
  match r with
  | Ok (lo, up) =>
      (Ok (length (heap s)),
       mkState (heap s ++ [IntervalBoundsObj lo up]) (calls s))
  | Raise e => (Raise e, s)
  end.

(** The outcome of a method that returns the new bounds [[lo, up]]: their
    address, the next free one, and the heap with them added. *)
Definition allocated (s : state) (lo up : value) : result ref * state :=
  alloc s (Ok (lo, up)).

(** A computation that leaves the state as it is. *)
Definition reads {A} (m : M A) (s : state) (r : result A) : Prop := m s = (r, s).

Lemma bind_reads {A B} (m : M A) (k : A -> M B) s r :
  reads m s r ->
  bind m k s = match r with Ok a => k a s | Raise e => (Raise e, s) end.
Proof. unfold reads, bind. intros ->. now destruct r. Qed.

Lemma reads_bind {A B} (m : M A) (k : A -> M B) s r (q : A -> result B) :
  reads m s r -> (forall a, r = Ok a -> reads (k a) s (q a)) ->
  reads (bind m k) s (rbind r q).
Proof.
  intros Hm Hk. unfold reads. rewrite (bind_reads _ Hm).
  destruct r; simpl; [now apply Hk | reflexivity].
Qed.

Lemma reads_lift {A} (r : result A) s : reads (lift r) s r.
Proof. reflexivity. Qed.

Lemma reads_ret {A} (a : A) s : reads (ret a) s (Ok a).
Proof. reflexivity. Qed.

Section Receiver.

Variables (s : state) (self : ref) (l u : value).
Hypothesis Hself : nth_error (heap s) self = Some (IntervalBoundsObj l u).

Lemma reads_lower : reads (getattr_lower self) s (Ok l).
Proof.
  unfold reads, getattr_lower, bind, deref. now rewrite Hself.
Qed.

Lemma reads_upper : reads (getattr_upper self) s (Ok u).
Proof.
  unfold reads, getattr_upper, bind, deref. now rewrite Hself.
Qed.

Lemma reads_isinstance : reads (IntervalBounds.isinstance self) s (Ok true).
Proof.
  unfold reads, IntervalBounds.isinstance, bind, deref. now rewrite Hself.
Qed.

Lemma reads_class_name : reads (class_name_of self) s (Ok "IntervalBounds").
Proof.
  unfold reads, class_name_of, bind, deref. now rewrite Hself.
Qed.

Lemma reads_ensure_singleton :
  reads (IntervalBounds._ensure_singleton self) s (Pure.ensure_singleton l u).
Proof.
  unfold reads, IntervalBounds._ensure_singleton.
  rewrite (bind_reads _ reads_lower), (bind_reads _ reads_upper).
  unfold Pure.ensure_singleton. now destruct (is_tuple l || is_tuple u).
Qed.

Lemma reads_center : reads (IntervalBounds.center self) s (Pure.center l u).
Proof.
  unfold reads, IntervalBounds.center, IntervalBounds.lower, IntervalBounds.upper.
  rewrite (bind_reads _ reads_lower), (bind_reads _ reads_upper).
  unfold Pure.center. rewrite (bind_reads _ (reads_lift _ _)).
  now destruct (Py.add l u).
Qed.

Lemma reads_radius : reads (IntervalBounds.radius self) s (Pure.radius l u).
Proof.
  unfold reads, IntervalBounds.radius, IntervalBounds.lower, IntervalBounds.upper.
  rewrite (bind_reads _ reads_upper), (bind_reads _ reads_lower).
  unfold Pure.radius. rewrite (bind_reads _ (reads_lift _ _)).
  now destruct (Py.sub u l).
Qed.

End Receiver.

Arguments reads_lower {s self l u} Hself.
Arguments reads_upper {s self l u} Hself.
Arguments reads_isinstance {s self l u} Hself.
Arguments reads_class_name {s self l u} Hself.
Arguments reads_ensure_singleton {s self l u} Hself.
Arguments reads_center {s self l u} Hself.
Arguments reads_radius {s self l u} Hself.

Lemma reads_add_bias c b s :
  reads (IntervalBounds.add_bias c b) s (Pure.add_bias c b).
Proof. now destruct b. Qed.

(** The last steps of the affine handlers. *)
Lemma run_around c r s :
  (lo <- lift (Py.sub c r) ;;
   up <- lift (Py.add c r) ;;
   IntervalBounds.__init__ lo up) s = alloc s (Pure.around c r).
Proof.
  unfold Pure.around. rewrite !(bind_reads _ (reads_lift _ _)).
  destruct (Py.sub c r); simpl; [|reflexivity].
  rewrite (bind_reads _ (reads_lift _ _)).
  now destruct (Py.add c r).
Qed.

(** One step of a run: a sub-computation that only reads is replaced by
    its result, and the exception case is closed. *)
Tactic Notation "step" open_constr(H) :=
  rewrite (bind_reads _ H);
  match goal with
  | |- context [rbind ?r _] => destruct r; simpl; [|reflexivity]
  end.

Section Methods.

Variables (s : state) (self : ref) (l u : value).
Hypothesis Hself : nth_error (heap s) self = Some (IntervalBoundsObj l u).

Lemma run_linear w b :
  IntervalBounds._linear self w b s = alloc s (Pure.linear l u w b).
Proof.
  unfold IntervalBounds._linear, Pure.linear.
  step (reads_ensure_singleton Hself).
  step (reads_center Hself).
  step (reads_radius Hself).
  step (reads_lift _ s).
  step (reads_add_bias _ b s).
  step (reads_lift _ s).
  apply run_around.
Qed.

Lemma run_conv2d w b padding strides :
  IntervalBounds._conv2d self w b padding strides s
  = alloc s (Pure.conv2d l u w b padding strides).
Proof.
  unfold IntervalBounds._conv2d, Pure.conv2d.
  step (reads_ensure_singleton Hself).
  step (reads_center Hself).
  step (reads_radius Hself).
  step (reads_lift _ s).
  step (reads_add_bias _ b s).
  step (reads_lift _ s).
  apply run_around.
Qed.

Lemma run_batch_norm mean variance scale bias epsilon :
  IntervalBounds._batch_norm self mean variance scale bias epsilon s
  = alloc s (Pure.batch_norm l u mean variance scale bias epsilon).
Proof.
  unfold IntervalBounds._batch_norm, Pure.batch_norm.
  step (reads_ensure_singleton Hself).
  unfold Pure.multiplier.
  rewrite (bind_reads _ (reads_lift _ s)).
  destruct (TensorOps.add variance (TensorOps.scalar epsilon)) as [v|];
    simpl; [|reflexivity].
  assert (Hm : reads (match scale with
                      | Some scale => lift (TensorOps.multiply (tf.rsqrt v) scale)
                      | None => ret (tf.rsqrt v)
                      end) s
                     (match scale with
                      | Some scale => TensorOps.multiply (tf.rsqrt v) scale
                      | None => Ok (tf.rsqrt v)
                      end)) by now destruct scale.
  step Hm. clear Hm.
  unfold Pure.folded_bias.
  rewrite (bind_reads _ (reads_lift _ s)).
  destruct (TensorOps.multiply (tf.negative a0) mean) as [b0|];
    simpl; [|reflexivity].
  assert (Hb : reads (match bias with
                      | Some bias => lift (TensorOps.add b0 bias)
                      | None => ret b0
                      end) s
                     (match bias with
                      | Some bias => TensorOps.add b0 bias
                      | None => Ok b0
                      end)) by now destruct bias.
  step Hb. clear Hb.
  step (reads_lift _ s).
  step (reads_center Hself).
  step (reads_radius Hself).
  step (reads_lift _ s).
  step (reads_lift _ s).
  step (reads_lift _ s).
  apply run_around.
Qed.

Lemma run_batch_flatten :
  IntervalBounds._batch_flatten self s = alloc s (Pure.batch_flatten l u).
Proof.
  unfold IntervalBounds._batch_flatten, Pure.batch_flatten,
    IntervalBounds.lower, IntervalBounds.upper.
  step (reads_ensure_singleton Hself).
  rewrite (bind_reads _ (reads_lower Hself)).
  step (reads_lift _ s).
  rewrite (bind_reads _ (reads_upper Hself)).
  step (reads_lift _ s).
  reflexivity.
Qed.

End Methods.

Arguments run_linear {s self l u} Hself w b.
Arguments run_conv2d {s self l u} Hself w b padding strides.
Arguments run_batch_norm {s self l u} Hself mean variance scale bias epsilon.
Arguments run_batch_flatten {s self l u} Hself.

(** [combine_with]: the receiver and the operand may be one object. *)
Lemma run_combine_with s self bounds sl su bl bu :
  nth_error (heap s) self = Some (IntervalBoundsObj sl su) ->
  nth_error (heap s) bounds = Some (IntervalBoundsObj bl bu) ->
  IntervalBounds.combine_with self bounds s = alloc s (Pure.combine sl su bl bu).
Proof.
  intros Hself Hb.
  unfold IntervalBounds.combine_with, Pure.combine,
    IntervalBounds.lower, IntervalBounds.upper.
  rewrite (bind_reads _ (reads_isinstance Hb)). simpl.
  step (reads_ensure_singleton Hb).
  rewrite (bind_reads _ (reads_lower Hself)).
  destruct (is_tuple sl); simpl.
  - unfold bind at 1.
    rewrite (bind_reads _ (reads_lower Hself)), (bind_reads _ (reads_lower Hb)).
    rewrite (bind_reads _ (reads_lift _ s)).
    destruct (Py.add sl (Tuple [bl])); simpl; [|reflexivity].
    rewrite (bind_reads _ (reads_upper Hself)), (bind_reads _ (reads_upper Hb)).
    rewrite (bind_reads _ (reads_lift _ s)).
    destruct (Py.add su (Tuple [bu])); reflexivity.
  - unfold bind at 1.
    step (reads_ensure_singleton Hself).
    rewrite (bind_reads _ (reads_lower Hself)), (bind_reads _ (reads_lower Hb)).
    rewrite (bind_reads _ (reads_upper Hself)), (bind_reads _ (reads_upper Hb)).
    reflexivity.
Qed.

(** *** The monotonic handler *)

(** The state with the calls [cs] added to the log. *)
Definition logged (s : state) (cs : list (string * list value)) : state :=
  mkState (heap s) (calls s ++ cs).

(** [fn] called on [largs], then on [uargs], then the allocation. *)
Definition call_twice (s : state) (fn : py_function) (largs uargs : list value)
  : result ref * state :=
  match apply fn largs with
  | Raise e => (Raise e, logged s [(__name__ fn, largs)])
  | Ok lo =>
      match apply fn uargs with
      | Raise e => (Raise e, logged s [(__name__ fn, largs); (__name__ fn, uargs)])
      | Ok up =>
          alloc (logged s [(__name__ fn, largs); (__name__ fn, uargs)]) (Ok (lo, up))
      end
  end.

Definition monotonic_fn (s : state) (l u : value) (fn : py_function)
  : result ref * state :=
  match l, u with
  | Tuple ls, Tuple us => call_twice s fn ls us
  | Tuple _, Tensor _ => (Raise AssertionError, s)
  | Tensor _, Tuple _ => (Raise (ValueError "Cannot proceed with multiple inputs."), s)
  | Tensor _, Tensor _ => call_twice s fn [l] [u]
  end.

Lemma heap_logged s cs : heap (logged s cs) = heap s.
Proof. reflexivity. Qed.

Lemma logged_logged s cs cs' : logged (logged s cs) cs' = logged s (cs ++ cs').
Proof. unfold logged; simpl. now rewrite <- app_assoc. Qed.

Lemma run_call fn args s :
  call fn args s = (apply fn args, logged s [(__name__ fn, args)]).
Proof. reflexivity. Qed.

Lemma run_monotonic_fn s self l u (Hself : nth_error (heap s) self = Some (IntervalBoundsObj l u)) fn :
  IntervalBounds._monotonic_fn self fn s = monotonic_fn s l u fn.
Proof.
  unfold IntervalBounds._monotonic_fn, monotonic_fn.
  rewrite (bind_reads _ (reads_lower Hself)).
  assert (Hlog : forall cs, nth_error (heap (logged s cs)) self
                            = Some (IntervalBoundsObj l u)) by (intros; exact Hself).
  destruct l as [x|ls]; simpl.
  - rewrite (bind_reads _ (reads_ensure_singleton Hself)).
    unfold Pure.ensure_singleton; simpl.
    destruct u as [y|us]; simpl; [|reflexivity].
    unfold IntervalBounds.lower, IntervalBounds.upper, call_twice.
    rewrite (bind_reads _ (reads_lower Hself)).
    unfold bind at 1. rewrite run_call.
    destruct (apply fn [Tensor x]) as [lo|e]; [|reflexivity].
    rewrite (bind_reads _ (reads_upper (Hlog _))).
    unfold bind at 1. rewrite run_call, logged_logged. simpl.
    destruct (apply fn [Tensor y]); reflexivity.
  - rewrite (bind_reads _ (reads_upper Hself)).
    destruct u as [y|us]; simpl; [reflexivity|].
    unfold IntervalBounds.lower, IntervalBounds.upper, call_twice.
    rewrite (bind_reads _ (reads_lower Hself)).
    rewrite (bind_reads _ (reads_lift _ _)). simpl.
    unfold bind at 1. rewrite run_call.
    destruct (apply fn ls) as [lo|e]; [|reflexivity].
    rewrite (bind_reads _ (reads_upper (Hlog _))).
    rewrite (bind_reads _ (reads_lift _ _)). simpl.
    unfold bind at 1. rewrite run_call, logged_logged. simpl.
    destruct (apply fn us); reflexivity.
Qed.

Arguments run_monotonic_fn {s self l u} Hself fn.
Arguments run_combine_with {s self bounds sl su bl bu} _ _.

End Run.

(** ** Dispatch on the receiver's class *)

Module Dispatch.
Import verifiable_wrapper Run.

(** What [propagate_through] runs when the receiver is an
    [IntervalBounds]. *)
Definition interval_handler (self : ref) (wrapper : VerifiableWrapper) : M ref :=
  match wrapper with
  | LinearFCWrapper module =>
      IntervalBounds._linear self (snt.Linear.w module) (snt.Linear.bias module)
  | LinearConv2dWrapper module =>
      IntervalBounds._conv2d self (snt.Conv2D.w module) (snt.Conv2D.bias module)
        (snt.Conv2D.padding module) (Py.slice_1_m1 (snt.Conv2D.stride module))
  | MonotonicWrapper module => IntervalBounds._monotonic_fn self module
  | BatchNormWrapper module =>
      IntervalBounds._batch_norm self
        (ibp.BatchNorm.mean module) (ibp.BatchNorm.variance module)
        (ibp.BatchNorm.scale module) (ibp.BatchNorm.bias module)
        (ibp.BatchNorm.epsilon module)
  | BatchFlattenWrapper => IntervalBounds._batch_flatten self
  | OtherWrapper c => raise (NotImplementedError (c ++ " not supported."))
  end.

Lemma reads_method {A} classes (def : AbstractBounds.class -> option A) inh s self c :
  reads (class_name_of self) s (Ok c) ->
  reads (AbstractBounds.method classes self def inh) s
        (Ok (AbstractBounds.resolve (def (classes c)) inh)).
Proof.
  intros Hc. unfold reads, AbstractBounds.method.
  now rewrite (bind_reads _ Hc).
Qed.

Lemma run_propagate_through others s self l u wrapper :
  nth_error (heap s) self = Some (IntervalBoundsObj l u) ->
  propagate_through others self wrapper s = interval_handler self wrapper s.
Proof.
  intros Hself. pose proof (reads_class_name Hself) as Hc.
  unfold propagate_through, AbstractBounds.propagate_through.
  destruct wrapper as [m|m|m|m| |c]; simpl.
  - assert (Hb : reads (if snt.Linear.has_bias m
                        then x <- lift (snt.Linear.b m) ;; ret (Some x)
                        else ret None) s (Ok (snt.Linear.bias m))).
    { unfold snt.Linear.has_bias, snt.Linear.b.
      now destruct (snt.Linear.bias m). }
    rewrite (bind_reads _ Hb).
    now rewrite (bind_reads _ (reads_method _ _ _ Hc)).
  - assert (Hb : reads (if snt.Conv2D.has_bias m
                        then x <- lift (snt.Conv2D.b m) ;; ret (Some x)
                        else ret None) s (Ok (snt.Conv2D.bias m))).
    { unfold snt.Conv2D.has_bias, snt.Conv2D.b.
      now destruct (snt.Conv2D.bias m). }
    rewrite (bind_reads _ Hb).
    now rewrite (bind_reads _ (reads_method _ _ _ Hc)).
  - now rewrite (bind_reads _ (reads_method _ _ _ Hc)).
  - now rewrite (bind_reads _ (reads_method _ _ _ Hc)).
  - now rewrite (bind_reads _ (reads_method _ _ _ Hc)).
  - reflexivity.
Qed.

End Dispatch.

(** ** Inversion of the pure computations on tensors *)

Module Inversion.
Import Order.

Lemma rbind_ok {A B} (r : result A) (k : A -> result B) b :
  rbind r k = Ok b -> exists a, r = Ok a /\ k a = Ok b.
Proof. destruct r as [a|e]; simpl; [eauto | discriminate]. Qed.

Lemma rmap_ok {A B} (f : A -> B) (r : result A) b :
  rmap f r = Ok b -> exists a, r = Ok a /\ b = f a.
Proof.
  unfold rmap. intros H. apply rbind_ok in H. destruct H as (a & -> & [= <-]). eauto.
Qed.









Lemma ensure_singleton_ok l u a :
  Pure.ensure_singleton l u = Ok a ->
  exists x y, l = Tensor x /\ u = Tensor y.
Proof.
  unfold Pure.ensure_singleton.
  destruct l as [x|]; destruct u as [y|]; simpl; try discriminate. eauto.
Qed.

End Inversion.

(** ** The ordering invariant *)

Module Invariant.
Import Order Inversion Run.

(** The object at [r] is an [IntervalBounds] whose lower bound is below its
    upper bound. *)
Definition ordered (s : state) (r : ref) : Prop :=
  exists lo up,
    nth_error (heap s) r = Some (IntervalBoundsObj lo up) /\ vle lo up.

(** The precondition of the monotonic handler: larger arguments give a
    larger result. *)
Definition monotone (fn : py_function) : Prop :=
  forall xs ys a b,
    Forall2 vle xs ys -> apply fn xs = Ok a -> apply fn ys = Ok b -> vle a b.

(** Every element of [variance + epsilon] is positive: the parameters for
    which [1 / sqrt (variance + epsilon)] is defined. *)
Definition positive_variance (variance : tensor) (epsilon : R) : Prop :=
  Forall (fun v => (0 < v + epsilon)%R) (data variance).





Lemma flatten_tensor a v :
  snt.BatchFlatten (Tensor a) = Ok v ->
  exists t, v = Tensor t /\ TensorOps.batch_flatten a = Ok t.
Proof.
  unfold snt.BatchFlatten; simpl. intros H. apply rmap_ok in H.
  destruct H as (t & H & ->). eauto.
Qed.






Lemma nth_error_new (h : list object) o :
  nth_error (h ++ [o]) (length h) = Some o.
Proof. rewrite nth_error_app2, Nat.sub_diag by lia. reflexivity. Qed.

(** A successful allocation returns the address of the new bounds. *)
Lemma alloc_ok s res r s' :
  alloc s res = (Ok r, s') ->
  exists lo up,
    res = Ok (lo, up) /\ r = length (heap s) /\
    s' = mkState (heap s ++ [IntervalBoundsObj lo up]) (calls s).
Proof.
  destruct res as [[lo up]|e]; simpl; [|discriminate].
  intros [= <- <-]. eauto.
Qed.

Lemma alloc_ordered s res r s' :
  (forall lo up, res = Ok (lo, up) -> vle lo up) ->
  alloc s res = (Ok r, s') -> ordered s' r.
Proof.
  intros Hres H. apply alloc_ok in H. destruct H as (lo & up & -> & -> & ->).
  exists lo, up. split; [apply nth_error_new | now apply Hres].
Qed.


End Invariant.

(** ** Elementwise description of the tensor operations *)

Module Elements.
Import TensorOps TensorFacts.

Open Scope R_scope.

(** The tensor [x] has shape [s] and, at every index within [s], the
    element [g idx]. *)
Definition has_elems (x : tensor) (s : list nat) (g : list nat -> R) : Prop :=
  shape x = s /\ forall idx, valid idx s -> get x idx = g idx.

(** Sum of the products [f k * g k] over [k < n]. *)
Definition dot (f g : nat -> R) (n : nat) : R :=
  Rsum (map (fun k => f k * g k) (seq 0 n)).

Lemma has_elems_self x : has_elems x (shape x) (get x).
Proof. now split. Qed.

Lemma has_elems_ext x s g g' :
  has_elems x s g -> (forall idx, valid idx s -> g idx = g' idx) ->
  has_elems x s g'.
Proof.
  intros [Hs Hg] Hext. split; [exact Hs|].
  intros idx Hv. now rewrite Hg, Hext.
Qed.

Lemma tabulate_elems s g : has_elems (mkTensor s (map g (indices s))) s g.
Proof. split; [reflexivity|]. intros idx Hv. now apply get_tabulate. Qed.

Lemma abs_elems w s g :
  has_elems w s g -> has_elems (abs w) s (fun idx => Rabs (g idx)).
Proof.
  intros [Hs Hg]. split; [exact Hs|].
  intros idx Hv. now rewrite get_abs, Hg.
Qed.

(** A binary operation on two tensors of one shape. *)
Lemma binop_elems name f x y s gx gy :
  has_elems x s gx -> has_elems y s gy ->
  exists z, binop name f x y = Ok z /\
            has_elems z s (fun idx => f (gx idx) (gy idx)).
Proof.
  intros [Hsx Hx] [Hsy Hy]. unfold binop.
  rewrite Hsx, Hsy, broadcast_shape_refl.
  eexists. split; [reflexivity|].
  eapply has_elems_ext; [apply tabulate_elems|].
  intros idx Hv. cbv beta.
  rewrite !bget_valid by congruence. now rewrite Hx, Hy.
Qed.

(** A binary operation with a Python float. *)
Lemma binop_scalar_elems name f x v s gx :
  has_elems x s gx ->
  exists z, binop name f x (scalar v) = Ok z /\
            has_elems z s (fun idx => f (gx idx) v).
Proof.
  intros [Hsx Hx]. unfold binop.
  rewrite Hsx. simpl shape. rewrite broadcast_shape_scalar.
  eexists. split; [reflexivity|].
  eapply has_elems_ext; [apply tabulate_elems|].
  intros idx Hv. cbv beta.
  rewrite bget_valid by congruence. now rewrite Hx, bget_scalar.
Qed.

Lemma valid2 i j m n : (i < m)%nat -> (j < n)%nat -> valid [i; j] [m; n].
Proof. intros. repeat constructor; assumption. Qed.

Lemma valid2_inv idx m n :
  valid idx [m; n] -> exists i j, idx = [i; j] /\ (i < m)%nat /\ (j < n)%nat.
Proof.
  intros H. inversion H as [|i ? idx' ? Hi H']; subst.
  inversion H' as [|j ? idx'' ? Hj H'']; subst.
  inversion H''; subst. eauto.
Qed.

Lemma dot_ext f f' g g' n :
  (forall k, (k < n)%nat -> f k = f' k) ->
  (forall k, (k < n)%nat -> g k = g' k) ->
  dot f g n = dot f' g' n.
Proof.
  intros Hf Hg. unfold dot. f_equal. apply map_ext_in.
  intros k Hk. apply in_seq in Hk. rewrite Hf, Hg by lia. reflexivity.
Qed.

(** The product of an [m x k] and a [k x n] matrix. *)
Lemma matmul_elems a b m k n ga gb :
  has_elems a [m; k] ga -> has_elems b [k; n] gb ->
  exists c, matmul a b = Ok c /\
            has_elems c [m; n]
              (fun idx => match idx with
                          | [i; j] => dot (fun kk => ga [i; kk]) (fun kk => gb [kk; j]) k
                          | _ => 0
                          end).
Proof.
  intros [Hsa Ha] [Hsb Hb]. unfold matmul.
  rewrite Hsa, Hsb. simpl. rewrite Nat.eqb_refl. simpl.
  eexists. split; [reflexivity|].
  eapply has_elems_ext; [apply (tabulate_elems [m; n])|].
  intros idx Hv. apply valid2_inv in Hv. destruct Hv as (i & j & -> & Hi & Hj).
  simpl. apply dot_ext; intros kk Hk.
  - apply Ha. now apply valid2.
  - apply Hb. now apply valid2.
Qed.

Lemma broadcast_shape_row m n : broadcast_shape [m; n] [n] = Some [m; n].
Proof. unfold broadcast_shape. simpl. now rewrite Nat.eqb_refl. Qed.

Lemma bindex_row n i j : (j < n)%nat -> bindex [n] [i; j] = [j].
Proof.
  intros Hj. unfold bindex. simpl.
  destruct (Nat.eqb_spec n 1); [f_equal; lia | reflexivity].
Qed.

(** A binary operation of an [m x n] matrix and a vector of length [n],
    which is read along every row. *)
Lemma binop_row_elems name f x y m n gx gy :
  has_elems x [m; n] gx -> has_elems y [n] gy ->
  exists z, binop name f x y = Ok z /\
            has_elems z [m; n]
              (fun idx => match idx with
                          | [i; j] => f (gx [i; j]) (gy [j])
                          | _ => 0
                          end).
Proof.
  intros [Hsx Hx] [Hsy Hy]. unfold binop.
  rewrite Hsx, Hsy, broadcast_shape_row.
  eexists. split; [reflexivity|].
  eapply has_elems_ext; [apply tabulate_elems|].
  intros idx Hv. pose proof Hv as Hv'.
  apply valid2_inv in Hv'. destruct Hv' as (i & j & -> & Hi & Hj).
  rewrite bget_valid by congruence. rewrite Hx by assumption.
  unfold bget. rewrite Hsy, bindex_row by assumption.
  rewrite Hy by (repeat constructor; assumption). reflexivity.
Qed.

End Elements.

(** ** The affine handlers, element by element *)

Module Affine.
Import TensorOps TensorFacts Elements.

Open Scope R_scope.

Lemma lift2_ok op a b t :
  op a b = Ok t -> Py.lift2 op (Tensor a) (Tensor b) = Ok (Tensor t).
Proof. unfold Py.lift2; simpl. now intros ->. Qed.

Lemma center_elems l u s gl gu :
  has_elems l s gl -> has_elems u s gu ->
  exists c, Pure.center (Tensor l) (Tensor u) = Ok (Tensor c) /\
            has_elems c s (fun idx => (gl idx + gu idx) / 2).
Proof.
  intros Hl Hu.
  destruct (binop_elems "add" Rplus Hl Hu) as (a & Ha & Hae).
  destruct (binop_scalar_elems "truediv" Rdiv 2 Hae) as (c & Hc & Hce).
  exists c. split; [|exact Hce].
  unfold Pure.center, Py.add. rewrite (lift2_ok TensorOps.add _ _ Ha). simpl.
  unfold TensorOps.truediv. now rewrite Hc.
Qed.

Lemma radius_elems l u s gl gu :
  has_elems l s gl -> has_elems u s gu ->
  exists r, Pure.radius (Tensor l) (Tensor u) = Ok (Tensor r) /\
            has_elems r s (fun idx => (gu idx - gl idx) / 2).
Proof.
  intros Hl Hu.
  destruct (binop_elems "sub" Rminus Hu Hl) as (d & Hd & Hde).
  destruct (binop_scalar_elems "truediv" Rdiv 2 Hde) as (r & Hr & Hre).
  exists r. split; [|exact Hre].
  unfold Pure.radius, Py.sub. rewrite (lift2_ok TensorOps.subtract _ _ Hd). simpl.
  unfold TensorOps.truediv. now rewrite Hr.
Qed.

Lemma around_elems c r s gc gr :
  has_elems c s gc -> has_elems r s gr ->
  exists lo up, Pure.around (Tensor c) (Tensor r) = Ok (Tensor lo, Tensor up) /\
                has_elems lo s (fun idx => gc idx - gr idx) /\
                has_elems up s (fun idx => gc idx + gr idx).
Proof.
  intros Hc Hr.
  destruct (binop_elems "sub" Rminus Hc Hr) as (lo & Hlo & Hloe).
  destruct (binop_elems "add" Rplus Hc Hr) as (up & Hup & Hupe).
  exists lo, up. split; [|now split].
  unfold Pure.around, Py.sub, Py.add.
  rewrite (lift2_ok TensorOps.subtract _ _ Hlo). simpl.
  now rewrite (lift2_ok TensorOps.add _ _ Hup).
Qed.

(** The bias added to column [j]; no bias adds nothing. *)
Definition bias_at (b : option tensor) (j : nat) : R :=
  match b with
  | Some b => get b [j]
  | None => 0
  end.

Definition bias_shape (b : option tensor) (n : nat) : Prop :=
  match b with
  | Some b => shape b = [n]
  | None => True
  end.

Lemma add_bias_elems c b m n gc :
  has_elems c [m; n] gc -> bias_shape b n ->
  exists c', Pure.add_bias (Tensor c) b = Ok (Tensor c') /\
             has_elems c' [m; n]
               (fun idx => match idx with
                           | [i; j] => gc [i; j] + bias_at b j
                           | _ => 0
                           end).
Proof.
  intros Hc Hb. destruct b as [b|]; simpl in *.
  - destruct (binop_row_elems "add" Rplus Hc (conj Hb (fun idx _ => eq_refl (get b idx))))
      as (c' & Hc' & Hce).
    exists c'. split; [|exact Hce].
    unfold Py.add. now rewrite (lift2_ok TensorOps.add _ _ Hc').
  - exists c. split; [reflexivity|].
    eapply has_elems_ext; [exact Hc|].
    intros idx Hv. apply valid2_inv in Hv. destruct Hv as (i & j & -> & _).
    lra.
Qed.

(** Centre and radius of the input interval at row [i], column [k]. *)
Definition center_at (l u : tensor) (i k : nat) : R :=
  (get l [i; k] + get u [i; k]) / 2.

Definition radius_at (l u : tensor) (i k : nat) : R :=
  (get u [i; k] - get l [i; k]) / 2.

(** [_linear] on an [m x k] interval with a [k x n] weight matrix. *)
Lemma linear_elems l u w b m k n :
  shape l = [m; k] -> shape u = [m; k] -> shape w = [k; n] -> bias_shape b n ->
  exists lo up,
    Pure.linear (Tensor l) (Tensor u) w b = Ok (Tensor lo, Tensor up) /\
    shape lo = [m; n] /\ shape up = [m; n] /\
    forall i j, (i < m)%nat -> (j < n)%nat ->
      get lo [i; j]
      = dot (center_at l u i) (fun kk => get w [kk; j]) k + bias_at b j
        - dot (radius_at l u i) (fun kk => Rabs (get w [kk; j])) k
      /\
      get up [i; j]
      = dot (center_at l u i) (fun kk => get w [kk; j]) k + bias_at b j
        + dot (radius_at l u i) (fun kk => Rabs (get w [kk; j])) k.
Proof.
  intros Hl Hu Hw Hb.
  assert (Hle : has_elems l [m; k] (get l)) by now split.
  assert (Hue : has_elems u [m; k] (get u)) by now split.
  assert (Hwe : has_elems w [k; n] (get w)) by now split.
  destruct (center_elems Hle Hue) as (c & Hc & Hce).
  destruct (radius_elems Hle Hue) as (r & Hr & Hre).
  destruct (matmul_elems Hce Hwe) as (cw & Hcw & Hcwe).
  destruct (add_bias_elems b Hcwe Hb) as (cb & Hcb & Hcbe).
  destruct (matmul_elems Hre (abs_elems Hwe)) as (rw & Hrw & Hrwe).
  destruct (around_elems Hcbe Hrwe) as (lo & up & Hlu & Hlo & Hup).
  exists lo, up. repeat split.
  - unfold Pure.linear. simpl. rewrite Hc. simpl. rewrite Hr. simpl.
    unfold tf.matmul. rewrite (lift2_ok TensorOps.matmul _ _ Hcw). simpl.
    rewrite Hcb. simpl.
    unfold tf.abs. rewrite (lift2_ok TensorOps.matmul _ _ Hrw). simpl.
    exact Hlu.
  - apply Hlo.
  - apply Hup.
  - destruct Hlo as [_ Hlo]. rewrite Hlo by now apply valid2. reflexivity.
  - destruct Hup as [_ Hup]. rewrite Hup by now apply valid2. reflexivity.
Qed.

End Affine.

(** ** Small tensors for the examples *)

Module Examples.

Open Scope R_scope.

(** The scalar [v] as a rank-0 tensor, as a vector of length 1 and as a
    1 x 1 matrix. *)
Definition scalar (v : R) : tensor := mkTensor [] [v].
Definition vector1 (v : R) : tensor := mkTensor [1%nat] [v].
Definition matrix11 (v : R) : tensor := mkTensor [1%nat; 1%nat] [v].

(** The state whose heap is the one interval [[l, u]] and whose log is
    empty. *)
Definition interval (l u : value) : state :=
  mkState [IntervalBoundsObj l u] [].

Lemma Rabs_2 : Rabs 2 = 2.
Proof. apply Rabs_pos_eq. lra. Qed.

Lemma Rabs_m2 : Rabs (-2) = 2.
Proof. unfold Rabs. destruct (Rcase_abs (-2)); lra. Qed.

(** Evaluates a computation on explicit tensors down to its real-number
    expressions. *)
Ltac evaluate :=
  cbv - [Rplus Rminus Rmult Rdiv Rinv Rabs sqrt IZR Ropp Rle].

Lemma linear_2_1 :
  Pure.linear (Tensor (matrix11 1)) (Tensor (matrix11 3)) (matrix11 2)
              (Some (vector1 1))
  = Ok (Tensor (matrix11 3), Tensor (matrix11 7)).
Proof. evaluate. rewrite Rabs_2. repeat f_equal; lra. Qed.

Lemma linear_m2_0 :
  Pure.linear (Tensor (matrix11 1)) (Tensor (matrix11 3)) (matrix11 (-2))
              (Some (vector1 0))
  = Ok (Tensor (matrix11 (-6)), Tensor (matrix11 (-2))).
Proof. evaluate. rewrite Rabs_m2. repeat f_equal; lra. Qed.

End Examples.

(** ** Batch normalisation, element by element *)

Module BatchNormFacts.
Import TensorOps TensorFacts Elements Affine.

Open Scope R_scope.

Lemma unop_elems f x s g :
  f 0 = 0 -> has_elems x s g -> has_elems (unop f x) s (fun idx => f (g idx)).
Proof.
  intros H0 [Hs Hg]. split; [exact Hs|].
  intros idx Hv. now rewrite get_unop, Hg.
Qed.

Lemma rsqrt_0 : / sqrt 0 = 0.
Proof. rewrite sqrt_0. apply Rinv_0. Qed.

Lemma broadcast_shape_rowmat m n : broadcast_shape [m; n] [1%nat; n] = Some [m; n].
Proof.
  unfold broadcast_shape. simpl. rewrite Nat.eqb_refl.
  now destruct (m =? 1)%nat eqn:E; [apply Nat.eqb_eq in E; subst|].
Qed.

Lemma bindex_rowmat n i j : (j < n)%nat -> bindex [1%nat; n] [i; j] = [0%nat; j].
Proof.
  intros Hj. unfold bindex. simpl.
  destruct (Nat.eqb_spec n 1); [do 2 f_equal; lia | reflexivity].
Qed.

(** A binary operation of an [m x n] matrix and a [1 x n] matrix, whose one
    row is read along every row. *)
Lemma binop_rowmat_elems name f x y m n gx gy :
  has_elems x [m; n] gx -> has_elems y [1%nat; n] gy ->
  exists z, binop name f x y = Ok z /\
            has_elems z [m; n]
              (fun idx => match idx with
                          | [i; j] => f (gx [i; j]) (gy [0%nat; j])
                          | _ => 0
                          end).
Proof.
  intros [Hsx Hx] [Hsy Hy]. unfold binop.
  rewrite Hsx, Hsy, broadcast_shape_rowmat.
  eexists. split; [reflexivity|].
  eapply has_elems_ext; [apply tabulate_elems|].
  intros idx Hv. pose proof Hv as Hv'.
  apply valid2_inv in Hv'. destruct Hv' as (i & j & -> & Hi & Hj).
  rewrite bget_valid by congruence. rewrite Hx by assumption.
  unfold bget. rewrite Hsy, bindex_rowmat by assumption.
  rewrite Hy by (apply valid2; [lia | assumption]). reflexivity.
Qed.

(** Removing the leading axis of a [1 x n] matrix leaves its row. *)
Lemma squeeze_elems b n g :
  has_elems b [1%nat; n] g ->
  exists b', squeeze0 b = Ok b' /\
             has_elems b' [n] (fun idx => match idx with
                                          | [j] => g [0%nat; j]
                                          | _ => 0
                                          end).
Proof.
  intros [Hs Hg]. unfold squeeze0. rewrite Hs.
  eexists. split; [reflexivity|]. split; [reflexivity|].
  intros idx Hv. inversion Hv as [|j ? idx' ? Hj Hv']; subst.
  inversion Hv'; subst.
  rewrite <- Hg by (apply valid2; [lia | assumption]).
  unfold get. rewrite Hs. reflexivity.
Qed.

(** The parameters of batch normalisation over [n] features are [1 x n]. *)
Definition param_shape (p : option tensor) (n : nat) : Prop :=
  match p with
  | Some p => shape p = [1%nat; n]
  | None => True
  end.

(** The multiplier of feature [j]: [1 / sqrt (variance + epsilon)], times
    the scale when there is one. *)
Definition multiplier_at (variance : tensor) (scale : option tensor) (epsilon : R)
           (j : nat) : R :=
  match scale with
  | Some scale => / sqrt (get variance [0%nat; j] + epsilon) * get scale [0%nat; j]
  | None => / sqrt (get variance [0%nat; j] + epsilon)
  end.

(** The bias term of feature [j] for the multiplier [m]: [- m * mean], plus
    the bias when there is one. *)
Definition bias_term_at (m : R) (mean : tensor) (bias : option tensor) (j : nat) : R :=
  match bias with
  | Some bias => - m * get mean [0%nat; j] + get bias [0%nat; j]
  | None => - m * get mean [0%nat; j]
  end.

Lemma multiplier_elems variance scale epsilon n :
  shape variance = [1%nat; n] -> param_shape scale n ->
  exists w, Pure.multiplier variance scale epsilon = Ok w /\
            has_elems w [1%nat; n]
              (fun idx => match idx with
                          | [_; j] => multiplier_at variance scale epsilon j
                          | _ => 0
                          end).
Proof.
  intros Hv Hs. unfold Pure.multiplier.
  destruct (binop_scalar_elems "add" Rplus epsilon (conj Hv (fun idx _ => eq_refl (get variance idx))))
    as (v & Hadd & Hve).
  unfold add. rewrite Hadd. simpl.
  pose proof (unop_elems (fun v => / sqrt v) rsqrt_0 Hve) as Hr.
  destruct scale as [scale|]; simpl in *.
  - destruct (binop_elems "mul" Rmult Hr (conj Hs (fun idx _ => eq_refl (get scale idx))))
      as (w & Hw & Hwe).
    exists w. split; [exact Hw|].
    eapply has_elems_ext; [exact Hwe|].
    intros idx Hi. apply valid2_inv in Hi. destruct Hi as (i & j & -> & Hi & Hj).
    assert (i = 0%nat) as -> by lia. reflexivity.
  - eexists. split; [reflexivity|].
    eapply has_elems_ext; [exact Hr|].
    intros idx Hi. apply valid2_inv in Hi. destruct Hi as (i & j & -> & Hi & Hj).
    assert (i = 0%nat) as -> by lia. reflexivity.
Qed.

Lemma folded_bias_elems w mean bias n gw :
  has_elems w [1%nat; n] gw -> shape mean = [1%nat; n] -> param_shape bias n ->
  exists b, Pure.folded_bias w mean bias = Ok b /\
            has_elems b [1%nat; n]
              (fun idx => match idx with
                          | [_; j] => bias_term_at (gw [0%nat; j]) mean bias j
                          | _ => 0
                          end).
Proof.
  intros Hw Hm Hb. unfold Pure.folded_bias.
  pose proof (unop_elems Ropp Ropp_0 Hw) as Hn.
  destruct (binop_elems "mul" Rmult Hn (conj Hm (fun idx _ => eq_refl (get mean idx))))
    as (b & Hmul & Hbe).
  unfold tf.negative, negative, multiply. rewrite Hmul. simpl.
  destruct bias as [bias|]; simpl in *.
  - destruct (binop_elems "add" Rplus Hbe (conj Hb (fun idx _ => eq_refl (get bias idx))))
      as (b' & Hadd & Hbe').
    exists b'. split; [exact Hadd|].
    eapply has_elems_ext; [exact Hbe'|].
    intros idx Hi. apply valid2_inv in Hi. destruct Hi as (i & j & -> & Hi & Hj).
    assert (i = 0%nat) as -> by lia. reflexivity.
  - exists b. split; [reflexivity|].
    eapply has_elems_ext; [exact Hbe|].
    intros idx Hi. apply valid2_inv in Hi. destruct Hi as (i & j & -> & Hi & Hj).
    assert (i = 0%nat) as -> by lia. reflexivity.
Qed.

(** [_batch_norm] on an [m x n] interval with [1 x n] parameters. *)
Lemma batch_norm_elems l u mean variance scale bias epsilon m n :
  shape l = [m; n] -> shape u = [m; n] ->
  shape mean = [1%nat; n] -> shape variance = [1%nat; n] ->
  param_shape scale n -> param_shape bias n ->
  exists lo up,
    Pure.batch_norm (Tensor l) (Tensor u) mean variance scale bias epsilon
    = Ok (Tensor lo, Tensor up) /\
    shape lo = [m; n] /\ shape up = [m; n] /\
    forall i j, (i < m)%nat -> (j < n)%nat ->
      let mult := multiplier_at variance scale epsilon j in
      get lo [i; j]
      = center_at l u i j * mult + bias_term_at mult mean bias j
        - radius_at l u i j * Rabs mult
      /\
      get up [i; j]
      = center_at l u i j * mult + bias_term_at mult mean bias j
        + radius_at l u i j * Rabs mult.
Proof.
  intros Hl Hu Hmean Hvar Hscale Hbias.
  assert (Hle : has_elems l [m; n] (get l)) by now split.
  assert (Hue : has_elems u [m; n] (get u)) by now split.
  destruct (multiplier_elems variance scale epsilon Hvar Hscale) as (w & Hw & Hwe).
  destruct (@folded_bias_elems w mean bias n _ Hwe Hmean Hbias) as (b & Hb & Hbe).
  destruct (squeeze_elems Hbe) as (b' & Hb' & Hbe').
  destruct (center_elems Hle Hue) as (c & Hc & Hce).
  destruct (radius_elems Hle Hue) as (r & Hr & Hre).
  destruct (binop_rowmat_elems "mul" Rmult Hce Hwe) as (cw & Hcw & Hcwe).
  destruct (binop_row_elems "add" Rplus Hcwe Hbe') as (cb & Hcb & Hcbe).
  destruct (binop_rowmat_elems "mul" Rmult Hre (abs_elems Hwe)) as (rw & Hrw & Hrwe).
  destruct (around_elems Hcbe Hrwe) as (lo & up & Hlu & Hlo & Hup).
  exists lo, up. repeat split.
  - unfold Pure.batch_norm. simpl. rewrite Hw. simpl. rewrite Hb. simpl.
    unfold tf.squeeze_axis0. rewrite Hb'. simpl. rewrite Hc. simpl. rewrite Hr. simpl.
    unfold tf.multiply. rewrite (lift2_ok TensorOps.multiply _ _ Hcw). simpl.
    unfold Py.add. rewrite (lift2_ok TensorOps.add _ _ Hcb). simpl.
    unfold tf.abs. rewrite (lift2_ok TensorOps.multiply _ _ Hrw). simpl.
    exact Hlu.
  - apply Hlo.
  - apply Hup.
  - destruct Hlo as [_ Hlo]. rewrite Hlo by now apply valid2. reflexivity.
  - destruct Hup as [_ Hup]. rewrite Hup by now apply valid2. reflexivity.
Qed.

End BatchNormFacts.

(** ** Batch normalisation on small tensors *)

Module BatchNormExamples.
Import Examples.

Open Scope R_scope.

Lemma sqrt_4 : sqrt (3 + 1) = 2.
Proof. replace (3 + 1) with (2 * 2) by lra. apply sqrt_square. lra. Qed.

(** Mean 0, variance 3, epsilon 1, scale 2, bias 0: the multiplier is 1 and
    the bias term 0. *)
Lemma batch_norm_identity :
  Pure.batch_norm (Tensor (matrix11 1)) (Tensor (matrix11 3))
                  (matrix11 0) (matrix11 3) (Some (matrix11 2)) (Some (matrix11 0)) 1
  = Ok (Tensor (matrix11 1), Tensor (matrix11 3)).
Proof.
  evaluate. rewrite sqrt_4.
  replace (/ 2 * 2) with 1 by lra. rewrite Rabs_R1.
  repeat f_equal; lra.
Qed.

(** Two features, with parameters of shape [2] and of shape [1 x 2]. *)
Definition vector2 (a b : R) : tensor := mkTensor [2%nat] [a; b].
Definition matrix12 (a b : R) : tensor := mkTensor [1%nat; 2%nat] [a; b].

Lemma batch_norm_vector_parameters :
  Pure.batch_norm (Tensor (matrix12 1 1)) (Tensor (matrix12 3 3))
                  (vector2 0 0) (vector2 3 3) (Some (vector2 2 2)) (Some (vector2 0 0)) 1
  = Raise (InvalidArgumentError "squeeze").
Proof. reflexivity. Qed.

Lemma batch_norm_scalar_parameters :
  Pure.batch_norm (Tensor (matrix11 1)) (Tensor (matrix11 3))
                  (scalar 0) (scalar 3) (Some (scalar 2)) (Some (scalar 0)) 1
  = Raise (InvalidArgumentError "squeeze").
Proof. reflexivity. Qed.

Lemma batch_norm_matrix_parameters :
  Pure.batch_norm (Tensor (matrix12 1 1)) (Tensor (matrix12 3 3))
                  (matrix12 0 0) (matrix12 3 3) (Some (matrix12 2 2))
                  (Some (matrix12 0 0)) 1
  = Ok (Tensor (matrix12 1 1), Tensor (matrix12 3 3)).
Proof.
  evaluate. rewrite sqrt_4.
  replace (/ 2 * 2) with 1 by lra. rewrite Rabs_R1.
  repeat f_equal; lra.
Qed.

End BatchNormExamples.

(** ** The squeeze of the folded bias *)

Module Squeeze.
Import Inversion.

Open Scope result_scope.

(** The centre/radius rule for the elementwise affine map with multiplier
    [w] and bias [b]. *)
Definition scale_shift (l u : value) (w b : tensor) : result (value * value) :=
  let? c := Pure.center l u in
  let? r := Pure.radius l u in
  let? cw := tf.multiply c w in
  let? c := Py.add cw (Tensor b) in
  let? r := tf.multiply r (tf.abs w) in
  Pure.around c r.

Lemma squeeze0_ok b b' :
  TensorOps.squeeze0 b = Ok b' ->
  shape b = 1 :: shape b' /\ data b' = data b.
Proof.
  unfold TensorOps.squeeze0.
  destruct (shape b) as [|[|[|d]] sh]; try discriminate.
  intros [= <-]. now split.
Qed.

Lemma squeeze0_raise b :
  (forall sh, shape b <> 1 :: sh) ->
  TensorOps.squeeze0 b = Raise (InvalidArgumentError "squeeze").
Proof.
  unfold TensorOps.squeeze0. intros H.
  destruct (shape b) as [|[|[|d]] sh]; try reflexivity.
  now destruct (H sh).
Qed.

Lemma batch_norm_ok l u mean variance scale bias epsilon lo up :
  Pure.batch_norm l u mean variance scale bias epsilon = Ok (lo, up) ->
  exists w b b',
    Pure.multiplier variance scale epsilon = Ok w /\
    Pure.folded_bias w mean bias = Ok b /\
    shape b = 1 :: shape b' /\ data b' = data b /\
    scale_shift l u w b' = Ok (lo, up).
Proof.
  intros H. unfold Pure.batch_norm in H.
  apply rbind_ok in H. destruct H as (e & _ & H).
  apply rbind_ok in H. destruct H as (w & Hw & H).
  apply rbind_ok in H. destruct H as (b & Hb & H).
  apply rbind_ok in H. destruct H as (b' & Hb' & H).
  apply squeeze0_ok in Hb'. destruct Hb' as [Hs Hd].
  exists w, b, b'. repeat split; assumption.
Qed.

Lemma batch_norm_raise l u mean variance scale bias epsilon w b :
  Pure.ensure_singleton l u = Ok tt ->
  Pure.multiplier variance scale epsilon = Ok w ->
  Pure.folded_bias w mean bias = Ok b ->
  (forall sh, shape b <> 1 :: sh) ->
  Pure.batch_norm l u mean variance scale bias epsilon
  = Raise (InvalidArgumentError "squeeze").
Proof.
  intros He Hw Hb Hs. unfold Pure.batch_norm.
  rewrite He. simpl. rewrite Hw. simpl. rewrite Hb. simpl.
  unfold tf.squeeze_axis0. now rewrite (squeeze0_raise b Hs).
Qed.

End Squeeze.

(** ** Two monotonic functions *)

Module Functions.
Import Order.

Open Scope R_scope.

(** [relu], of one tensor: the elementwise maximum with 0. *)
Definition relu : py_function :=
  mkFunction "relu"
    (fun args =>
       match args with
       | [Tensor x] => Ok (Tensor (TensorOps.unop (Rmax 0) x))
       | _ => Raise TypeError
       end).

(** [add], of two tensors: the elementwise sum. *)
Definition add : py_function :=
  mkFunction "add"
    (fun args =>
       match args with
       | [Tensor x; Tensor y] => rmap Tensor (TensorOps.add x y)
       | _ => Raise TypeError
       end).

Lemma Forall2_map_le (f : R -> R) l1 l2 :
  (forall a b, a <= b -> f a <= f b) ->
  Forall2 Rle l1 l2 -> Forall2 Rle (map f l1) (map f l2).
Proof. intros Hf H. induction H; simpl; constructor; auto. Qed.

Lemma relu_monotone : Invariant.monotone relu.
Proof.
  intros xs ys a b Hxy Ha Hb. simpl in *.
  destruct Hxy as [|v v' xs ys Hv Hxy]; [discriminate|].
  destruct Hv as [x y [Hs Hd]|]; [|discriminate].
  destruct Hxy; [|discriminate].
  injection Ha as <-. injection Hb as <-.
  constructor. split; [exact Hs|]. simpl.
  apply Forall2_map_le; [|exact Hd].
  intros p q Hpq. now apply Rle_max_compat_l.
Qed.

Lemma add_monotone : Invariant.monotone add.
Proof.
  intros xs ys a b Hxy Ha Hb. simpl in *.
  destruct Hxy as [|v v' xs ys Hv Hxy]; [discriminate|].
  destruct Hv as [x x' Hx|]; [|discriminate].
  destruct Hxy as [|v v' xs ys Hv Hxy]; [discriminate|].
  destruct Hv as [y y' Hy|]; [|discriminate].
  destruct Hxy; [|discriminate].
  apply Inversion.rmap_ok in Ha, Hb.
  destruct Ha as (ta & Ha & ->). destruct Hb as (tb & Hb & ->).
  constructor. unfold TensorOps.add, TensorOps.binop in Ha, Hb.
  destruct Hx as [Hsx Hdx] eqn:Ex. destruct Hy as [Hsy Hdy] eqn:Ey.
  rewrite <- Hsx, <- Hsy in Hb.
  destruct (TensorOps.broadcast_shape (shape x) (shape y)) as [s|]; [|discriminate].
  injection Ha as <-. injection Hb as <-.
  split; [reflexivity|]. simpl.
  induction (TensorOps.indices s) as [|idx l IH]; simpl; constructor; [|exact IH].
  apply Rplus_le_compat; apply tle_bget; split; assumption.
Qed.

End Functions.

(** ** Combining three sources *)

Module CombineExamples.
Import Examples.

Open Scope R_scope.

Definition A : object := IntervalBoundsObj (Tensor (scalar 1)) (Tensor (scalar 2)).
Definition B : object := IntervalBoundsObj (Tensor (scalar 3)) (Tensor (scalar 4)).
Definition C : object := IntervalBoundsObj (Tensor (scalar 5)) (Tensor (scalar 6)).

Definition AB : object :=
  IntervalBoundsObj (Tuple [Tensor (scalar 1); Tensor (scalar 3)])
                    (Tuple [Tensor (scalar 2); Tensor (scalar 4)]).

Definition ABC : object :=
  IntervalBoundsObj (Tuple [Tensor (scalar 1); Tensor (scalar 3); Tensor (scalar 5)])
                    (Tuple [Tensor (scalar 2); Tensor (scalar 4); Tensor (scalar 6)]).

(** [A.combine_with(B).combine_with(C)] on the heap of [A], [B] and [C]. *)
Definition combine_three : M ref :=
  ab <- IntervalBounds.combine_with 0%nat 1%nat ;;
  IntervalBounds.combine_with ab 2%nat.

End CombineExamples.

(** ** The singleton guard *)

Module Guard.

(** The error of [_ensure_singleton]. *)
Definition multiple_inputs : exn := ValueError "Cannot proceed with multiple inputs.".

Lemma ensure_singleton_raise l u :
  is_tuple l || is_tuple u = true ->
  Pure.ensure_singleton l u = Raise multiple_inputs.
Proof. unfold Pure.ensure_singleton. now intros ->. Qed.

Lemma combine_raise sl su bl bu :
  is_tuple bl || is_tuple bu = true ->
  Pure.combine sl su bl bu = Raise multiple_inputs.
Proof.
  intros H. unfold Pure.combine. now rewrite (ensure_singleton_raise _ _ H).
Qed.

(** [combine_with] tests its operand before it reads the receiver. *)
Lemma run_combine_with_multi s self bounds l u :
  nth_error (heap s) bounds = Some (IntervalBoundsObj l u) ->
  is_tuple l || is_tuple u = true ->
  IntervalBounds.combine_with self bounds s = (Raise multiple_inputs, s).
Proof.
  intros Hb Ht. unfold IntervalBounds.combine_with.
  rewrite (Run.bind_reads _ (Run.reads_isinstance Hb)). simpl.
  rewrite (Run.bind_reads _ (Run.reads_ensure_singleton Hb)).
  now rewrite (ensure_singleton_raise _ _ Ht).
Qed.

End Guard.

(** ** Unsupported layers *)

Module Unsupported.
Import verifiable_wrapper.

(** The wrapper is of one of the five classes [propagate_through] knows. *)
Definition known (wrapper : VerifiableWrapper) : bool :=
  match wrapper with
  | OtherWrapper _ => false
  | _ => true
  end.

(** The name by which a default handler reports the layer. *)
Definition layer_kind (wrapper : VerifiableWrapper) : string :=
  match wrapper with
  | LinearFCWrapper _ => "snt.Linear"
  | LinearConv2dWrapper _ => "snt.Conv2D"
  | MonotonicWrapper fn => __name__ fn
  | BatchNormWrapper _ => "ibp.BatchNorm"
  | BatchFlattenWrapper => "snt.BatchFlatten"
  | OtherWrapper c => c
  end.

Definition is_some {A} (o : option A) : bool :=
  match o with Some _ => true | None => false end.

(** The class defines the handler of the wrapper's layer itself. *)
Definition defines (cls : AbstractBounds.class) (wrapper : VerifiableWrapper) : bool :=
  match wrapper with
  | LinearFCWrapper _ => is_some (AbstractBounds.def_linear cls)
  | LinearConv2dWrapper _ => is_some (AbstractBounds.def_conv2d cls)
  | MonotonicWrapper _ => is_some (AbstractBounds.def_monotonic_fn cls)
  | BatchNormWrapper _ => is_some (AbstractBounds.def_batch_norm cls)
  | BatchFlattenWrapper => is_some (AbstractBounds.def_batch_flatten cls)
  | OtherWrapper _ => false
  end.

Definition class_of (o : object) : string :=
  match o with
  | IntervalBoundsObj _ _ => "IntervalBounds"
  | ForeignObj c _ => c
  end.

Definition not_supported_by (kind cls : string) : exn :=
  NotImplementedError
    (kind ++ " modules are not supported by " ++ dquote ++ cls ++ dquote ++ ".").

Lemma reads_class_of s self o :
  nth_error (heap s) self = Some o ->
  Run.reads (class_name_of self) s (Ok (class_of o)).
Proof.
  intros H. unfold Run.reads, class_name_of, bind, deref. rewrite H.
  now destruct o.
Qed.

Lemma run_raise_not_implemented s self o name :
  nth_error (heap s) self = Some o ->
  @AbstractBounds._raise_not_implemented ref self name s
  = (Raise (not_supported_by name (class_of o)), s).
Proof.
  intros H. unfold AbstractBounds._raise_not_implemented.
  now rewrite (Run.bind_reads _ (@reads_class_of _ _ _ H)).
Qed.

(** [IntervalBounds] defines every handler. *)
Lemma interval_bounds_defines wrapper :
  known wrapper = true -> defines IntervalBounds.cls wrapper = true.
Proof. now destruct wrapper. Qed.

(** A class that defines no handler. *)
Definition bare : AbstractBounds.class :=
  AbstractBounds.mkClass None None None None None.

End Unsupported.

(** ** Flattening *)

Module Flatten.
Import TensorOps TensorFacts.

Lemma batch_flatten_2d x b f :
  shape x = [b; f] -> batch_flatten x = Ok x.
Proof.
  intros H. unfold batch_flatten. rewrite H. simpl. rewrite Nat.mul_1_r.
  destruct x as [sh d]. simpl in H. now subst.
Qed.

Lemma flatten_tensor_ok x y :
  batch_flatten x = Ok y -> snt.BatchFlatten (Tensor x) = Ok (Tensor y).
Proof. unfold snt.BatchFlatten. simpl. now intros ->. Qed.

(** Flattening is a reindexing: the element at [i :: idx] is found in row
    [i] at the row-major position of [idx] among the merged dimensions. *)
Lemma get_flatten x b rest i idx :
  shape x = b :: rest -> length idx = length rest ->
  get (mkTensor [b; size rest] (data x)) [i; offset rest idx 0] = get x (i :: idx).
Proof.
  intros Hs Hl. unfold get. rewrite Hs. simpl.
  now rewrite (offset_acc rest idx i Hl).
Qed.

End Flatten.

(** ** Operations do not mutate *)

Module Frame.
Import Run.

(** Every object of [s] is still there, with the same attributes, in [s']. *)
Definition unchanged (s s' : state) : Prop :=
  forall a o, nth_error (heap s) a = Some o -> nth_error (heap s') a = Some o.

(** [r] is the address of an [IntervalBounds] of [s'] that did not exist in
    [s], and the only new object. *)
Definition fresh_bounds (s s' : state) (r : ref) : Prop :=
  nth_error (heap s) r = None /\
  length (heap s') = S (length (heap s)) /\
  exists lo up, nth_error (heap s') r = Some (IntervalBoundsObj lo up).

(** The outcome of an operation that does not mutate: the objects of [s] are
    unchanged; a returned reference is to a new [IntervalBounds]; an exception
    leaves the heap as it was. *)
Definition pure_step (s : state) (out : result ref * state) : Prop :=
  unchanged s (snd out) /\
  match fst out with
  | Ok r => fresh_bounds s (snd out) r
  | Raise _ => heap (snd out) = heap s
  end.

Lemma unchanged_refl s : unchanged s s.
Proof. now intros a o H. Qed.

Lemma unchanged_app s s' o :
  heap s' = (heap s ++ [o])%list -> unchanged s s'.
Proof.
  intros H a o' Ha. rewrite H. rewrite nth_error_app1; [exact Ha|].
  apply nth_error_Some. congruence.
Qed.

Lemma raise_pure s e : pure_step s (Raise e, s).
Proof. split; [apply unchanged_refl | reflexivity]. Qed.

Lemma alloc_pure s res : pure_step s (alloc s res).
Proof.
  destruct res as [[lo up]|e]; simpl; [|apply raise_pure].
  split; cbn [fst snd heap].
  - now apply unchanged_app with (IntervalBoundsObj lo up).
  - split; [now apply nth_error_None|]. split.
    + cbn [heap]. rewrite length_app. simpl. lia.
    + exists lo, up. apply Invariant.nth_error_new.
Qed.

(** The log of calls is not part of the heap. *)
Lemma logged_pure s cs out :
  pure_step (logged s cs) out -> pure_step s out.
Proof. exact (fun H => H). Qed.

Lemma call_twice_pure s fn largs uargs : pure_step s (call_twice s fn largs uargs).
Proof.
  unfold call_twice.
  destruct (apply fn largs); [|apply (@logged_pure s _ _ (raise_pure _ _))].
  destruct (apply fn uargs); [|apply (@logged_pure s _ _ (raise_pure _ _))].
  apply (@logged_pure s _ _ (alloc_pure _ _)).
Qed.

Lemma monotonic_fn_pure s l u fn : pure_step s (monotonic_fn s l u fn).
Proof.
  unfold monotonic_fn.
  destruct l, u; try apply call_twice_pure; apply raise_pure.
Qed.

Lemma combine_with_pure s self bounds l u :
  nth_error (heap s) self = Some (IntervalBoundsObj l u) ->
  pure_step s (IntervalBounds.combine_with self bounds s).
Proof.
  intros Hself.
  destruct (nth_error (heap s) bounds) as [[bl bu|c t]|] eqn:Hb.
  - rewrite (run_combine_with Hself Hb). apply alloc_pure.
  - unfold IntervalBounds.combine_with, IntervalBounds.isinstance, format,
      bind, deref, raise. rewrite Hb. simpl. rewrite Hb. apply raise_pure.
  - unfold IntervalBounds.combine_with, IntervalBounds.isinstance, bind, deref.
    rewrite Hb. apply raise_pure.
Qed.

End Frame.

(** * The properties of bound propagation *)



(** C2.  [_linear] on a singleton interval returns
    [[c.w + b - r.|w|, c.w + b + r.|w|]] with [c = (lower + upper) / 2] and
    [r = (upper - lower) / 2]: for an [m x k] interval, a [k x n] weight
    matrix and a bias of length [n] (or none), the element in row [i] and
    column [j] of the new lower bound is the sum over [k] of centre times
    weight, plus the bias, minus the sum over [k] of radius times absolute
    weight, and that of the new upper bound the same with the last sum
    added.  For a 1 x 1 layer with [w = 2], [b = 1] and the input [[1, 3]]
    the result is [[3, 7]]; with [w = -2], [b = 0] it is [[-6, -2]], whose
    lower bound is below its upper bound. *)
Theorem linear_center_radius :
  (forall s self l u w b m k n,
      nth_error (heap s) self = Some (IntervalBoundsObj (Tensor l) (Tensor u)) ->
      shape l = [m; k] -> shape u = [m; k] -> shape w = [k; n] ->
      Affine.bias_shape b n ->
      exists lo up,
        IntervalBounds._linear self w b s
        = Run.allocated s (Tensor lo) (Tensor up) /\
        shape lo = [m; n] /\ shape up = [m; n] /\
        forall i j, i < m -> j < n ->
          (TensorOps.get lo [i; j]
           = Elements.dot (Affine.center_at l u i) (fun kk => TensorOps.get w [kk; j]) k
             + Affine.bias_at b j
             - Elements.dot (Affine.radius_at l u i)
                 (fun kk => Rabs (TensorOps.get w [kk; j])) k)%R
          /\
          (TensorOps.get up [i; j]
           = Elements.dot (Affine.center_at l u i) (fun kk => TensorOps.get w [kk; j]) k
             + Affine.bias_at b j
             + Elements.dot (Affine.radius_at l u i)
                 (fun kk => Rabs (TensorOps.get w [kk; j])) k)%R) /\
  (forall s self,
      nth_error (heap s) self
      = Some (IntervalBoundsObj (Tensor (Examples.matrix11 1)) (Tensor (Examples.matrix11 3))) ->
      IntervalBounds._linear self (Examples.matrix11 2) (Some (Examples.vector1 1)) s
      = Run.allocated s (Tensor (Examples.matrix11 3)) (Tensor (Examples.matrix11 7))) /\
  (forall s self,
      nth_error (heap s) self
      = Some (IntervalBoundsObj (Tensor (Examples.matrix11 1)) (Tensor (Examples.matrix11 3))) ->
      IntervalBounds._linear self (Examples.matrix11 (-2)) (Some (Examples.vector1 0)) s
      = Run.allocated s (Tensor (Examples.matrix11 (-6)))
                           (Tensor (Examples.matrix11 (-2))) /\
      Order.tle (Examples.matrix11 (-6)) (Examples.matrix11 (-2))).
Proof.
  split; [|split].
  - intros s self l u w b m k n Hself Hl Hu Hw Hb.
    destruct (@Affine.linear_elems l u w b m k n Hl Hu Hw Hb) as (lo & up & Hrun & Hlo & Hup & Hij).
    exists lo, up. rewrite (Run.run_linear Hself w b), Hrun.
    repeat split; try assumption; now apply Hij.
  - intros s self Hself.
    now rewrite (Run.run_linear Hself _ _), Examples.linear_2_1.
  - intros s self Hself. split.
    + now rewrite (Run.run_linear Hself _ _), Examples.linear_m2_0.
    + split; [reflexivity|]. repeat constructor. simpl. lra.
Qed.

(** The two 1 x 1 layers on the heap that holds only the interval [[1, 3]]. *)
Lemma linear_center_radius_witness :
  let s := Examples.interval (Tensor (Examples.matrix11 1)) (Tensor (Examples.matrix11 3)) in
  IntervalBounds._linear 0 (Examples.matrix11 2) (Some (Examples.vector1 1)) s
  = Run.allocated s (Tensor (Examples.matrix11 3)) (Tensor (Examples.matrix11 7)) /\
  IntervalBounds._linear 0 (Examples.matrix11 (-2)) (Some (Examples.vector1 0)) s
  = Run.allocated s (Tensor (Examples.matrix11 (-6))) (Tensor (Examples.matrix11 (-2))).
Proof.
  intros s. destruct linear_center_radius as (_ & H1 & H2). split.
  - apply (H1 s 0%nat). reflexivity.
  - apply (H2 s 0%nat). reflexivity.
Defined.

(** C3.  [_batch_norm] folds mean, variance, scale, bias and epsilon into an
    affine transform: for feature [j] the multiplier is
    [1 / sqrt (variance + epsilon)], times the scale when there is one, and
    the bias term is [- multiplier * mean], plus the bias when there is one;
    the centre of the interval is multiplied by the multiplier and shifted by
    the bias term, the radius is multiplied by the absolute multiplier, and
    the new bounds are centre minus radius and centre plus radius.  With
    mean 0, variance 3, epsilon 1, scale 2, bias 0 the interval [[1, 3]] is
    returned as [[1, 3]]. *)
Theorem batch_norm_affine_fold :
  (forall s self l u mean variance scale bias epsilon m n,
      nth_error (heap s) self = Some (IntervalBoundsObj (Tensor l) (Tensor u)) ->
      shape l = [m; n] -> shape u = [m; n] ->
      shape mean = [1; n] -> shape variance = [1; n] ->
      BatchNormFacts.param_shape scale n -> BatchNormFacts.param_shape bias n ->
      exists lo up,
        IntervalBounds._batch_norm self mean variance scale bias epsilon s
        = Run.allocated s (Tensor lo) (Tensor up) /\
        shape lo = [m; n] /\ shape up = [m; n] /\
        forall i j, i < m -> j < n ->
          let mult := BatchNormFacts.multiplier_at variance scale epsilon j in
          (TensorOps.get lo [i; j]
           = Affine.center_at l u i j * mult
             + BatchNormFacts.bias_term_at mult mean bias j
             - Affine.radius_at l u i j * Rabs mult)%R
          /\
          (TensorOps.get up [i; j]
           = Affine.center_at l u i j * mult
             + BatchNormFacts.bias_term_at mult mean bias j
             + Affine.radius_at l u i j * Rabs mult)%R) /\
  (forall s self,
      nth_error (heap s) self
      = Some (IntervalBoundsObj (Tensor (Examples.matrix11 1)) (Tensor (Examples.matrix11 3))) ->
      IntervalBounds._batch_norm self (Examples.matrix11 0) (Examples.matrix11 3)
        (Some (Examples.matrix11 2)) (Some (Examples.matrix11 0)) 1 s
      = Run.allocated s (Tensor (Examples.matrix11 1)) (Tensor (Examples.matrix11 3))).
Proof.
  split.
  - intros s self l u mean variance scale bias epsilon m n Hself Hl Hu Hm Hv Hs Hb.
    destruct (@BatchNormFacts.batch_norm_elems l u mean variance scale bias epsilon m n
                Hl Hu Hm Hv Hs Hb)
      as (lo & up & Hrun & Hlo & Hup & Hij).
    exists lo, up. rewrite (Run.run_batch_norm Hself _ _ _ _ _), Hrun.
    repeat split; try assumption; now apply Hij.
  - intros s self Hself.
    now rewrite (Run.run_batch_norm Hself _ _ _ _ _), BatchNormExamples.batch_norm_identity.
Qed.

(** The identity case on the heap that holds only the interval [[1, 3]]. *)
Lemma batch_norm_affine_fold_witness :
  let s := Examples.interval (Tensor (Examples.matrix11 1)) (Tensor (Examples.matrix11 3)) in
  IntervalBounds._batch_norm 0 (Examples.matrix11 0) (Examples.matrix11 3)
    (Some (Examples.matrix11 2)) (Some (Examples.matrix11 0)) 1 s
  = Run.allocated s (Tensor (Examples.matrix11 1)) (Tensor (Examples.matrix11 3)).
Proof.
  intros s. apply (proj2 batch_norm_affine_fold s 0). reflexivity.
Defined.

(** C4.  [combine_with] of a singleton receiver and a singleton operand
    returns new bounds whose lower bound is the pair of the two lower bounds
    and whose upper bound is the pair of the two upper bounds.  When the
    bounds of the receiver are tuples of length [k] it returns tuples of
    length [k + 1]: those of the receiver, in their order, followed by the
    bound of the operand.  Combining [A] (lower 1, upper 2) with [B]
    (lower 3, upper 4) gives lower [(1, 3)] and upper [(2, 4)], and combining
    the result with [C] gives tuples of length 3 in the order [A], [B],
    [C]. *)
Theorem combine_with_appends :
  (forall s self bounds sl su bl bu,
      nth_error (heap s) self = Some (IntervalBoundsObj (Tensor sl) (Tensor su)) ->
      nth_error (heap s) bounds = Some (IntervalBoundsObj (Tensor bl) (Tensor bu)) ->
      IntervalBounds.combine_with self bounds s
      = Run.allocated s (Tuple [Tensor sl; Tensor bl]) (Tuple [Tensor su; Tensor bu])) /\
  (forall s self bounds ls us bl bu k,
      nth_error (heap s) self = Some (IntervalBoundsObj (Tuple ls) (Tuple us)) ->
      length ls = k -> length us = k ->
      nth_error (heap s) bounds = Some (IntervalBoundsObj (Tensor bl) (Tensor bu)) ->
      IntervalBounds.combine_with self bounds s
      = Run.allocated s (Tuple (ls ++ [Tensor bl])) (Tuple (us ++ [Tensor bu])) /\
      length (ls ++ [Tensor bl]) = k + 1 /\
      length (us ++ [Tensor bu]) = k + 1) /\
  IntervalBounds.combine_with 0 1
    (mkState [CombineExamples.A; CombineExamples.B; CombineExamples.C] [])
  = (Ok 3,
     mkState [CombineExamples.A; CombineExamples.B; CombineExamples.C;
              CombineExamples.AB] []) /\
  CombineExamples.combine_three
    (mkState [CombineExamples.A; CombineExamples.B; CombineExamples.C] [])
  = (Ok 4,
     mkState [CombineExamples.A; CombineExamples.B; CombineExamples.C;
              CombineExamples.AB; CombineExamples.ABC] []).
Proof.
  split; [|split; [|split]].
  - intros s self bounds sl su bl bu Hself Hb.
    now rewrite (Run.run_combine_with Hself Hb).
  - intros s self bounds ls us bl bu k Hself Hl Hu Hb.
    rewrite (Run.run_combine_with Hself Hb).
    rewrite !length_app, Hl, Hu. simpl. repeat split.
  - reflexivity.
  - reflexivity.
Qed.

(** The two steps of the example, each an instance of the general
    statements. *)
Lemma combine_with_appends_witness :
  let s := mkState [CombineExamples.A; CombineExamples.B; CombineExamples.C] [] in
  let s' := mkState [CombineExamples.A; CombineExamples.B; CombineExamples.C;
                     CombineExamples.AB] [] in
  IntervalBounds.combine_with 0 1 s = (Ok 3, s') /\
  IntervalBounds.combine_with 3 2 s'
  = (Ok 4, mkState [CombineExamples.A; CombineExamples.B; CombineExamples.C;
                    CombineExamples.AB; CombineExamples.ABC] []).
Proof.
  intros s s'. destruct combine_with_appends as (H1 & H2 & _). split.
  - exact (@H1 s 0 1 _ _ _ _ eq_refl eq_refl).
  - exact (proj1 (@H2 s' 3 2 _ _ _ _ 2 eq_refl eq_refl eq_refl eq_refl)).
Defined.

(** C5.  On bounds whose lower or upper bound is a tuple, [_linear],
    [_conv2d], [_batch_norm] and [_batch_flatten] raise the error of
    [_ensure_singleton] and leave the state as it is, and [combine_with]
    raises the same error when its operand is such bounds.  [_monotonic_fn]
    and [combine_with] on a multi-source receiver accept tuples: the first
    calls the function on the elements of the tuples, the second returns the
    tuples extended by the bounds of a singleton operand. *)
Theorem singleton_guard :
  (forall s self l u,
      nth_error (heap s) self = Some (IntervalBoundsObj l u) ->
      is_tuple l || is_tuple u = true ->
      (forall w b,
          IntervalBounds._linear self w b s = (Raise Guard.multiple_inputs, s)) /\
      (forall w b padding strides,
          IntervalBounds._conv2d self w b padding strides s
          = (Raise Guard.multiple_inputs, s)) /\
      (forall mean variance scale bias epsilon,
          IntervalBounds._batch_norm self mean variance scale bias epsilon s
          = (Raise Guard.multiple_inputs, s)) /\
      IntervalBounds._batch_flatten self s = (Raise Guard.multiple_inputs, s)) /\
  (forall s self bounds l u,
      nth_error (heap s) bounds = Some (IntervalBoundsObj l u) ->
      is_tuple l || is_tuple u = true ->
      IntervalBounds.combine_with self bounds s = (Raise Guard.multiple_inputs, s)) /\
  (forall s self ls us,
      nth_error (heap s) self = Some (IntervalBoundsObj (Tuple ls) (Tuple us)) ->
      (forall fn,
          IntervalBounds._monotonic_fn self fn s = Run.call_twice s fn ls us) /\
      (forall bounds bl bu,
          nth_error (heap s) bounds = Some (IntervalBoundsObj (Tensor bl) (Tensor bu)) ->
          IntervalBounds.combine_with self bounds s
          = Run.allocated s (Tuple (ls ++ [Tensor bl])) (Tuple (us ++ [Tensor bu])))).
Proof.
  split; [|split].
  - intros s self l u Hself Ht. repeat split; intros.
    + rewrite (Run.run_linear Hself _ _). unfold Pure.linear.
      now rewrite (Guard.ensure_singleton_raise _ _ Ht).
    + rewrite (Run.run_conv2d Hself _ _ _ _). unfold Pure.conv2d.
      now rewrite (Guard.ensure_singleton_raise _ _ Ht).
    + rewrite (Run.run_batch_norm Hself _ _ _ _ _). unfold Pure.batch_norm.
      now rewrite (Guard.ensure_singleton_raise _ _ Ht).
    + rewrite (Run.run_batch_flatten Hself). unfold Pure.batch_flatten.
      now rewrite (Guard.ensure_singleton_raise _ _ Ht).
  - intros s self bounds l u Hb Ht. now apply Guard.run_combine_with_multi with l u.
  - intros s self ls us Hself. split.
    + intros fn. now rewrite (Run.run_monotonic_fn Hself fn).
    + intros bounds bl bu Hb. now rewrite (Run.run_combine_with Hself Hb).
Qed.

(** The multi-source bounds [AB] of the example of [combine_with]: the
    single-source handlers and a [combine_with] with [AB] as operand raise. *)
Lemma singleton_guard_witness :
  let s := mkState [CombineExamples.A; CombineExamples.AB] [] in
  IntervalBounds._linear 1 (Examples.matrix11 2) None s = (Raise Guard.multiple_inputs, s) /\
  IntervalBounds._batch_flatten 1 s = (Raise Guard.multiple_inputs, s) /\
  IntervalBounds.combine_with 0 1 s = (Raise Guard.multiple_inputs, s) /\
  IntervalBounds.combine_with 1 0 s
  = Run.allocated s
      (Tuple [Tensor (Examples.scalar 1); Tensor (Examples.scalar 3); Tensor (Examples.scalar 1)])
      (Tuple [Tensor (Examples.scalar 2); Tensor (Examples.scalar 4); Tensor (Examples.scalar 2)]).
Proof.
  intros s. destruct singleton_guard as (H1 & H2 & H3).
  destruct (@H1 s 1 _ _ eq_refl eq_refl) as (Hlin & _ & _ & Hflat).
  split; [apply Hlin|]. split; [exact Hflat|]. split.
  - exact (@H2 s 0 1 _ _ eq_refl eq_refl).
  - exact (proj2 (@H3 s 1 _ _ eq_refl) 0 _ _ eq_refl).
Defined.

(** C6.  [_monotonic_fn] on multi-source bounds calls the function once on
    the elements of the tuple of lower bounds and once on those of the tuple
    of upper bounds, in this order, and returns new bounds made of the two
    results; on singleton bounds it calls it once on the lower bound and once
    on the upper bound.  The log of calls of the state grows by exactly
    these two calls. *)
Theorem monotonic_fn_calls (s : state) (self : ref) (fn : py_function) (lo up : value) :
  (forall ls us,
      nth_error (heap s) self = Some (IntervalBoundsObj (Tuple ls) (Tuple us)) ->
      apply fn ls = Ok lo -> apply fn us = Ok up ->
      IntervalBounds._monotonic_fn self fn s
      = (Ok (length (heap s)),
         mkState (heap s ++ [IntervalBoundsObj lo up])
                 (calls s ++ [(__name__ fn, ls); (__name__ fn, us)]))) /\
  (forall l u,
      nth_error (heap s) self = Some (IntervalBoundsObj (Tensor l) (Tensor u)) ->
      apply fn [Tensor l] = Ok lo -> apply fn [Tensor u] = Ok up ->
      IntervalBounds._monotonic_fn self fn s
      = (Ok (length (heap s)),
         mkState (heap s ++ [IntervalBoundsObj lo up])
                 (calls s ++ [(__name__ fn, [Tensor l]); (__name__ fn, [Tensor u])]))).
Proof.
  split.
  - intros ls us Hself Hlo Hup.
    rewrite (Run.run_monotonic_fn Hself fn). simpl.
    unfold Run.call_twice. now rewrite Hlo, Hup.
  - intros l u Hself Hlo Hup.
    rewrite (Run.run_monotonic_fn Hself fn). simpl.
    unfold Run.call_twice. now rewrite Hlo, Hup.
Qed.

(** [add] on the two sources [[1, 2]] and [[3, 4]], and [relu] on the
    interval [[-1, 3]]. *)
Lemma monotonic_fn_calls_witness :
  IntervalBounds._monotonic_fn 0 Functions.add
    (Examples.interval (Tuple [Tensor (Examples.scalar 1); Tensor (Examples.scalar 3)])
                       (Tuple [Tensor (Examples.scalar 2); Tensor (Examples.scalar 4)]))
  = (Ok 1,
     mkState [IntervalBoundsObj (Tuple [Tensor (Examples.scalar 1); Tensor (Examples.scalar 3)])
                                (Tuple [Tensor (Examples.scalar 2); Tensor (Examples.scalar 4)]);
              IntervalBoundsObj (Tensor (Examples.scalar (1 + 3)))
                                (Tensor (Examples.scalar (2 + 4)))]
             [("add", [Tensor (Examples.scalar 1); Tensor (Examples.scalar 3)]);
              ("add", [Tensor (Examples.scalar 2); Tensor (Examples.scalar 4)])]) /\
  IntervalBounds._monotonic_fn 0 Functions.relu
    (Examples.interval (Tensor (Examples.scalar (-1))) (Tensor (Examples.scalar 3)))
  = (Ok 1,
     mkState [IntervalBoundsObj (Tensor (Examples.scalar (-1))) (Tensor (Examples.scalar 3));
              IntervalBoundsObj (Tensor (Examples.scalar (Rmax 0 (-1))))
                                (Tensor (Examples.scalar (Rmax 0 3)))]
             [("relu", [Tensor (Examples.scalar (-1))]);
              ("relu", [Tensor (Examples.scalar 3)])]).
Proof.
  split.
  - exact (proj1 (@monotonic_fn_calls
                    (Examples.interval
                       (Tuple [Tensor (Examples.scalar 1); Tensor (Examples.scalar 3)])
                       (Tuple [Tensor (Examples.scalar 2); Tensor (Examples.scalar 4)]))
                    0 Functions.add
                    (Tensor (Examples.scalar (1 + 3))) (Tensor (Examples.scalar (2 + 4))))
                 _ _ eq_refl eq_refl eq_refl).
  - exact (proj2 (@monotonic_fn_calls
                    (Examples.interval (Tensor (Examples.scalar (-1)))
                                       (Tensor (Examples.scalar 3)))
                    0 Functions.relu
                    (Tensor (Examples.scalar (Rmax 0 (-1))))
                    (Tensor (Examples.scalar (Rmax 0 3))))
                 _ _ eq_refl eq_refl eq_refl).
Defined.

(** C7.  [propagate_through] raises [NotImplementedError] with the name of
    the wrapper's class for every wrapper that is of none of the five known
    classes; and for a wrapper of a known class, when the class of the
    receiver does not define the handler of that layer, it raises
    [NotImplementedError] with the name of the layer and the name of the
    class of the receiver. *)
Theorem propagate_through_unsupported :
  (forall classes s self c,
      AbstractBounds.propagate_through classes self (verifiable_wrapper.OtherWrapper c) s
      = (Raise (NotImplementedError (c ++ " not supported.")), s)) /\
  (forall classes s self o wrapper,
      Unsupported.known wrapper = true ->
      nth_error (heap s) self = Some o ->
      Unsupported.defines (classes (Unsupported.class_of o)) wrapper = false ->
      AbstractBounds.propagate_through classes self wrapper s
      = (Raise (Unsupported.not_supported_by (Unsupported.layer_kind wrapper)
                                             (Unsupported.class_of o)), s)).
Proof.
  split; [reflexivity|].
  intros classes s self o wrapper Hk Hself Hdef.
  pose proof (@Unsupported.reads_class_of _ _ _ Hself) as Hc.
  unfold AbstractBounds.propagate_through.
  destruct wrapper as [m|m|m|m| |c]; simpl in *; try discriminate.
  - assert (Hb : Run.reads (if snt.Linear.has_bias m
                            then x <- lift (snt.Linear.b m) ;; ret (Some x)
                            else ret None) s (Ok (snt.Linear.bias m))).
    { unfold snt.Linear.has_bias, snt.Linear.b. now destruct (snt.Linear.bias m). }
    rewrite (Run.bind_reads _ Hb), (Run.bind_reads _ (Dispatch.reads_method _ _ _ Hc)).
    destruct (AbstractBounds.def_linear _); [discriminate|].
    apply (@Unsupported.run_raise_not_implemented _ _ _ _ Hself).
  - assert (Hb : Run.reads (if snt.Conv2D.has_bias m
                            then x <- lift (snt.Conv2D.b m) ;; ret (Some x)
                            else ret None) s (Ok (snt.Conv2D.bias m))).
    { unfold snt.Conv2D.has_bias, snt.Conv2D.b. now destruct (snt.Conv2D.bias m). }
    rewrite (Run.bind_reads _ Hb), (Run.bind_reads _ (Dispatch.reads_method _ _ _ Hc)).
    destruct (AbstractBounds.def_conv2d _); [discriminate|].
    apply (@Unsupported.run_raise_not_implemented _ _ _ _ Hself).
  - rewrite (Run.bind_reads _ (Dispatch.reads_method _ _ _ Hc)).
    destruct (AbstractBounds.def_monotonic_fn _); [discriminate|].
    apply (@Unsupported.run_raise_not_implemented _ _ _ _ Hself).
  - rewrite (Run.bind_reads _ (Dispatch.reads_method _ _ _ Hc)).
    destruct (AbstractBounds.def_batch_norm _); [discriminate|].
    apply (@Unsupported.run_raise_not_implemented _ _ _ _ Hself).
  - rewrite (Run.bind_reads _ (Dispatch.reads_method _ _ _ Hc)).
    destruct (AbstractBounds.def_batch_flatten _); [discriminate|].
    apply (@Unsupported.run_raise_not_implemented _ _ _ _ Hself).
Qed.

(** A linear layer and [relu] on bounds of a class [SymbolicBounds] that
    defines no handler, in a program with [IntervalBounds]. *)
Lemma propagate_through_unsupported_witness :
  let s := mkState [ForeignObj "SymbolicBounds" "<SymbolicBounds object>"] [] in
  propagate_through (fun _ => Unsupported.bare) 0
    (verifiable_wrapper.LinearFCWrapper (snt.Linear.mk (Examples.matrix11 2) None)) s
  = (Raise (NotImplementedError
              ("snt.Linear modules are not supported by "
               ++ dquote ++ "SymbolicBounds" ++ dquote ++ ".")), s) /\
  propagate_through (fun _ => Unsupported.bare) 0
    (verifiable_wrapper.MonotonicWrapper Functions.relu) s
  = (Raise (NotImplementedError
              ("relu modules are not supported by "
               ++ dquote ++ "SymbolicBounds" ++ dquote ++ ".")), s).
Proof.
  intros s. split.
  - exact (proj2 propagate_through_unsupported (classes (fun _ => Unsupported.bare)) s 0 _
             (verifiable_wrapper.LinearFCWrapper (snt.Linear.mk (Examples.matrix11 2) None))
             eq_refl eq_refl eq_refl).
  - exact (proj2 propagate_through_unsupported (classes (fun _ => Unsupported.bare)) s 0 _
             (verifiable_wrapper.MonotonicWrapper Functions.relu)
             eq_refl eq_refl eq_refl).
Defined.

(** C8.  [_batch_flatten] reshapes the lower and the upper bound, each on
    its own, to batch x features: the batch dimension is kept, the others
    are merged, and the elements are the same in the same row-major order,
    so that the element at an index is found at the flattened index.  On
    bounds that are already two-dimensional it returns bounds with the very
    same lower and upper tensors, and so does flattening the result again. *)
Theorem batch_flatten_reshapes :
  (forall s self l u b rest b' rest',
      nth_error (heap s) self = Some (IntervalBoundsObj (Tensor l) (Tensor u)) ->
      shape l = b :: rest -> shape u = b' :: rest' ->
      IntervalBounds._batch_flatten self s
      = Run.allocated s
          (Tensor (mkTensor [b; TensorOps.size rest] (data l)))
          (Tensor (mkTensor [b'; TensorOps.size rest'] (data u))) /\
      (forall i idx, length idx = length rest ->
          TensorOps.get (mkTensor [b; TensorOps.size rest] (data l))
                        [i; TensorOps.offset rest idx 0]
          = TensorOps.get l (i :: idx)) /\
      (forall i idx, length idx = length rest' ->
          TensorOps.get (mkTensor [b'; TensorOps.size rest'] (data u))
                        [i; TensorOps.offset rest' idx 0]
          = TensorOps.get u (i :: idx))) /\
  (forall s self l u b f b' f',
      nth_error (heap s) self = Some (IntervalBoundsObj (Tensor l) (Tensor u)) ->
      shape l = [b; f] -> shape u = [b'; f'] ->
      IntervalBounds._batch_flatten self s
      = Run.allocated s (Tensor l) (Tensor u)) /\
  (forall s self l u r s',
      nth_error (heap s) self = Some (IntervalBoundsObj l u) ->
      IntervalBounds._batch_flatten self s = (Ok r, s') ->
      exists lo up,
        nth_error (heap s') r = Some (IntervalBoundsObj lo up) /\
        IntervalBounds._batch_flatten r s' = Run.allocated s' lo up).
Proof.
  split; [|split].
  - intros s self l u b rest b' rest' Hself Hl Hu. split; [|split].
    + rewrite (Run.run_batch_flatten Hself). unfold Pure.batch_flatten. simpl.
      unfold snt.BatchFlatten, TensorOps.batch_flatten. simpl.
      now rewrite Hl, Hu.
    + intros i idx Hi. now apply Flatten.get_flatten.
    + intros i idx Hi. now apply Flatten.get_flatten.
  - intros s self l u b f b' f' Hself Hl Hu.
    rewrite (Run.run_batch_flatten Hself).
    unfold Pure.batch_flatten, Pure.ensure_singleton. cbn [is_tuple orb rbind].
    rewrite (@Flatten.flatten_tensor_ok _ _ (@Flatten.batch_flatten_2d l b f Hl)).
    cbn [rbind].
    now rewrite (@Flatten.flatten_tensor_ok _ _ (@Flatten.batch_flatten_2d u b' f' Hu)).
  - intros s self l u r s' Hself H.
    rewrite (Run.run_batch_flatten Hself) in H.
    apply Invariant.alloc_ok in H. destruct H as (lo & up & Hp & -> & ->).
    exists lo, up. split; [apply Invariant.nth_error_new|].
    assert (Hr : nth_error (heap (mkState (heap s ++ [IntervalBoundsObj lo up]) (calls s)))
                           (length (heap s)) = Some (IntervalBoundsObj lo up))
      by apply Invariant.nth_error_new.
    rewrite (Run.run_batch_flatten Hr).
    unfold Pure.batch_flatten in Hp.
    apply Inversion.rbind_ok in Hp. destruct Hp as (e & He & Hp).
    apply Inversion.ensure_singleton_ok in He. destruct He as (x & y & -> & ->).
    apply Inversion.rbind_ok in Hp. destruct Hp as (a & Ha & Hp).
    apply Inversion.rbind_ok in Hp. destruct Hp as (c & Hc & [= <- <-]).
    apply Invariant.flatten_tensor in Ha, Hc.
    destruct Ha as (ta & -> & Ha). destruct Hc as (tc & -> & Hc).
    unfold TensorOps.batch_flatten in Ha, Hc.
    destruct (shape x) as [|bx rx] eqn:Ex; [discriminate|].
    destruct (shape y) as [|by' ry] eqn:Ey; [discriminate|].
    injection Ha as <-. injection Hc as <-.
    unfold Pure.batch_flatten, Pure.ensure_singleton. cbn [is_tuple orb rbind].
    rewrite (@Flatten.flatten_tensor_ok _ _
               (@Flatten.batch_flatten_2d (mkTensor [bx; TensorOps.size rx] (data x))
                  bx (TensorOps.size rx) eq_refl)).
    cbn [rbind].
    now rewrite (@Flatten.flatten_tensor_ok _ _
                   (@Flatten.batch_flatten_2d (mkTensor [by'; TensorOps.size ry] (data y))
                      by' (TensorOps.size ry) eq_refl)).
Qed.

(** A 2 x 2 interval, already flat, and a 1 x 1 x 2 interval. *)
Lemma batch_flatten_reshapes_witness :
  let l := mkTensor [2; 2] [1; 2; 3; 4]%R in
  let u := mkTensor [2; 2] [5; 6; 7; 8]%R in
  let l3 := mkTensor [1; 1; 2] [1; 2]%R in
  let u3 := mkTensor [1; 1; 2] [3; 4]%R in
  IntervalBounds._batch_flatten 0 (Examples.interval (Tensor l) (Tensor u))
  = Run.allocated (Examples.interval (Tensor l) (Tensor u)) (Tensor l) (Tensor u) /\
  IntervalBounds._batch_flatten 0 (Examples.interval (Tensor l3) (Tensor u3))
  = Run.allocated (Examples.interval (Tensor l3) (Tensor u3))
      (Tensor (mkTensor [1; 2] [1; 2]%R)) (Tensor (mkTensor [1; 2] [3; 4]%R)).
Proof.
  intros l u l3 u3. destruct batch_flatten_reshapes as (H1 & H2 & _). split.
  - exact (@H2 (Examples.interval (Tensor l) (Tensor u)) 0 l u 2 2 2 2
             eq_refl eq_refl eq_refl).
  - exact (proj1 (@H1 (Examples.interval (Tensor l3) (Tensor u3)) 0 l3 u3 1 [1; 2] 1 [1; 2]
                    eq_refl eq_refl eq_refl)).
Defined.

(** C9.  No operation of an [IntervalBounds] mutates existing bounds: after
    each of [_linear], [_conv2d], [_monotonic_fn], [_batch_norm],
    [_batch_flatten], [propagate_through] and [combine_with], every object
    that was in the heap, the receiver and the operand among them, is there
    with the same lower and upper bound; the reference returned is to an
    [IntervalBounds] that did not exist before, and an exception leaves the
    heap as it was. *)
Theorem operations_do_not_mutate (s : state) (self : ref) (l u : value) :
  nth_error (heap s) self = Some (IntervalBoundsObj l u) ->
  (forall w b, Frame.pure_step s (IntervalBounds._linear self w b s)) /\
  (forall w b padding strides,
      Frame.pure_step s (IntervalBounds._conv2d self w b padding strides s)) /\
  (forall fn, Frame.pure_step s (IntervalBounds._monotonic_fn self fn s)) /\
  (forall mean variance scale bias epsilon,
      Frame.pure_step s
        (IntervalBounds._batch_norm self mean variance scale bias epsilon s)) /\
  Frame.pure_step s (IntervalBounds._batch_flatten self s) /\
  (forall others wrapper,
      Frame.pure_step s (propagate_through others self wrapper s)) /\
  (forall bounds, Frame.pure_step s (IntervalBounds.combine_with self bounds s)).
Proof.
  intros Hself.
  assert (Hlin : forall w b, Frame.pure_step s (IntervalBounds._linear self w b s)).
  { intros. rewrite (Run.run_linear Hself _ _). apply Frame.alloc_pure. }
  assert (Hconv : forall w b padding strides,
             Frame.pure_step s (IntervalBounds._conv2d self w b padding strides s)).
  { intros. rewrite (Run.run_conv2d Hself _ _ _ _). apply Frame.alloc_pure. }
  assert (Hfn : forall fn, Frame.pure_step s (IntervalBounds._monotonic_fn self fn s)).
  { intros. rewrite (Run.run_monotonic_fn Hself _). apply Frame.monotonic_fn_pure. }
  assert (Hbn : forall mean variance scale bias epsilon,
             Frame.pure_step s
               (IntervalBounds._batch_norm self mean variance scale bias epsilon s)).
  { intros. rewrite (Run.run_batch_norm Hself _ _ _ _ _). apply Frame.alloc_pure. }
  assert (Hfl : Frame.pure_step s (IntervalBounds._batch_flatten self s)).
  { rewrite (Run.run_batch_flatten Hself). apply Frame.alloc_pure. }
  assert (Hpt : forall others wrapper,
             Frame.pure_step s (propagate_through others self wrapper s)).
  { intros. rewrite (@Dispatch.run_propagate_through others s self l u wrapper Hself).
    destruct wrapper; simpl; auto. apply Frame.raise_pure. }
  split; [exact Hlin|]. split; [exact Hconv|]. split; [exact Hfn|].
  split; [exact Hbn|]. split; [exact Hfl|]. split; [exact Hpt|].
  intros bounds. exact (@Frame.combine_with_pure s self bounds l u Hself).
Qed.

(** The linear layer of the example, and the interval combined with itself,
    on the heap that holds only the interval [[1, 3]]. *)
Lemma operations_do_not_mutate_witness :
  let s := Examples.interval (Tensor (Examples.matrix11 1)) (Tensor (Examples.matrix11 3)) in
  Frame.pure_step s
    (IntervalBounds._linear 0 (Examples.matrix11 2) (Some (Examples.vector1 1)) s) /\
  Frame.pure_step s (IntervalBounds.combine_with 0 0 s).
Proof.
  intros s.
  destruct (@operations_do_not_mutate s 0 _ _ eq_refl) as (Hlin & _ & _ & _ & _ & _ & Hc).
  split; [apply Hlin | apply Hc].
Defined.

(** C10.  In [_batch_norm] the folded bias [- multiplier * mean (+ bias)]
    loses its leading axis by a squeeze before it is added to the centre,
    and the multiplier is used as it is.  So on a singleton interval the
    propagation raises the error of the squeeze whenever the folded bias has
    no leading axis of size 1, and whenever it returns bounds the folded
    bias had one: the bounds are then the centre/radius rule for the
    multiplier, unsqueezed, and the squeezed bias.  Parameters of shape [2]
    or of rank 0 make it fail; the same parameters with shape [1 x 2]
    do not. *)
Theorem batch_norm_needs_leading_unit_axis :
  (forall s self l u mean variance scale bias epsilon w b,
      nth_error (heap s) self = Some (IntervalBoundsObj (Tensor l) (Tensor u)) ->
      Pure.multiplier variance scale epsilon = Ok w ->
      Pure.folded_bias w mean bias = Ok b ->
      (forall sh, shape b <> 1 :: sh) ->
      IntervalBounds._batch_norm self mean variance scale bias epsilon s
      = (Raise (InvalidArgumentError "squeeze"), s)) /\
  (forall s self l u mean variance scale bias epsilon r s',
      nth_error (heap s) self = Some (IntervalBoundsObj l u) ->
      IntervalBounds._batch_norm self mean variance scale bias epsilon s = (Ok r, s') ->
      exists w b b' lo up,
        Pure.multiplier variance scale epsilon = Ok w /\
        Pure.folded_bias w mean bias = Ok b /\
        shape b = 1 :: shape b' /\ data b' = data b /\
        Squeeze.scale_shift l u w b' = Ok (lo, up) /\
        (Ok r, s') = Run.allocated s lo up) /\
  (forall s self,
      nth_error (heap s) self
      = Some (IntervalBoundsObj (Tensor (BatchNormExamples.matrix12 1 1))
                                (Tensor (BatchNormExamples.matrix12 3 3))) ->
      IntervalBounds._batch_norm self
        (BatchNormExamples.vector2 0 0) (BatchNormExamples.vector2 3 3)
        (Some (BatchNormExamples.vector2 2 2)) (Some (BatchNormExamples.vector2 0 0)) 1 s
      = (Raise (InvalidArgumentError "squeeze"), s) /\
      IntervalBounds._batch_norm self
        (BatchNormExamples.matrix12 0 0) (BatchNormExamples.matrix12 3 3)
        (Some (BatchNormExamples.matrix12 2 2)) (Some (BatchNormExamples.matrix12 0 0)) 1 s
      = Run.allocated s (Tensor (BatchNormExamples.matrix12 1 1))
                           (Tensor (BatchNormExamples.matrix12 3 3))) /\
  (forall s self,
      nth_error (heap s) self
      = Some (IntervalBoundsObj (Tensor (Examples.matrix11 1)) (Tensor (Examples.matrix11 3))) ->
      IntervalBounds._batch_norm self (Examples.scalar 0) (Examples.scalar 3)
        (Some (Examples.scalar 2)) (Some (Examples.scalar 0)) 1 s
      = (Raise (InvalidArgumentError "squeeze"), s)).
Proof.
  split; [|split; [|split]].
  - intros s self l u mean variance scale bias epsilon w b Hself Hw Hb Hs.
    rewrite (Run.run_batch_norm Hself _ _ _ _ _).
    now rewrite (@Squeeze.batch_norm_raise (Tensor l) (Tensor u) mean variance scale bias
                   epsilon w b eq_refl Hw Hb Hs).
  - intros s self l u mean variance scale bias epsilon r s' Hself H.
    rewrite (Run.run_batch_norm Hself _ _ _ _ _) in H.
    destruct (Pure.batch_norm l u mean variance scale bias epsilon)
      as [[lo up]|e] eqn:E; [|discriminate].
    apply Squeeze.batch_norm_ok in E.
    destruct E as (w & b & b' & Hw & Hb & Hs & Hd & Hss).
    exists w, b, b', lo, up. repeat split; try assumption.
    symmetry. exact H.
  - intros s self Hself. split.
    + now rewrite (Run.run_batch_norm Hself _ _ _ _ _),
        BatchNormExamples.batch_norm_vector_parameters.
    + now rewrite (Run.run_batch_norm Hself _ _ _ _ _),
        BatchNormExamples.batch_norm_matrix_parameters.
  - intros s self Hself.
    now rewrite (Run.run_batch_norm Hself _ _ _ _ _),
      BatchNormExamples.batch_norm_scalar_parameters.
Qed.

(** Parameters of shape [2] on the heap that holds only the interval
    [[(1, 1), (3, 3)]]: their folded bias has shape [2]. *)
Lemma batch_norm_needs_leading_unit_axis_witness :
  let s := Examples.interval (Tensor (BatchNormExamples.matrix12 1 1))
                             (Tensor (BatchNormExamples.matrix12 3 3)) in
  (exists w b,
      Pure.multiplier (BatchNormExamples.vector2 3 3)
                      (Some (BatchNormExamples.vector2 2 2)) 1 = Ok w /\
      Pure.folded_bias w (BatchNormExamples.vector2 0 0)
                       (Some (BatchNormExamples.vector2 0 0)) = Ok b /\
      shape b = [2]) /\
  IntervalBounds._batch_norm 0
    (BatchNormExamples.vector2 0 0) (BatchNormExamples.vector2 3 3)
    (Some (BatchNormExamples.vector2 2 2)) (Some (BatchNormExamples.vector2 0 0)) 1 s
  = (Raise (InvalidArgumentError "squeeze"), s).
Proof.
  intros s. split.
  - eexists. eexists. split; [reflexivity|]. split; reflexivity.
  - eapply (proj1 batch_norm_needs_leading_unit_axis s 0).
    + reflexivity.
    + reflexivity.
    + reflexivity.
    + intros sh. simpl. discriminate.
Defined.

(** * Further properties of the handlers *)

(** ** The layers themselves

    What the wrapped modules compute on one input tensor, as Sonnet and the
    tensor library document it: a linear layer is [tf.matmul(x, w) + b] and
    a convolution layer is [tf.nn.convolution(x, w, ...) + b], the bias being
    added when the module has one. *)

Module Layers.

Open Scope result_scope.

Definition linear (x w : tensor) (b : option tensor) : result value :=
  let? y := tf.matmul (Tensor x) w in
  Pure.add_bias y b.

Definition conv2d (x w : tensor) (b : option tensor)
           (padding : TensorOps.padding) (strides : list nat) : result value :=
  let? y := tf.nn.convolution (Tensor x) w padding strides in
  Pure.add_bias y b.

End Layers.

(** ** Sums of products between a centre and a radius *)

Module Between.
Import TensorOps Elements.

Open Scope R_scope.

(** A sum lies around the sum of the centres within the sum of the radii
    when every term does. *)
Lemma Rsum_between {A} (f g h : A -> R) (l : list A) :
  (forall a, In a l -> g a - h a <= f a <= g a + h a) ->
  Rsum (map g l) - Rsum (map h l) <= Rsum (map f l)
  <= Rsum (map g l) + Rsum (map h l).
Proof.
  induction l as [|a l IH]; intros H; simpl; [lra|].
  assert (Ha := H a (or_introl eq_refl)).
  assert (Hl := IH (fun a' Hin => H a' (or_intror Hin))).
  lra.
Qed.

(** The product of a point of [[l, u]] with a weight lies around centre
    times weight within radius times absolute weight. *)
Lemma product_between l u x w :
  l <= x <= u ->
  (l + u) / 2 * w - (u - l) / 2 * Rabs w <= x * w
  <= (l + u) / 2 * w + (u - l) / 2 * Rabs w.
Proof.
  intros H. unfold Rabs. destruct (Rcase_abs w); nra.
Qed.

Lemma dot_between (l u x w : nat -> R) (n : nat) :
  (forall k, (k < n)%nat -> l k <= x k <= u k) ->
  dot (fun k => (l k + u k) / 2) w n - dot (fun k => (u k - l k) / 2) (fun k => Rabs (w k)) n
  <= dot x w n
  <= dot (fun k => (l k + u k) / 2) w n + dot (fun k => (u k - l k) / 2) (fun k => Rabs (w k)) n.
Proof.
  intros H. unfold dot. apply Rsum_between.
  intros k Hk. apply in_seq in Hk. apply product_between. apply H. lia.
Qed.

(** The upper end [c.w + r.|w|] is the product with the end of the interval
    the sign of the weight selects, and so is the lower end. *)
Definition upper_point (l u w : R) : R := if Rle_dec 0 w then u else l.
Definition lower_point (l u w : R) : R := if Rle_dec 0 w then l else u.

Lemma upper_point_in l u w : l <= u -> l <= upper_point l u w <= u.
Proof. intros H. unfold upper_point. destruct (Rle_dec 0 w); lra. Qed.

Lemma lower_point_in l u w : l <= u -> l <= lower_point l u w <= u.
Proof. intros H. unfold lower_point. destruct (Rle_dec 0 w); lra. Qed.

Lemma upper_point_product l u w :
  upper_point l u w * w = (l + u) / 2 * w + (u - l) / 2 * Rabs w.
Proof.
  unfold upper_point, Rabs.
  destruct (Rle_dec 0 w); destruct (Rcase_abs w); try lra; nra.
Qed.

Lemma lower_point_product l u w :
  lower_point l u w * w = (l + u) / 2 * w - (u - l) / 2 * Rabs w.
Proof.
  unfold lower_point, Rabs.
  destruct (Rle_dec 0 w); destruct (Rcase_abs w); try lra; nra.
Qed.

Lemma Rsum_map_ext {A} (f g : A -> R) l :
  (forall a, In a l -> f a = g a) -> Rsum (map f l) = Rsum (map g l).
Proof. intros H. f_equal. now apply map_ext_in. Qed.

Lemma Rsum_map_plus {A} (f g : A -> R) l :
  Rsum (map (fun a => f a + g a) l) = Rsum (map f l) + Rsum (map g l).
Proof. induction l as [|a l IH]; simpl; [lra | rewrite IH; lra]. Qed.

Lemma Rsum_map_minus {A} (f g : A -> R) l :
  Rsum (map (fun a => f a - g a) l) = Rsum (map f l) - Rsum (map g l).
Proof. induction l as [|a l IH]; simpl; [lra | rewrite IH; lra]. Qed.

Lemma Rsum_map_le {A} (f g : A -> R) l :
  (forall a, In a l -> f a <= g a) -> Rsum (map f l) <= Rsum (map g l).
Proof.
  induction l as [|a l IH]; intros H; simpl; [lra|].
  assert (Ha := H a (or_introl eq_refl)).
  assert (Hl := IH (fun a' Hin => H a' (or_intror Hin))).
  lra.
Qed.

End Between.

(** ** Points of an interval *)

Module Box.
Import TensorOps TensorFacts.

Open Scope R_scope.

(** The tensor [x], of shape [s], lies between [l] and [u] at every index
    within [s]. *)
Definition within (l x u : tensor) (s : list nat) : Prop :=
  shape x = s /\ forall idx, valid idx s -> get l idx <= get x idx <= get u idx.

(** The tensor of shape [s] with the element [g idx] at every index. *)
Definition tabulate (s : list nat) (g : list nat -> R) : tensor :=
  mkTensor s (map g (indices s)).

Lemma tabulate_within l u s g :
  (forall idx, valid idx s -> get l idx <= g idx <= get u idx) ->
  within l (tabulate s g) u s.
Proof.
  intros H. split; [reflexivity|].
  intros idx Hv. unfold tabulate. rewrite get_tabulate by assumption. now apply H.
Qed.

End Box.

(** ** The linear handler and the layer it bounds *)

Module LinearFacts.
Import TensorOps TensorFacts Elements Affine Between Box.

Open Scope R_scope.

(** The linear layer on an [m x k] input, element by element. *)
Lemma linear_forward_elems x w b m k n gx :
  has_elems x [m; k] gx -> shape w = [k; n] -> bias_shape b n ->
  exists y, Layers.linear x w b = Ok (Tensor y) /\
            shape y = [m; n] /\
            forall i j, (i < m)%nat -> (j < n)%nat ->
              get y [i; j]
              = dot (fun kk => gx [i; kk]) (fun kk => get w [kk; j]) k + bias_at b j.
Proof.
  intros Hx Hw Hb.
  assert (Hwe : has_elems w [k; n] (get w)) by now split.
  destruct (matmul_elems Hx Hwe) as (xw & Hxw & Hxwe).
  destruct (@add_bias_elems xw b m n _ Hxwe Hb) as (y & Hy & Hye).
  exists y. split; [|split].
  - unfold Layers.linear, tf.matmul. rewrite (lift2_ok TensorOps.matmul _ _ Hxw).
    exact Hy.
  - apply Hye.
  - intros i j Hi Hj. destruct Hye as [_ Hye].
    now rewrite Hye by now apply valid2.
Qed.

Section Interval.

Variables (l u w : tensor) (b : option tensor) (m k n : nat).
Hypothesis Hl : shape l = [m; k].
Hypothesis Hu : shape u = [m; k].
Hypothesis Hw : shape w = [k; n].
Hypothesis Hb : bias_shape b n.

(** Every point of the interval is mapped between the bounds [_linear]
    computes. *)
Lemma linear_sound x :
  within l x u [m; k] ->
  exists lo up y,
    Pure.linear (Tensor l) (Tensor u) w b = Ok (Tensor lo, Tensor up) /\
    Layers.linear x w b = Ok (Tensor y) /\
    shape lo = [m; n] /\ shape up = [m; n] /\
    within lo y up [m; n].
Proof.
  intros [Hx Hin].
  destruct (@linear_elems l u w b m k n Hl Hu Hw Hb) as (lo & up & Hrun & Hlo & Hup & Hij).
  destruct (@linear_forward_elems x w b m k n (get x) (conj Hx (fun idx _ => eq_refl)) Hw Hb)
    as (y & Hy & Hys & Hye).
  exists lo, up, y. repeat split; try assumption.
  - apply valid2_inv in H. destruct H as (i & j & -> & Hi & Hj).
    destruct (Hij i j Hi Hj) as [-> _]. rewrite (Hye i j Hi Hj).
    pose proof (@dot_between (fun kk => get l [i; kk]) (fun kk => get u [i; kk])
                  (fun kk => get x [i; kk]) (fun kk => get w [kk; j]) k
                  (fun kk Hk => Hin [i; kk] (valid2 Hi Hk))) as Hd.
    unfold center_at, radius_at. lra.
  - apply valid2_inv in H. destruct H as (i & j & -> & Hi & Hj).
    destruct (Hij i j Hi Hj) as [_ ->]. rewrite (Hye i j Hi Hj).
    pose proof (@dot_between (fun kk => get l [i; kk]) (fun kk => get u [i; kk])
                  (fun kk => get x [i; kk]) (fun kk => get w [kk; j]) k
                  (fun kk Hk => Hin [i; kk] (valid2 Hi Hk))) as Hd.
    unfold center_at, radius_at. lra.
Qed.

(** The input that attains the upper bounds of column [j], and the one that
    attains its lower bounds. *)
Definition upper_input (j : nat) : tensor :=
  tabulate [m; k]
    (fun idx => match idx with
                | [i; kk] => upper_point (get l [i; kk]) (get u [i; kk]) (get w [kk; j])
                | _ => 0
                end).

Definition lower_input (j : nat) : tensor :=
  tabulate [m; k]
    (fun idx => match idx with
                | [i; kk] => lower_point (get l [i; kk]) (get u [i; kk]) (get w [kk; j])
                | _ => 0
                end).

Hypothesis Hle : forall idx, valid idx [m; k] -> get l idx <= get u idx.

Lemma upper_input_within j : within l (upper_input j) u [m; k].
Proof.
  apply tabulate_within. intros idx Hv. pose proof (Hle Hv) as H.
  apply valid2_inv in Hv. destruct Hv as (i & kk & -> & _ & _).
  now apply upper_point_in.
Qed.

Lemma lower_input_within j : within l (lower_input j) u [m; k].
Proof.
  apply tabulate_within. intros idx Hv. pose proof (Hle Hv) as H.
  apply valid2_inv in Hv. destruct Hv as (i & kk & -> & _ & _).
  now apply lower_point_in.
Qed.

(** The bounds of every column are attained. *)
Lemma tight j :
  (j < n)%nat ->
  exists lo up yl yu,
    Pure.linear (Tensor l) (Tensor u) w b = Ok (Tensor lo, Tensor up) /\
    Layers.linear (lower_input j) w b = Ok (Tensor yl) /\
    Layers.linear (upper_input j) w b = Ok (Tensor yu) /\
    forall i, (i < m)%nat ->
      get yl [i; j] = get lo [i; j] /\ get yu [i; j] = get up [i; j].
Proof.
  intros Hj.
  destruct (@linear_elems l u w b m k n Hl Hu Hw Hb) as (lo & up & Hrun & Hlo & Hup & Hij).
  destruct (@linear_forward_elems (lower_input j) w b m k n _ (tabulate_elems [m; k] _) Hw Hb)
    as (yl & Hyl & _ & Hyle).
  destruct (@linear_forward_elems (upper_input j) w b m k n _ (tabulate_elems [m; k] _) Hw Hb)
    as (yu & Hyu & _ & Hyue).
  exists lo, up, yl, yu. repeat split; try assumption.
  - rewrite (Hyle i j H Hj). destruct (Hij i j H Hj) as [-> _].
    match goal with |- ?a + ?c = ?d + ?c - ?e => cut (a = d - e); [lra|] end.
    unfold dot, center_at, radius_at. rewrite <- Rsum_map_minus.
    apply Rsum_map_ext. intros kk _. apply lower_point_product.
  - rewrite (Hyue i j H Hj). destruct (Hij i j H Hj) as [_ ->].
    match goal with |- ?a + ?c = ?d + ?c + ?e => cut (a = d + e); [lra|] end.
    unfold dot, center_at, radius_at. rewrite <- Rsum_map_plus.
    apply Rsum_map_ext. intros kk _. apply upper_point_product.
Qed.

End Interval.

End LinearFacts.

(** ** Width of the linear bounds, and nested intervals *)

Module LinearWidth.
Import TensorOps TensorFacts Elements Affine Between Box.

Open Scope R_scope.

Section Interval.

Variables (l u w : tensor) (b : option tensor) (m k n : nat).
Hypothesis Hl : shape l = [m; k].
Hypothesis Hu : shape u = [m; k].
Hypothesis Hw : shape w = [k; n].
Hypothesis Hb : bias_shape b n.

(** The width of the bounds is the width of the interval times the absolute
    weights, whatever the bias. *)
Lemma width :
  exists lo up,
    Pure.linear (Tensor l) (Tensor u) w b = Ok (Tensor lo, Tensor up) /\
    forall i j, (i < m)%nat -> (j < n)%nat ->
      get up [i; j] - get lo [i; j]
      = dot (fun kk => get u [i; kk] - get l [i; kk]) (fun kk => Rabs (get w [kk; j])) k.
Proof.
  destruct (@linear_elems l u w b m k n Hl Hu Hw Hb) as (lo & up & Hrun & _ & _ & Hij).
  exists lo, up. split; [exact Hrun|].
  intros i j Hi Hj. destruct (Hij i j Hi Hj) as [-> ->].
  match goal with |- ?c + ?r - (?c - ?r) = ?d => cut (r + r = d); [lra|] end.
  unfold dot, radius_at. rewrite <- Rsum_map_plus.
  apply Rsum_map_ext. intros kk _. lra.
Qed.

(** An interval that is a single point is mapped to the image of the
    point. *)
Lemma point :
  (forall idx, valid idx [m; k] -> get l idx = get u idx) ->
  exists lo up y,
    Pure.linear (Tensor l) (Tensor u) w b = Ok (Tensor lo, Tensor up) /\
    Layers.linear l w b = Ok (Tensor y) /\
    forall i j, (i < m)%nat -> (j < n)%nat ->
      get lo [i; j] = get y [i; j] /\ get up [i; j] = get y [i; j].
Proof.
  intros Heq.
  destruct (@linear_elems l u w b m k n Hl Hu Hw Hb) as (lo & up & Hrun & _ & _ & Hij).
  destruct (@LinearFacts.linear_forward_elems l w b m k n (get l) (conj Hl (fun idx _ => eq_refl)) Hw Hb)
    as (y & Hy & _ & Hye).
  exists lo, up, y. split; [exact Hrun|]. split; [exact Hy|].
  intros i j Hi Hj. destruct (Hij i j Hi Hj) as [-> ->]. rewrite (Hye i j Hi Hj).
  assert (Hc : dot (center_at l u i) (fun kk => get w [kk; j]) k
               = dot (fun kk => get l [i; kk]) (fun kk => get w [kk; j]) k).
  { apply dot_ext; [|reflexivity]. intros kk Hk. unfold center_at.
    rewrite <- (Heq [i; kk] (valid2 Hi Hk)). lra. }
  assert (Hr : dot (radius_at l u i) (fun kk => Rabs (get w [kk; j])) k = 0).
  { unfold dot. rewrite (@Rsum_map_ext _ _ (fun _ => 0) (seq 0 k)).
    - clear. induction (seq 0 k); simpl; lra.
    - intros kk Hk. apply in_seq in Hk. unfold radius_at.
      rewrite <- (Heq [i; kk] (valid2 Hi (proj2 Hk))). lra. }
  rewrite Hc, Hr. lra.
Qed.

End Interval.

(** A smaller interval has bounds within those of a larger one. *)
Lemma lower_point_mono l u l' u' w :
  l <= l' -> u' <= u -> lower_point l u w * w <= lower_point l' u' w * w.
Proof.
  intros Hl Hu. unfold lower_point. destruct (Rle_dec 0 w); nra.
Qed.

Lemma upper_point_mono l u l' u' w :
  l <= l' -> u' <= u -> upper_point l' u' w * w <= upper_point l u w * w.
Proof.
  intros Hl Hu. unfold upper_point. destruct (Rle_dec 0 w); nra.
Qed.

Lemma nested (l u l' u' w : tensor) (b : option tensor) (m k n : nat) :
  shape l = [m; k] -> shape u = [m; k] ->
  shape l' = [m; k] -> shape u' = [m; k] ->
  shape w = [k; n] -> bias_shape b n ->
  (forall idx, valid idx [m; k] -> get l idx <= get l' idx) ->
  (forall idx, valid idx [m; k] -> get u' idx <= get u idx) ->
  exists lo up lo' up',
    Pure.linear (Tensor l) (Tensor u) w b = Ok (Tensor lo, Tensor up) /\
    Pure.linear (Tensor l') (Tensor u') w b = Ok (Tensor lo', Tensor up') /\
    forall i j, (i < m)%nat -> (j < n)%nat ->
      get lo [i; j] <= get lo' [i; j] /\ get up' [i; j] <= get up [i; j].
Proof.
  intros Hl Hu Hl' Hu' Hw Hb Hll Huu.
  destruct (@linear_elems l u w b m k n Hl Hu Hw Hb) as (lo & up & Hrun & _ & _ & Hij).
  destruct (@linear_elems l' u' w b m k n Hl' Hu' Hw Hb) as (lo' & up' & Hrun' & _ & _ & Hij').
  exists lo, up, lo', up'. split; [exact Hrun|]. split; [exact Hrun'|].
  intros i j Hi Hj.
  destruct (Hij i j Hi Hj) as [-> ->]. destruct (Hij' i j Hi Hj) as [-> ->].
  unfold dot, center_at, radius_at. split.
  - match goal with |- ?c + ?x - ?r <= ?c' + ?x - ?r' =>
      cut (c - r <= c' - r'); [lra|] end.
    rewrite <- !Rsum_map_minus. apply Rsum_map_le.
    intros kk Hk. apply in_seq in Hk.
    rewrite <- !lower_point_product.
    apply lower_point_mono; [apply Hll | apply Huu]; apply valid2; lia.
  - match goal with |- ?c' + ?x + ?r' <= ?c + ?x + ?r =>
      cut (c' + r' <= c + r); [lra|] end.
    rewrite <- !Rsum_map_plus. apply Rsum_map_le.
    intros kk Hk. apply in_seq in Hk.
    rewrite <- !upper_point_product.
    apply upper_point_mono; [apply Hll | apply Huu]; apply valid2; lia.
Qed.

End LinearWidth.

(** ** Batch normalisation bounds the normalised values *)

Module BatchNormSound.
Import TensorOps TensorFacts Elements Affine Between BatchNormFacts.

Open Scope R_scope.

(** The bias of feature [j]; no bias is 0. *)
Definition offset_at (bias : option tensor) (j : nat) : R :=
  match bias with
  | Some bias => get bias [0%nat; j]
  | None => 0
  end.

(** Batch normalisation of the value [x] of feature [j]:
    [(x - mean) / sqrt (variance + epsilon)], times the scale, plus the
    bias. *)
Definition normalised (mean variance : tensor) (scale bias : option tensor)
           (epsilon : R) (j : nat) (x : R) : R :=
  (x - get mean [0%nat; j]) * multiplier_at variance scale epsilon j + offset_at bias j.

(** The folded form is the normalisation. *)
Lemma folded mean variance scale bias epsilon j x :
  x * multiplier_at variance scale epsilon j
  + bias_term_at (multiplier_at variance scale epsilon j) mean bias j
  = normalised mean variance scale bias epsilon j x.
Proof.
  unfold normalised, bias_term_at, offset_at. destruct bias; lra.
Qed.

Lemma batch_norm_sound l u mean variance scale bias epsilon m n :
  shape l = [m; n] -> shape u = [m; n] ->
  shape mean = [1%nat; n] -> shape variance = [1%nat; n] ->
  param_shape scale n -> param_shape bias n ->
  exists lo up,
    Pure.batch_norm (Tensor l) (Tensor u) mean variance scale bias epsilon
    = Ok (Tensor lo, Tensor up) /\
    shape lo = [m; n] /\ shape up = [m; n] /\
    forall i j x, (i < m)%nat -> (j < n)%nat ->
      get l [i; j] <= x <= get u [i; j] ->
      get lo [i; j] <= normalised mean variance scale bias epsilon j x <= get up [i; j].
Proof.
  intros Hl Hu Hm Hv Hs Hb.
  destruct (@batch_norm_elems l u mean variance scale bias epsilon m n Hl Hu Hm Hv Hs Hb)
    as (lo & up & Hrun & Hlo & Hup & Hij).
  exists lo, up. repeat split; try assumption.
  - destruct (Hij i j H H0) as [-> _]. rewrite <- folded.
    pose proof (product_between (multiplier_at variance scale epsilon j) H1).
    unfold center_at, radius_at. lra.
  - destruct (Hij i j H H0) as [_ ->]. rewrite <- folded.
    pose proof (product_between (multiplier_at variance scale epsilon j) H1).
    unfold center_at, radius_at. lra.
Qed.

End BatchNormSound.

(** ** Convolution, element by element *)

Module ConvFacts.
Import TensorOps TensorFacts Elements Affine Between Box.

Open Scope R_scope.

Lemma valid4 n i j o a b c d :
  (n < a)%nat -> (i < b)%nat -> (j < c)%nat -> (o < d)%nat ->
  valid [n; i; j; o] [a; b; c; d].
Proof. intros. repeat constructor; assumption. Qed.

Lemma valid4_inv idx a b c d :
  valid idx [a; b; c; d] ->
  exists n i j o, idx = [n; i; j; o] /\
                  (n < a)%nat /\ (i < b)%nat /\ (j < c)%nat /\ (o < d)%nat.
Proof.
  intros H.
  inversion H as [|n ? idx1 ? Hn H1]; subst.
  inversion H1 as [|i ? idx2 ? Hi H2]; subst.
  inversion H2 as [|j ? idx3 ? Hj H3]; subst.
  inversion H3 as [|o ? idx4 ? Ho H4]; subst.
  inversion H4; subst. exists n, i, j, o. auto.
Qed.

(** The element of an input, given by its elements [g], at a position of the
    padded input. *)
Definition padded (g : list nat -> R) (h w pt pl : nat) (n r c ch : nat) : R :=
  if (pt <=? r)%nat && (r - pt <? h)%nat && (pl <=? c)%nat && (c - pl <? w)%nat
  then g [n; (r - pt)%nat; (c - pl)%nat; ch]
  else 0.

(** The geometry of a convolution: input height and width, kernel height and
    width, the strides, the leading padding, and the input channels. *)
Record geometry : Type := mkGeometry {
  in_h : nat; in_w : nat;
  k_h : nat; k_w : nat;
  s_h : nat; s_w : nat;
  pad_t : nat; pad_l : nat;
  channels : nat
}.

(** The sum over the kernel window and the input channels of input times
    kernel, for the output position [(n, i, j, o)]. *)
Definition window (G : geometry) (gx gf : list nat -> R) (n i j o : nat) : R :=
  Rsum (map (fun di =>
    Rsum (map (fun dj =>
      Rsum (map (fun c =>
              padded gx (in_h G) (in_w G) (pad_t G) (pad_l G) n
                     (i * s_h G + di) (j * s_w G + dj) c
              * gf [di; dj; c; o])
            (seq 0 (channels G))))
      (seq 0 (k_w G))))
    (seq 0 (k_h G))).

Lemma padded_get_elems x nb h w ci gx pt pl n r c ch :
  has_elems x [nb; h; w; ci] gx -> (n < nb)%nat -> (ch < ci)%nat ->
  padded_get x h w pt pl n r c ch = padded gx h w pt pl n r c ch.
Proof.
  intros [_ Hx] Hn Hch. unfold padded_get, padded.
  destruct ((pt <=? r)%nat && (r - pt <? h)%nat && (pl <=? c)%nat && (c - pl <? w)%nat)
    eqn:E; [|reflexivity].
  apply andb_prop in E. destruct E as [E E4].
  apply andb_prop in E. destruct E as [E E3].
  apply andb_prop in E. destruct E as [E1 E2].
  apply Nat.ltb_lt in E2, E4.
  apply Hx. now apply valid4.
Qed.

Lemma window_ext G gx gx' gf gf' n i j o :
  (forall r c ch, (ch < channels G)%nat ->
     padded gx (in_h G) (in_w G) (pad_t G) (pad_l G) n r c ch
     = padded gx' (in_h G) (in_w G) (pad_t G) (pad_l G) n r c ch) ->
  (forall di dj c, (di < k_h G)%nat -> (dj < k_w G)%nat -> (c < channels G)%nat ->
     gf [di; dj; c; o] = gf' [di; dj; c; o]) ->
  window G gx gf n i j o = window G gx' gf' n i j o.
Proof.
  intros Hx Hf. unfold window.
  apply Rsum_map_ext. intros di Hdi. apply in_seq in Hdi.
  apply Rsum_map_ext. intros dj Hdj. apply in_seq in Hdj.
  apply Rsum_map_ext. intros c Hc. apply in_seq in Hc.
  rewrite Hx, Hf by lia. reflexivity.
Qed.

(** The convolution of a [nb x h x w x ci] input with a
    [kh x kw x ci x co] kernel. *)
Lemma convolution_elems x f p nb h w ci kh kw co sh sw oh ow pt pl gx gf :
  has_elems x [nb; h; w; ci] gx -> has_elems f [kh; kw; ci; co] gf ->
  conv_out p h kh sh = Some (oh, pt) -> conv_out p w kw sw = Some (ow, pl) ->
  exists y, convolution x f p [sh; sw] = Ok y /\
            has_elems y [nb; oh; ow; co]
              (fun idx => match idx with
                          | [n; i; j; o] =>
                              window (mkGeometry h w kh kw sh sw pt pl ci) gx gf n i j o
                          | _ => 0
                          end).
Proof.
  intros Hx Hf Hh Hw. unfold convolution.
  rewrite (proj1 Hx), (proj1 Hf), Hh, Hw, Nat.eqb_refl.
  eexists. split; [reflexivity|].
  eapply has_elems_ext; [apply (tabulate_elems [nb; oh; ow; co])|].
  intros idx Hv. apply valid4_inv in Hv.
  destruct Hv as (n & i & j & o & -> & Hn & Hi & Hj & Ho).
  unfold window. simpl.
  apply Rsum_map_ext. intros di Hdi. apply in_seq in Hdi.
  apply Rsum_map_ext. intros dj Hdj. apply in_seq in Hdj.
  apply Rsum_map_ext. intros c Hc. apply in_seq in Hc.
  rewrite (padded_get_elems pt pl _ _ Hx Hn) by lia.
  f_equal. apply (proj2 Hf). apply valid4; lia.
Qed.

Lemma broadcast_shape_chan a b c d :
  broadcast_shape [a; b; c; d] [d] = Some [a; b; c; d].
Proof. unfold broadcast_shape. simpl. now rewrite Nat.eqb_refl. Qed.

Lemma bindex_chan d n i j o : (o < d)%nat -> bindex [d] [n; i; j; o] = [o].
Proof.
  intros Ho. unfold bindex. simpl.
  destruct (Nat.eqb_spec d 1); [f_equal; lia | reflexivity].
Qed.

(** A binary operation of a [a x b x c x d] tensor and a vector of length
    [d], which is read along the last axis. *)
Lemma binop_chan_elems name f x y a b c d gx gy :
  has_elems x [a; b; c; d] gx -> has_elems y [d] gy ->
  exists z, binop name f x y = Ok z /\
            has_elems z [a; b; c; d]
              (fun idx => match idx with
                          | [n; i; j; o] => f (gx [n; i; j; o]) (gy [o])
                          | _ => 0
                          end).
Proof.
  intros [Hsx Hx] [Hsy Hy]. unfold binop.
  rewrite Hsx, Hsy, broadcast_shape_chan.
  eexists. split; [reflexivity|].
  eapply has_elems_ext; [apply tabulate_elems|].
  intros idx Hv. pose proof Hv as Hv'.
  apply valid4_inv in Hv'. destruct Hv' as (n & i & j & o & -> & Hn & Hi & Hj & Ho).
  rewrite bget_valid by congruence. rewrite Hx by assumption.
  unfold bget. rewrite Hsy, bindex_chan by assumption.
  rewrite Hy by (repeat constructor; assumption). reflexivity.
Qed.

Lemma add_bias_elems4 t bias a b c d gt :
  has_elems t [a; b; c; d] gt -> bias_shape bias d ->
  exists t', Pure.add_bias (Tensor t) bias = Ok (Tensor t') /\
             has_elems t' [a; b; c; d]
               (fun idx => match idx with
                           | [n; i; j; o] => gt [n; i; j; o] + bias_at bias o
                           | _ => 0
                           end).
Proof.
  intros Ht Hb. destruct bias as [bias|]; simpl in *.
  - destruct (binop_chan_elems "add" Rplus Ht (conj Hb (fun idx _ => eq_refl (get bias idx))))
      as (t' & Ht' & Hte).
    exists t'. split; [|exact Hte].
    unfold Py.add. now rewrite (lift2_ok TensorOps.add _ _ Ht').
  - exists t. split; [reflexivity|].
    eapply has_elems_ext; [exact Ht|].
    intros idx Hv. apply valid4_inv in Hv.
    destruct Hv as (n & i & j & o & -> & _). lra.
Qed.

End ConvFacts.

(** ** The convolution handler and the layer it bounds *)

Module ConvSound.
Import TensorOps TensorFacts Elements Affine Between Box ConvFacts.

Open Scope R_scope.

(** Centre and radius of the interval at an index. *)
Definition centre (l u : tensor) (idx : list nat) : R := (get l idx + get u idx) / 2.
Definition half_width (l u : tensor) (idx : list nat) : R := (get u idx - get l idx) / 2.

Lemma padded_between gl gu gx gf G nb n r c ch :
  (n < nb)%nat -> (ch < channels G)%nat ->
  (forall idx, valid idx [nb; in_h G; in_w G; channels G] -> gl idx <= gx idx <= gu idx) ->
  padded (fun idx => (gl idx + gu idx) / 2) (in_h G) (in_w G) (pad_t G) (pad_l G) n r c ch * gf
  - padded (fun idx => (gu idx - gl idx) / 2) (in_h G) (in_w G) (pad_t G) (pad_l G) n r c ch
    * Rabs gf
  <= padded gx (in_h G) (in_w G) (pad_t G) (pad_l G) n r c ch * gf
  <= padded (fun idx => (gl idx + gu idx) / 2) (in_h G) (in_w G) (pad_t G) (pad_l G) n r c ch * gf
     + padded (fun idx => (gu idx - gl idx) / 2) (in_h G) (in_w G) (pad_t G) (pad_l G) n r c ch
       * Rabs gf.
Proof.
  intros Hn Hch Hin. unfold padded.
  destruct ((pad_t G <=? r)%nat && (r - pad_t G <? in_h G)%nat
            && (pad_l G <=? c)%nat && (c - pad_l G <? in_w G)%nat) eqn:E; [|lra].
  apply andb_prop in E. destruct E as [E E4].
  apply andb_prop in E. destruct E as [E E3].
  apply andb_prop in E. destruct E as [E1 E2].
  apply Nat.ltb_lt in E2, E4.
  apply product_between. apply Hin. now apply valid4.
Qed.

Lemma window_between G gl gu gx gf nb n i j o :
  (n < nb)%nat ->
  (forall idx, valid idx [nb; in_h G; in_w G; channels G] -> gl idx <= gx idx <= gu idx) ->
  window G (fun idx => (gl idx + gu idx) / 2) gf n i j o
  - window G (fun idx => (gu idx - gl idx) / 2) (fun idx => Rabs (gf idx)) n i j o
  <= window G gx gf n i j o
  <= window G (fun idx => (gl idx + gu idx) / 2) gf n i j o
     + window G (fun idx => (gu idx - gl idx) / 2) (fun idx => Rabs (gf idx)) n i j o.
Proof.
  intros Hn Hin. unfold window.
  apply Rsum_between. intros di _.
  apply Rsum_between. intros dj _.
  apply Rsum_between. intros c Hc. apply in_seq in Hc.
  apply padded_between with nb; [assumption | lia | assumption].
Qed.

Section Interval.

Variables (l u f : tensor) (b : option tensor) (p : padding).
Variables (nb h w ci kh kw co sh sw oh ow pt pl : nat).
Hypothesis Hl : shape l = [nb; h; w; ci].
Hypothesis Hu : shape u = [nb; h; w; ci].
Hypothesis Hf : shape f = [kh; kw; ci; co].
Hypothesis Hb : bias_shape b co.
Hypothesis Hh : conv_out p h kh sh = Some (oh, pt).
Hypothesis Hw : conv_out p w kw sw = Some (ow, pl).

Let G : geometry := mkGeometry h w kh kw sh sw pt pl ci.

(** The layer on a [nb x h x w x ci] input, element by element. *)
Lemma conv_forward_elems x :
  shape x = [nb; h; w; ci] ->
  exists y, Layers.conv2d x f b p [sh; sw] = Ok (Tensor y) /\
            shape y = [nb; oh; ow; co] /\
            forall n i j o, (n < nb)%nat -> (i < oh)%nat -> (j < ow)%nat -> (o < co)%nat ->
              get y [n; i; j; o] = window G (get x) (get f) n i j o + bias_at b o.
Proof.
  intros Hx.
  destruct (@convolution_elems x f p nb h w ci kh kw co sh sw oh ow pt pl (get x) (get f)
              (conj Hx (fun idx _ => eq_refl)) (conj Hf (fun idx _ => eq_refl)) Hh Hw)
    as (y & Hy & Hye).
  destruct (@add_bias_elems4 y b nb oh ow co _ Hye Hb) as (y' & Hy' & Hye').
  exists y'. split; [|split].
  - unfold Layers.conv2d, tf.nn.convolution. simpl. rewrite Hy. exact Hy'.
  - apply Hye'.
  - intros n i j o Hn Hi Hj Ho. destruct Hye' as [_ Hye'].
    now rewrite Hye' by now apply valid4.
Qed.

(** [_conv2d], element by element: the convolution of the centre plus the
    bias, minus and plus the convolution of the radius with the absolute
    kernel. *)
Lemma conv2d_elems :
  exists lo up,
    Pure.conv2d (Tensor l) (Tensor u) f b p [sh; sw] = Ok (Tensor lo, Tensor up) /\
    shape lo = [nb; oh; ow; co] /\ shape up = [nb; oh; ow; co] /\
    forall n i j o, (n < nb)%nat -> (i < oh)%nat -> (j < ow)%nat -> (o < co)%nat ->
      get lo [n; i; j; o]
      = window G (centre l u) (get f) n i j o + bias_at b o
        - window G (half_width l u) (fun idx => Rabs (get f idx)) n i j o
      /\
      get up [n; i; j; o]
      = window G (centre l u) (get f) n i j o + bias_at b o
        + window G (half_width l u) (fun idx => Rabs (get f idx)) n i j o.
Proof.
  assert (Hle : has_elems l [nb; h; w; ci] (get l)) by now split.
  assert (Hue : has_elems u [nb; h; w; ci] (get u)) by now split.
  assert (Hfe : has_elems f [kh; kw; ci; co] (get f)) by now split.
  destruct (center_elems Hle Hue) as (c & Hc & Hce).
  destruct (radius_elems Hle Hue) as (r & Hr & Hre).
  destruct (convolution_elems p sh sw Hce Hfe Hh Hw) as (cw & Hcw & Hcwe).
  destruct (@add_bias_elems4 cw b nb oh ow co _ Hcwe Hb) as (cb & Hcb & Hcbe).
  destruct (convolution_elems p sh sw Hre (abs_elems Hfe) Hh Hw) as (rw & Hrw & Hrwe).
  destruct (around_elems Hcbe Hrwe) as (lo & up & Hlu & Hlo & Hup).
  exists lo, up. split; [|split; [apply Hlo | split; [apply Hup|]]].
  - unfold Pure.conv2d. simpl. rewrite Hc. simpl. rewrite Hr. simpl.
    unfold tf.nn.convolution. simpl. rewrite Hcw. simpl. rewrite Hcb. simpl.
    unfold tf.abs. rewrite Hrw. simpl. exact Hlu.
  - intros n i j o Hn Hi Hj Ho.
    destruct Hlo as [_ Hlo]. destruct Hup as [_ Hup].
    rewrite Hlo, Hup by now apply valid4. split; reflexivity.
Qed.

(** Every point of the interval is mapped between the bounds [_conv2d]
    computes. *)
Lemma conv_sound x :
  within l x u [nb; h; w; ci] ->
  exists lo up y,
    Pure.conv2d (Tensor l) (Tensor u) f b p [sh; sw] = Ok (Tensor lo, Tensor up) /\
    Layers.conv2d x f b p [sh; sw] = Ok (Tensor y) /\
    within lo y up [nb; oh; ow; co].
Proof.
  intros [Hx Hin].
  destruct conv2d_elems as (lo & up & Hrun & Hlo & Hup & Hij).
  destruct (@conv_forward_elems x Hx) as (y & Hy & Hys & Hye).
  exists lo, up, y. split; [exact Hrun|]. split; [exact Hy|]. split; [exact Hys|].
  intros idx Hv. apply valid4_inv in Hv.
  destruct Hv as (n & i & j & o & -> & Hn & Hi & Hj & Ho).
  destruct (Hij n i j o Hn Hi Hj Ho) as [-> ->]. rewrite (Hye n i j o Hn Hi Hj Ho).
  pose proof (@window_between G (get l) (get u) (get x) (get f) nb n i j o Hn Hin) as Hd.
  unfold centre, half_width. lra.
Qed.

End Interval.

End ConvSound.

(** ** Several sources *)

Module MultiSource.
Import Order Inversion Run.

(** The arguments the monotonic handler passes for a bound: the elements of
    a tuple, or the one tensor. *)
Definition args_of (v : value) : list value :=
  match v with
  | Tuple xs => xs
  | Tensor _ => [v]
  end.

(** [combine_with] keeps the order of lower and upper bounds. *)
Lemma combine_ordered sl su bl bu lo up :
  vle sl su -> vle bl bu -> Pure.combine sl su bl bu = Ok (lo, up) -> vle lo up.
Proof.
  intros Hs Hb H. unfold Pure.combine in H.
  apply rbind_ok in H. destruct H as (e & He & H).
  apply ensure_singleton_ok in He. destruct He as (x & y & -> & ->).
  destruct Hs as [sx sy Hs|xs ys Hs]; simpl in H.
  - injection H as <- <-. constructor.
    constructor; [now constructor|]. constructor; [exact Hb | constructor].
  - injection H as <- <-. constructor.
    apply Forall2_app; [exact Hs|]. constructor; [exact Hb | constructor].
Qed.

Lemma call_twice_ok s fn largs uargs r s' :
  call_twice s fn largs uargs = (Ok r, s') ->
  exists lo up,
    apply fn largs = Ok lo /\ apply fn uargs = Ok up /\
    nth_error (heap s') r = Some (IntervalBoundsObj lo up).
Proof.
  unfold call_twice. intros H.
  destruct (apply fn largs) as [lo|]; [|discriminate].
  destruct (apply fn uargs) as [up|]; [|discriminate].
  apply Invariant.alloc_ok in H. destruct H as (lo' & up' & [= <- <-] & -> & ->).
  exists lo, up. repeat split. apply Invariant.nth_error_new.
Qed.

(** The monotonic handler calls the function on [args_of] of each bound, or
    raises without calling it. *)
Lemma monotonic_fn_ok s l u fn r s' :
  monotonic_fn s l u fn = (Ok r, s') ->
  call_twice s fn (args_of l) (args_of u) = (Ok r, s') /\ is_tuple l = is_tuple u.
Proof.
  unfold monotonic_fn. destruct l, u; simpl; try discriminate; auto.
Qed.

Lemma vle_args l u : vle l u -> Forall2 vle (args_of l) (args_of u).
Proof.
  intros H. destruct H as [x y H|xs ys H]; simpl; [|exact H].
  constructor; [now constructor | constructor].
Qed.

End MultiSource.

(** ** Intervals for the examples of the further properties *)

Module MoreExamples.
Import TensorOps TensorFacts Elements Box.

Open Scope R_scope.

(** A 1 x 2 interval, a point of it, a smaller interval, and a 2 x 1 weight
    matrix with a negative weight. *)
Definition low : tensor := mkTensor [1%nat; 2%nat] [0; 1].
Definition high : tensor := mkTensor [1%nat; 2%nat] [2; 3].
Definition mid : tensor := mkTensor [1%nat; 2%nat] [1; 3].
Definition low' : tensor := mkTensor [1%nat; 2%nat] [1; 1].
Definition high' : tensor := mkTensor [1%nat; 2%nat] [1; 2].
Definition weights : tensor := mkTensor [2%nat; 1%nat] [2; -1].
Definition bias : tensor := mkTensor [1%nat] [5].

Lemma valid12 idx :
  valid idx [1%nat; 2%nat] -> idx = [0%nat; 0%nat] \/ idx = [0%nat; 1%nat].
Proof.
  intros H. apply valid2_inv in H. destruct H as (i & j & -> & Hi & Hj).
  assert (i = 0%nat) as -> by lia.
  destruct j as [|[|j]]; [now left | now right | lia].
Qed.

Lemma mid_within : within low mid high [1%nat; 2%nat].
Proof.
  split; [reflexivity|]. intros idx H.
  destruct (valid12 H) as [-> | ->]; cbv [get low mid high shape data offset nth]; simpl; lra.
Qed.

Lemma low_le_high idx : valid idx [1%nat; 2%nat] -> get low idx <= get high idx.
Proof.
  intros H.
  destruct (valid12 H) as [-> | ->]; cbv [get low high shape data offset nth]; simpl; lra.
Qed.

Lemma low_le_low' idx : valid idx [1%nat; 2%nat] -> get low idx <= get low' idx.
Proof.
  intros H.
  destruct (valid12 H) as [-> | ->]; cbv [get low low' shape data offset nth]; simpl; lra.
Qed.

Lemma high'_le_high idx : valid idx [1%nat; 2%nat] -> get high' idx <= get high idx.
Proof.
  intros H.
  destruct (valid12 H) as [-> | ->]; cbv [get high high' shape data offset nth]; simpl; lra.
Qed.

End MoreExamples.

(** * Further properties: the theorems *)

(** X1.  [_linear] is sound in exact arithmetic: for an [m x k] interval, a
    [k x n] weight matrix and a bias of length [n] or none, the linear layer
    maps every input that lies in the interval elementwise to an output that
    lies, elementwise, between the lower and the upper bound [_linear]
    returns. *)
Theorem linear_bounds_sound (s : state) (self : ref) (l u w : tensor)
        (b : option tensor) (m k n : nat) (x : tensor) :
  nth_error (heap s) self = Some (IntervalBoundsObj (Tensor l) (Tensor u)) ->
  shape l = [m; k] -> shape u = [m; k] -> shape w = [k; n] ->
  Affine.bias_shape b n ->
  Box.within l x u [m; k] ->
  exists lo up y,
    IntervalBounds._linear self w b s = Run.allocated s (Tensor lo) (Tensor up) /\
    Layers.linear x w b = Ok (Tensor y) /\
    Box.within lo y up [m; n].
Proof.
  intros Hself Hl Hu Hw Hb Hx.
  destruct (@LinearFacts.linear_sound l u w b m k n Hl Hu Hw Hb x Hx)
    as (lo & up & y & Hrun & Hy & _ & _ & Hin).
  exists lo, up, y. rewrite (Run.run_linear Hself w b), Hrun.
  split; [reflexivity|]. split; [exact Hy | exact Hin].
Qed.

(** The point [(1, 3)] of the interval [[(0, 1), (2, 3)]] under the weights
    [(2, -1)] and the bias 5. *)
Lemma linear_bounds_sound_witness :
  exists lo up y,
    IntervalBounds._linear 0 MoreExamples.weights (Some MoreExamples.bias)
      (Examples.interval (Tensor MoreExamples.low) (Tensor MoreExamples.high))
    = Run.allocated (Examples.interval (Tensor MoreExamples.low) (Tensor MoreExamples.high))
        (Tensor lo) (Tensor up) /\
    Layers.linear MoreExamples.mid MoreExamples.weights (Some MoreExamples.bias)
    = Ok (Tensor y) /\
    Box.within lo y up [1; 1].
Proof.
  exact (@linear_bounds_sound
           (Examples.interval (Tensor MoreExamples.low) (Tensor MoreExamples.high)) 0
           MoreExamples.low MoreExamples.high MoreExamples.weights (Some MoreExamples.bias)
           1 2 1 MoreExamples.mid
           eq_refl eq_refl eq_refl eq_refl eq_refl MoreExamples.mid_within).
Defined.

(** X2.  In exact (real-number) arithmetic the bounds of [_linear] are
    tight: when the interval is ordered,
    for every output column there is an input inside the interval whose
    image under the linear layer equals the upper bound in that column, in
    every row, and another whose image equals the lower bound. *)
Theorem linear_bounds_tight (s : state) (self : ref) (l u w : tensor)
        (b : option tensor) (m k n j : nat) :
  nth_error (heap s) self = Some (IntervalBoundsObj (Tensor l) (Tensor u)) ->
  shape l = [m; k] -> shape u = [m; k] -> shape w = [k; n] ->
  Affine.bias_shape b n ->
  (forall idx, TensorFacts.valid idx [m; k] ->
               (TensorOps.get l idx <= TensorOps.get u idx)%R) ->
  j < n ->
  exists lo up xl xu yl yu,
    IntervalBounds._linear self w b s = Run.allocated s (Tensor lo) (Tensor up) /\
    Box.within l xl u [m; k] /\ Box.within l xu u [m; k] /\
    Layers.linear xl w b = Ok (Tensor yl) /\
    Layers.linear xu w b = Ok (Tensor yu) /\
    forall i, i < m ->
      TensorOps.get yl [i; j] = TensorOps.get lo [i; j] /\
      TensorOps.get yu [i; j] = TensorOps.get up [i; j].
Proof.
  intros Hself Hl Hu Hw Hb Hle Hj.
  destruct (@LinearFacts.tight l u w b m k n Hl Hu Hw Hb j Hj)
    as (lo & up & yl & yu & Hrun & Hyl & Hyu & Hij).
  exists lo, up, (LinearFacts.lower_input l u w m k j),
    (LinearFacts.upper_input l u w m k j), yl, yu.
  rewrite (Run.run_linear Hself w b), Hrun.
  split; [reflexivity|].
  split; [now apply LinearFacts.lower_input_within|].
  split; [now apply LinearFacts.upper_input_within|].
  split; [exact Hyl|]. split; [exact Hyu | exact Hij].
Qed.

(** The interval [[(0, 1), (2, 3)]] under the weights [(2, -1)]. *)
Lemma linear_bounds_tight_witness :
  exists lo up xl xu yl yu,
    IntervalBounds._linear 0 MoreExamples.weights (Some MoreExamples.bias)
      (Examples.interval (Tensor MoreExamples.low) (Tensor MoreExamples.high))
    = Run.allocated (Examples.interval (Tensor MoreExamples.low) (Tensor MoreExamples.high))
        (Tensor lo) (Tensor up) /\
    Box.within MoreExamples.low xl MoreExamples.high [1; 2] /\
    Box.within MoreExamples.low xu MoreExamples.high [1; 2] /\
    Layers.linear xl MoreExamples.weights (Some MoreExamples.bias) = Ok (Tensor yl) /\
    Layers.linear xu MoreExamples.weights (Some MoreExamples.bias) = Ok (Tensor yu) /\
    forall i, i < 1 ->
      TensorOps.get yl [i; 0] = TensorOps.get lo [i; 0] /\
      TensorOps.get yu [i; 0] = TensorOps.get up [i; 0].
Proof.
  exact (@linear_bounds_tight
           (Examples.interval (Tensor MoreExamples.low) (Tensor MoreExamples.high)) 0
           MoreExamples.low MoreExamples.high MoreExamples.weights (Some MoreExamples.bias)
           1 2 1 0
           eq_refl eq_refl eq_refl eq_refl eq_refl MoreExamples.low_le_high
           (Nat.lt_0_succ 0)).
Defined.

(** X3.  In exact (real-number) arithmetic the width of the bounds of
    [_linear] does not depend on the bias: in row [i] and column [j] the upper bound exceeds the lower bound by the
    sum over [k] of the width of the interval at [(i, k)] times the absolute
    weight at [(k, j)]. *)
Theorem linear_bounds_width (s : state) (self : ref) (l u w : tensor)
        (b : option tensor) (m k n : nat) :
  nth_error (heap s) self = Some (IntervalBoundsObj (Tensor l) (Tensor u)) ->
  shape l = [m; k] -> shape u = [m; k] -> shape w = [k; n] ->
  Affine.bias_shape b n ->
  exists lo up,
    IntervalBounds._linear self w b s = Run.allocated s (Tensor lo) (Tensor up) /\
    forall i j, i < m -> j < n ->
      (TensorOps.get up [i; j] - TensorOps.get lo [i; j]
       = Elements.dot (fun kk => TensorOps.get u [i; kk] - TensorOps.get l [i; kk])
                      (fun kk => Rabs (TensorOps.get w [kk; j])) k)%R.
Proof.
  intros Hself Hl Hu Hw Hb.
  destruct (@LinearWidth.width l u w b m k n Hl Hu Hw Hb) as (lo & up & Hrun & Hij).
  exists lo, up. rewrite (Run.run_linear Hself w b), Hrun.
  split; [reflexivity | exact Hij].
Qed.

(** The interval [[(0, 1), (2, 3)]] under the weights [(2, -1)]. *)
Lemma linear_bounds_width_witness :
  exists lo up,
    IntervalBounds._linear 0 MoreExamples.weights (Some MoreExamples.bias)
      (Examples.interval (Tensor MoreExamples.low) (Tensor MoreExamples.high))
    = Run.allocated (Examples.interval (Tensor MoreExamples.low) (Tensor MoreExamples.high))
        (Tensor lo) (Tensor up) /\
    forall i j, i < 1 -> j < 1 ->
      (TensorOps.get up [i; j] - TensorOps.get lo [i; j]
       = Elements.dot (fun kk => TensorOps.get MoreExamples.high [i; kk]
                                 - TensorOps.get MoreExamples.low [i; kk])
                      (fun kk => Rabs (TensorOps.get MoreExamples.weights [kk; j])) 2)%R.
Proof.
  exact (@linear_bounds_width
           (Examples.interval (Tensor MoreExamples.low) (Tensor MoreExamples.high)) 0
           MoreExamples.low MoreExamples.high MoreExamples.weights (Some MoreExamples.bias)
           1 2 1 eq_refl eq_refl eq_refl eq_refl eq_refl).
Defined.

(** X4.  In exact (real-number) arithmetic [_linear] propagates a point
    exactly: when the lower and the upper
    bound of the interval agree at every index, the lower and the upper bound
    returned both equal the image of that point under the linear layer. *)
Theorem linear_point_interval (s : state) (self : ref) (l u w : tensor)
        (b : option tensor) (m k n : nat) :
  nth_error (heap s) self = Some (IntervalBoundsObj (Tensor l) (Tensor u)) ->
  shape l = [m; k] -> shape u = [m; k] -> shape w = [k; n] ->
  Affine.bias_shape b n ->
  (forall idx, TensorFacts.valid idx [m; k] -> TensorOps.get l idx = TensorOps.get u idx) ->
  exists lo up y,
    IntervalBounds._linear self w b s = Run.allocated s (Tensor lo) (Tensor up) /\
    Layers.linear l w b = Ok (Tensor y) /\
    forall i j, i < m -> j < n ->
      TensorOps.get lo [i; j] = TensorOps.get y [i; j] /\
      TensorOps.get up [i; j] = TensorOps.get y [i; j].
Proof.
  intros Hself Hl Hu Hw Hb Heq.
  destruct (@LinearWidth.point l u w b m k n Hl Hu Hw Hb Heq)
    as (lo & up & y & Hrun & Hy & Hij).
  exists lo, up, y. rewrite (Run.run_linear Hself w b), Hrun.
  split; [reflexivity|]. split; [exact Hy | exact Hij].
Qed.

(** The point [(1, 3)] as the interval [[(1, 3), (1, 3)]]. *)
Lemma linear_point_interval_witness :
  exists lo up y,
    IntervalBounds._linear 0 MoreExamples.weights None
      (Examples.interval (Tensor MoreExamples.mid) (Tensor MoreExamples.mid))
    = Run.allocated (Examples.interval (Tensor MoreExamples.mid) (Tensor MoreExamples.mid))
        (Tensor lo) (Tensor up) /\
    Layers.linear MoreExamples.mid MoreExamples.weights None = Ok (Tensor y) /\
    forall i j, i < 1 -> j < 1 ->
      TensorOps.get lo [i; j] = TensorOps.get y [i; j] /\
      TensorOps.get up [i; j] = TensorOps.get y [i; j].
Proof.
  exact (@linear_point_interval
           (Examples.interval (Tensor MoreExamples.mid) (Tensor MoreExamples.mid)) 0
           MoreExamples.mid MoreExamples.mid MoreExamples.weights None
           1 2 1 eq_refl eq_refl eq_refl eq_refl I (fun idx _ => eq_refl)).
Defined.

(** X5.  In exact (real-number) arithmetic [_linear] is monotone for
    inclusion: of two intervals of one shape,
    the second inside the first, the bounds of the second lie inside the
    bounds of the first. *)
Theorem linear_bounds_nested (s : state) (self self' : ref) (l u l' u' w : tensor)
        (b : option tensor) (m k n : nat) :
  nth_error (heap s) self = Some (IntervalBoundsObj (Tensor l) (Tensor u)) ->
  nth_error (heap s) self' = Some (IntervalBoundsObj (Tensor l') (Tensor u')) ->
  shape l = [m; k] -> shape u = [m; k] ->
  shape l' = [m; k] -> shape u' = [m; k] ->
  shape w = [k; n] -> Affine.bias_shape b n ->
  (forall idx, TensorFacts.valid idx [m; k] ->
               (TensorOps.get l idx <= TensorOps.get l' idx)%R) ->
  (forall idx, TensorFacts.valid idx [m; k] ->
               (TensorOps.get u' idx <= TensorOps.get u idx)%R) ->
  exists lo up lo' up',
    IntervalBounds._linear self w b s = Run.allocated s (Tensor lo) (Tensor up) /\
    IntervalBounds._linear self' w b s = Run.allocated s (Tensor lo') (Tensor up') /\
    forall i j, i < m -> j < n ->
      (TensorOps.get lo [i; j] <= TensorOps.get lo' [i; j])%R /\
      (TensorOps.get up' [i; j] <= TensorOps.get up [i; j])%R.
Proof.
  intros Hself Hself' Hl Hu Hl' Hu' Hw Hb Hll Huu.
  destruct (@LinearWidth.nested l u l' u' w b m k n Hl Hu Hl' Hu' Hw Hb Hll Huu)
    as (lo & up & lo' & up' & Hrun & Hrun' & Hij).
  exists lo, up, lo', up'.
  rewrite (Run.run_linear Hself w b), Hrun, (Run.run_linear Hself' w b), Hrun'.
  split; [reflexivity|]. split; [reflexivity | exact Hij].
Qed.

(** The interval [[(1, 1), (1, 2)]] inside [[(0, 1), (2, 3)]]. *)
Lemma linear_bounds_nested_witness :
  let s := mkState [IntervalBoundsObj (Tensor MoreExamples.low) (Tensor MoreExamples.high);
                    IntervalBoundsObj (Tensor MoreExamples.low') (Tensor MoreExamples.high')]
                   [] in
  exists lo up lo' up',
    IntervalBounds._linear 0 MoreExamples.weights (Some MoreExamples.bias) s
    = Run.allocated s (Tensor lo) (Tensor up) /\
    IntervalBounds._linear 1 MoreExamples.weights (Some MoreExamples.bias) s
    = Run.allocated s (Tensor lo') (Tensor up') /\
    forall i j, i < 1 -> j < 1 ->
      (TensorOps.get lo [i; j] <= TensorOps.get lo' [i; j])%R /\
      (TensorOps.get up' [i; j] <= TensorOps.get up [i; j])%R.
Proof.
  intros s.
  exact (@linear_bounds_nested s 0 1
           MoreExamples.low MoreExamples.high MoreExamples.low' MoreExamples.high'
           MoreExamples.weights (Some MoreExamples.bias) 1 2 1
           eq_refl eq_refl eq_refl eq_refl eq_refl eq_refl eq_refl eq_refl
           MoreExamples.low_le_low' MoreExamples.high'_le_high).
Defined.

(** X6.  [_batch_norm] is sound in exact arithmetic: for an [m x n] interval
    and [1 x n] parameters such that every element of [variance + epsilon]
    is positive, the batch normalisation
    [(x - mean) / sqrt (variance + epsilon) * scale + bias] of every value [x]
    between the lower and the upper bound at an index lies between the lower
    and the upper bound returned at that index, whatever the sign of the
    scale. *)
Theorem batch_norm_bounds_sound (s : state) (self : ref) (l u mean variance : tensor)
        (scale bias : option tensor) (epsilon : R) (m n : nat) :
  nth_error (heap s) self = Some (IntervalBoundsObj (Tensor l) (Tensor u)) ->
  shape l = [m; n] -> shape u = [m; n] ->
  shape mean = [1; n] -> shape variance = [1; n] ->
  BatchNormFacts.param_shape scale n -> BatchNormFacts.param_shape bias n ->
  Invariant.positive_variance variance epsilon ->
  exists lo up,
    IntervalBounds._batch_norm self mean variance scale bias epsilon s
    = Run.allocated s (Tensor lo) (Tensor up) /\
    forall i j x, i < m -> j < n ->
      (TensorOps.get l [i; j] <= x <= TensorOps.get u [i; j])%R ->
      (TensorOps.get lo [i; j]
       <= BatchNormSound.normalised mean variance scale bias epsilon j x
       <= TensorOps.get up [i; j])%R.
Proof.
  intros Hself Hl Hu Hm Hv Hs Hb _.
  destruct (@BatchNormSound.batch_norm_sound l u mean variance scale bias epsilon m n Hl Hu Hm Hv Hs Hb)
    as (lo & up & Hrun & _ & _ & Hij).
  exists lo, up. rewrite (Run.run_batch_norm Hself _ _ _ _ _), Hrun.
  split; [reflexivity | exact Hij].
Qed.

(** The interval [[1, 3]] with mean 0, variance 3, epsilon 1, bias 0 and the
    negative scale -2. *)
Lemma batch_norm_bounds_sound_witness :
  let s := Examples.interval (Tensor (Examples.matrix11 1)) (Tensor (Examples.matrix11 3)) in
  exists lo up,
    IntervalBounds._batch_norm 0 (Examples.matrix11 0) (Examples.matrix11 3)
      (Some (Examples.matrix11 (-2))) (Some (Examples.matrix11 0)) 1 s
    = Run.allocated s (Tensor lo) (Tensor up) /\
    forall i j x, i < 1 -> j < 1 ->
      (TensorOps.get (Examples.matrix11 1) [i; j] <= x
       <= TensorOps.get (Examples.matrix11 3) [i; j])%R ->
      (TensorOps.get lo [i; j]
       <= BatchNormSound.normalised (Examples.matrix11 0) (Examples.matrix11 3)
            (Some (Examples.matrix11 (-2))) (Some (Examples.matrix11 0)) 1 j x
       <= TensorOps.get up [i; j])%R.
Proof.
  intros s.
  exact (@batch_norm_bounds_sound s 0 (Examples.matrix11 1) (Examples.matrix11 3)
           (Examples.matrix11 0) (Examples.matrix11 3)
           (Some (Examples.matrix11 (-2))) (Some (Examples.matrix11 0)) 1 1 1
           eq_refl eq_refl eq_refl eq_refl eq_refl eq_refl eq_refl
           (Forall_cons 3%R (ltac:(lra) : (0 < 3 + 1)%R) (Forall_nil _))).
Defined.

(** ** A 2 x 2 image for the examples of the convolution *)

Module ConvExamples.
Import TensorOps TensorFacts Box ConvFacts.

Open Scope R_scope.

(** A 1 x 2 x 2 x 1 interval, a point of it and a 2 x 2 x 1 x 1 kernel with
    negative weights. *)
Definition low : tensor := mkTensor [1%nat; 2%nat; 2%nat; 1%nat] [0; 0; 1; 1].
Definition high : tensor := mkTensor [1%nat; 2%nat; 2%nat; 1%nat] [1; 2; 1; 3].
Definition image : tensor := mkTensor [1%nat; 2%nat; 2%nat; 1%nat] [1; 1; 1; 2].
Definition kernel : tensor := mkTensor [2%nat; 2%nat; 1%nat; 1%nat] [1; -1; 2; -2].

Lemma image_within : within low image high [1%nat; 2%nat; 2%nat; 1%nat].
Proof.
  split; [reflexivity|]. intros idx H.
  apply valid4_inv in H. destruct H as (n & i & j & o & -> & Hn & Hi & Hj & Ho).
  assert (n = 0%nat) as -> by lia. assert (o = 0%nat) as -> by lia.
  destruct i as [|[|i]]; [| |lia];
    (destruct j as [|[|j]]; [| |lia]);
    cbv [get low image high shape data offset nth]; simpl; lra.
Qed.

End ConvExamples.

(** X7.  [_conv2d] returns the convolution of the centre of the interval
    plus the bias, minus and plus the convolution of its radius with the
    absolute kernel: for a [nb x h x w x ci] interval, a [kh x kw x ci x co]
    kernel, two strides and a bias of length [co] or none, the element of
    the lower bound at an output position is the sum over the kernel window
    and the input channels of centre times kernel, plus the bias, minus the
    same sum of radius times absolute kernel, and that of the upper bound
    the same with the last sum added; input positions in the padding count
    as 0. *)
Theorem conv2d_center_radius (s : state) (self : ref) (l u f : tensor)
        (b : option tensor) (p : TensorOps.padding)
        (nb h w ci kh kw co sh sw oh ow pt pl : nat) :
  nth_error (heap s) self = Some (IntervalBoundsObj (Tensor l) (Tensor u)) ->
  shape l = [nb; h; w; ci] -> shape u = [nb; h; w; ci] ->
  shape f = [kh; kw; ci; co] -> Affine.bias_shape b co ->
  TensorOps.conv_out p h kh sh = Some (oh, pt) ->
  TensorOps.conv_out p w kw sw = Some (ow, pl) ->
  exists lo up,
    IntervalBounds._conv2d self f b p [sh; sw] s
    = Run.allocated s (Tensor lo) (Tensor up) /\
    shape lo = [nb; oh; ow; co] /\ shape up = [nb; oh; ow; co] /\
    forall n i j o, n < nb -> i < oh -> j < ow -> o < co ->
      let G := ConvFacts.mkGeometry h w kh kw sh sw pt pl ci in
      (TensorOps.get lo [n; i; j; o]
       = ConvFacts.window G (ConvSound.centre l u) (TensorOps.get f) n i j o
         + Affine.bias_at b o
         - ConvFacts.window G (ConvSound.half_width l u)
             (fun idx => Rabs (TensorOps.get f idx)) n i j o)%R
      /\
      (TensorOps.get up [n; i; j; o]
       = ConvFacts.window G (ConvSound.centre l u) (TensorOps.get f) n i j o
         + Affine.bias_at b o
         + ConvFacts.window G (ConvSound.half_width l u)
             (fun idx => Rabs (TensorOps.get f idx)) n i j o)%R.
Proof.
  intros Hself Hl Hu Hf Hb Hh Hw.
  destruct (@ConvSound.conv2d_elems l u f b p nb h w ci kh kw co sh sw oh ow pt pl
              Hl Hu Hf Hb Hh Hw) as (lo & up & Hrun & Hlo & Hup & Hij).
  exists lo, up. rewrite (Run.run_conv2d Hself _ _ _ _), Hrun.
  split; [reflexivity|]. split; [exact Hlo|]. split; [exact Hup | exact Hij].
Qed.

(** The 2 x 2 image interval under the 2 x 2 kernel, without padding. *)
Lemma conv2d_center_radius_witness :
  let s := Examples.interval (Tensor ConvExamples.low) (Tensor ConvExamples.high) in
  exists lo up,
    IntervalBounds._conv2d 0 ConvExamples.kernel None TensorOps.VALID [1; 1] s
    = Run.allocated s (Tensor lo) (Tensor up) /\
    shape lo = [1; 1; 1; 1] /\ shape up = [1; 1; 1; 1] /\
    forall n i j o, n < 1 -> i < 1 -> j < 1 -> o < 1 ->
      let G := ConvFacts.mkGeometry 2 2 2 2 1 1 0 0 1 in
      (TensorOps.get lo [n; i; j; o]
       = ConvFacts.window G (ConvSound.centre ConvExamples.low ConvExamples.high)
           (TensorOps.get ConvExamples.kernel) n i j o
         + Affine.bias_at None o
         - ConvFacts.window G (ConvSound.half_width ConvExamples.low ConvExamples.high)
             (fun idx => Rabs (TensorOps.get ConvExamples.kernel idx)) n i j o)%R
      /\
      (TensorOps.get up [n; i; j; o]
       = ConvFacts.window G (ConvSound.centre ConvExamples.low ConvExamples.high)
           (TensorOps.get ConvExamples.kernel) n i j o
         + Affine.bias_at None o
         + ConvFacts.window G (ConvSound.half_width ConvExamples.low ConvExamples.high)
             (fun idx => Rabs (TensorOps.get ConvExamples.kernel idx)) n i j o)%R.
Proof.
  intros s.
  exact (@conv2d_center_radius s 0 ConvExamples.low ConvExamples.high ConvExamples.kernel
           None TensorOps.VALID 1 2 2 1 2 2 1 1 1 1 1 0 0
           eq_refl eq_refl eq_refl eq_refl I eq_refl eq_refl).
Defined.

(** X8.  [_conv2d] is sound in exact arithmetic: the convolution layer maps
    every input that lies in the interval elementwise to an output that
    lies, elementwise, between the lower and the upper bound [_conv2d]
    returns. *)
Theorem conv2d_bounds_sound (s : state) (self : ref) (l u f : tensor)
        (b : option tensor) (p : TensorOps.padding)
        (nb h w ci kh kw co sh sw oh ow pt pl : nat) (x : tensor) :
  nth_error (heap s) self = Some (IntervalBoundsObj (Tensor l) (Tensor u)) ->
  shape l = [nb; h; w; ci] -> shape u = [nb; h; w; ci] ->
  shape f = [kh; kw; ci; co] -> Affine.bias_shape b co ->
  TensorOps.conv_out p h kh sh = Some (oh, pt) ->
  TensorOps.conv_out p w kw sw = Some (ow, pl) ->
  Box.within l x u [nb; h; w; ci] ->
  exists lo up y,
    IntervalBounds._conv2d self f b p [sh; sw] s
    = Run.allocated s (Tensor lo) (Tensor up) /\
    Layers.conv2d x f b p [sh; sw] = Ok (Tensor y) /\
    Box.within lo y up [nb; oh; ow; co].
Proof.
  intros Hself Hl Hu Hf Hb Hh Hw Hx.
  destruct (@ConvSound.conv_sound l u f b p nb h w ci kh kw co sh sw oh ow pt pl
              Hl Hu Hf Hb Hh Hw x Hx) as (lo & up & y & Hrun & Hy & Hin).
  exists lo, up, y. rewrite (Run.run_conv2d Hself _ _ _ _), Hrun.
  split; [reflexivity|]. split; [exact Hy | exact Hin].
Qed.

(** The image inside the 2 x 2 image interval, with padding [SAME] and
    stride 1. *)
Lemma conv2d_bounds_sound_witness :
  let s := Examples.interval (Tensor ConvExamples.low) (Tensor ConvExamples.high) in
  exists lo up y,
    IntervalBounds._conv2d 0 ConvExamples.kernel None TensorOps.SAME [1; 1] s
    = Run.allocated s (Tensor lo) (Tensor up) /\
    Layers.conv2d ConvExamples.image ConvExamples.kernel None TensorOps.SAME [1; 1]
    = Ok (Tensor y) /\
    Box.within lo y up [1; 2; 2; 1].
Proof.
  intros s.
  exact (@conv2d_bounds_sound s 0 ConvExamples.low ConvExamples.high ConvExamples.kernel
           None TensorOps.SAME 1 2 2 1 2 2 1 1 1 2 2 0 0 ConvExamples.image
           eq_refl eq_refl eq_refl eq_refl I eq_refl eq_refl ConvExamples.image_within).
Defined.

(** X9.  [combine_with] keeps the ordering invariant: when the receiver and
    the operand each have their lower bound below their upper bound
    (tensors elementwise, tuples component by component), the bounds it
    returns are ordered component by component. *)
Theorem combine_with_keeps_order (s : state) (self bounds r : ref) (s' : state) :
  Invariant.ordered s self -> Invariant.ordered s bounds ->
  IntervalBounds.combine_with self bounds s = (Ok r, s') ->
  Invariant.ordered s' r.
Proof.
  intros (sl & su & Hself & Hs) (bl & bu & Hb & Hbo) H.
  rewrite (Run.run_combine_with Hself Hb) in H.
  eapply Invariant.alloc_ordered; [|exact H].
  intros lo up Hc. exact (@MultiSource.combine_ordered sl su bl bu lo up Hs Hbo Hc).
Qed.

(** The sources [A] and [B] of the example of [combine_with]. *)
Lemma combine_with_keeps_order_witness :
  let s := mkState [CombineExamples.A; CombineExamples.B] [] in
  Invariant.ordered
    (mkState [CombineExamples.A; CombineExamples.B; CombineExamples.AB] []) 2.
Proof.
  intros s.
  apply (@combine_with_keeps_order s 0 1 2
           (mkState [CombineExamples.A; CombineExamples.B; CombineExamples.AB] [])).
  - eexists. eexists. split; [reflexivity|].
    constructor. split; [reflexivity|]. simpl. repeat constructor. lra.
  - eexists. eexists. split; [reflexivity|].
    constructor. split; [reflexivity|]. simpl. repeat constructor. lra.
  - reflexivity.
Defined.

(** X10.  [_monotonic_fn] is sound for a monotone function: when it returns
    bounds, the function maps every list of arguments that lies between the
    lower and the upper bounds of the receiver, argument by argument (for
    singleton bounds, the one argument between the two tensors), to a value
    between the bounds returned. *)
Theorem monotonic_fn_bounds_sound (s : state) (self : ref) (l u : value)
        (fn : py_function) (r : ref) (s' : state) :
  nth_error (heap s) self = Some (IntervalBoundsObj l u) ->
  Invariant.monotone fn ->
  IntervalBounds._monotonic_fn self fn s = (Ok r, s') ->
  exists lo up,
    nth_error (heap s') r = Some (IntervalBoundsObj lo up) /\
    forall xs y,
      Forall2 Order.vle (MultiSource.args_of l) xs ->
      Forall2 Order.vle xs (MultiSource.args_of u) ->
      apply fn xs = Ok y ->
      Order.vle lo y /\ Order.vle y up.
Proof.
  intros Hself Hfn H.
  rewrite (Run.run_monotonic_fn Hself fn) in H.
  apply MultiSource.monotonic_fn_ok in H. destruct H as [H _].
  apply MultiSource.call_twice_ok in H. destruct H as (lo & up & Hlo & Hup & Hr).
  exists lo, up. split; [exact Hr|].
  intros xs y Hl Hu Hy. split.
  - exact (Hfn _ _ _ _ Hl Hlo Hy).
  - exact (Hfn _ _ _ _ Hu Hy Hup).
Qed.

(** [relu] on the interval [[-1, 3]]. *)
Lemma monotonic_fn_bounds_sound_witness :
  let s := Examples.interval (Tensor (Examples.scalar (-1))) (Tensor (Examples.scalar 3)) in
  exists s' lo up,
    IntervalBounds._monotonic_fn 0 Functions.relu s = (Ok 1, s') /\
    nth_error (heap s') 1 = Some (IntervalBoundsObj lo up) /\
    forall xs y,
      Forall2 Order.vle [Tensor (Examples.scalar (-1))] xs ->
      Forall2 Order.vle xs [Tensor (Examples.scalar 3)] ->
      apply Functions.relu xs = Ok y ->
      Order.vle lo y /\ Order.vle y up.
Proof.
  intros s. eexists.
  destruct (@monotonic_fn_bounds_sound s 0 _ _ Functions.relu 1 _ eq_refl
              Functions.relu_monotone eq_refl) as (lo & up & Hr & Hs).
  exists lo, up. split; [reflexivity|]. split; [exact Hr | exact Hs].
Defined.

(** X11.  Two sources combined and then merged: after [combine_with] of two
    singleton bounds and [_monotonic_fn] of a monotone function of two
    arguments on the result, the function maps every pair of tensors, the
    first within the first source and the second within the second, to a
    value between the bounds returned. *)
Theorem combined_sources_sound (s : state) (self bounds : ref)
        (l1 u1 l2 u2 : tensor) (fn : py_function) (r r' : ref) (s1 s2 : state) :
  nth_error (heap s) self = Some (IntervalBoundsObj (Tensor l1) (Tensor u1)) ->
  nth_error (heap s) bounds = Some (IntervalBoundsObj (Tensor l2) (Tensor u2)) ->
  Invariant.monotone fn ->
  IntervalBounds.combine_with self bounds s = (Ok r, s1) ->
  IntervalBounds._monotonic_fn r fn s1 = (Ok r', s2) ->
  exists lo up,
    nth_error (heap s2) r' = Some (IntervalBoundsObj lo up) /\
    forall x1 x2 y,
      Order.tle l1 x1 -> Order.tle x1 u1 ->
      Order.tle l2 x2 -> Order.tle x2 u2 ->
      apply fn [Tensor x1; Tensor x2] = Ok y ->
      Order.vle lo y /\ Order.vle y up.
Proof.
  intros Hself Hb Hfn Hc Hm.
  rewrite (Run.run_combine_with Hself Hb) in Hc.
  apply Invariant.alloc_ok in Hc. destruct Hc as (lo0 & up0 & [= <- <-] & -> & ->).
  assert (Hr : nth_error
                 (heap (mkState (heap s ++ [IntervalBoundsObj (Tuple [Tensor l1; Tensor l2])
                                                             (Tuple [Tensor u1; Tensor u2])])
                                (calls s)))
                 (length (heap s))
               = Some (IntervalBoundsObj (Tuple [Tensor l1; Tensor l2])
                                         (Tuple [Tensor u1; Tensor u2])))
    by apply Invariant.nth_error_new.
  rewrite (Run.run_monotonic_fn Hr fn) in Hm.
  apply MultiSource.monotonic_fn_ok in Hm. destruct Hm as [Hm _].
  apply MultiSource.call_twice_ok in Hm. destruct Hm as (lo & up & Hlo & Hup & Hr').
  exists lo, up. split; [exact Hr'|].
  intros x1 x2 y H1 H1' H2 H2' Hy. simpl in Hlo, Hup. split.
  - refine (Hfn _ _ _ _ _ Hlo Hy).
    constructor; [now constructor|]. constructor; [now constructor | constructor].
  - refine (Hfn _ _ _ _ _ Hy Hup).
    constructor; [now constructor|]. constructor; [now constructor | constructor].
Qed.

(** The sources [A] and [B] of the example of [combine_with], merged by
    [add]. *)
Lemma combined_sources_sound_witness :
  let s := mkState [CombineExamples.A; CombineExamples.B] [] in
  exists s2 lo up,
    nth_error (heap s2) 3 = Some (IntervalBoundsObj lo up) /\
    forall x1 x2 y,
      Order.tle (Examples.scalar 1) x1 -> Order.tle x1 (Examples.scalar 2) ->
      Order.tle (Examples.scalar 3) x2 -> Order.tle x2 (Examples.scalar 4) ->
      apply Functions.add [Tensor x1; Tensor x2] = Ok y ->
      Order.vle lo y /\ Order.vle y up.
Proof.
  intros s. eexists.
  exact (@combined_sources_sound s 0 1 _ _ _ _ Functions.add 2 3 _ _
           eq_refl eq_refl Functions.add_monotone eq_refl eq_refl).
Defined.

(** X12.  [combine_with] refuses an operand that is not an [IntervalBounds]:
    it raises [NotImplementedError] with the text the operand formats to,
    before it looks at the receiver, and leaves the state as it is. *)
Theorem combine_with_rejects_other_classes (s : state) (self bounds : ref)
        (c t : string) :
  nth_error (heap s) bounds = Some (ForeignObj c t) ->
  IntervalBounds.combine_with self bounds s
  = (Raise (NotImplementedError ("Cannot combine IntervalBounds with " ++ t)), s).
Proof.
  intros Hb.
  unfold IntervalBounds.combine_with, IntervalBounds.isinstance, format, bind, deref, raise.
  rewrite Hb. simpl. now rewrite Hb.
Qed.

(** An interval combined with bounds of a class [SymbolicBounds]. *)
Lemma combine_with_rejects_other_classes_witness :
  let s := mkState [CombineExamples.A; ForeignObj "SymbolicBounds" "<SymbolicBounds object>"]
                   [] in
  IntervalBounds.combine_with 0 1 s
  = (Raise (NotImplementedError
              "Cannot combine IntervalBounds with <SymbolicBounds object>"), s).
Proof.
  intros s.
  exact (@combine_with_rejects_other_classes s 0 1 "SymbolicBounds"
           "<SymbolicBounds object>" eq_refl).
Defined.

(** X13.  [_monotonic_fn] on bounds of which only one is a tuple raises
    without calling the function: [AssertionError] when the lower bound is a
    tuple and the upper bound is not, and the error of [_ensure_singleton]
    when the upper bound is a tuple and the lower bound is not.  The heap and
    the log of calls are unchanged. *)
Theorem monotonic_fn_mixed_bounds (s : state) (self : ref) (fn : py_function) :
  (forall ls y,
      nth_error (heap s) self = Some (IntervalBoundsObj (Tuple ls) (Tensor y)) ->
      IntervalBounds._monotonic_fn self fn s = (Raise AssertionError, s)) /\
  (forall x us,
      nth_error (heap s) self = Some (IntervalBoundsObj (Tensor x) (Tuple us)) ->
      IntervalBounds._monotonic_fn self fn s = (Raise Guard.multiple_inputs, s)).
Proof.
  split.
  - intros ls y Hself. now rewrite (Run.run_monotonic_fn Hself fn).
  - intros x us Hself. now rewrite (Run.run_monotonic_fn Hself fn).
Qed.

(** Bounds with a tuple on one side only, and [relu]. *)
Lemma monotonic_fn_mixed_bounds_witness :
  let s1 := Examples.interval (Tuple [Tensor (Examples.scalar 1)]) (Tensor (Examples.scalar 2)) in
  let s2 := Examples.interval (Tensor (Examples.scalar 1)) (Tuple [Tensor (Examples.scalar 2)]) in
  IntervalBounds._monotonic_fn 0 Functions.relu s1 = (Raise AssertionError, s1) /\
  IntervalBounds._monotonic_fn 0 Functions.relu s2 = (Raise Guard.multiple_inputs, s2).
Proof.
  intros s1 s2. split.
  - exact (proj1 (@monotonic_fn_mixed_bounds s1 0 Functions.relu) _ _ eq_refl).
  - exact (proj2 (@monotonic_fn_mixed_bounds s2 0 Functions.relu) _ _ eq_refl).
Defined.

(** X14.  An exception of the wrapped function passes through
    [_monotonic_fn] and no bounds are created: when the call on the lower
    bounds raises, the function is not called on the upper bounds, and the
    log holds that one call; when the call on the upper bounds raises, the
    log holds the two calls.  In both cases the heap is unchanged. *)
Theorem monotonic_fn_propagates_exception (s : state) (self : ref) (l u : value)
        (fn : py_function) (e : exn) :
  nth_error (heap s) self = Some (IntervalBoundsObj l u) ->
  is_tuple l = is_tuple u ->
  (apply fn (MultiSource.args_of l) = Raise e ->
   IntervalBounds._monotonic_fn self fn s
   = (Raise e, mkState (heap s) (calls s ++ [(__name__ fn, MultiSource.args_of l)]))) /\
  (forall lo,
      apply fn (MultiSource.args_of l) = Ok lo ->
      apply fn (MultiSource.args_of u) = Raise e ->
      IntervalBounds._monotonic_fn self fn s
      = (Raise e, mkState (heap s)
                          (calls s ++ [(__name__ fn, MultiSource.args_of l);
                                       (__name__ fn, MultiSource.args_of u)]))).
Proof.
  intros Hself Ht. rewrite (Run.run_monotonic_fn Hself fn).
  unfold Run.monotonic_fn, Run.call_twice.
  destruct l as [x|ls], u as [y|us]; simpl in *; try discriminate.
  - split; [now intros -> | now intros lo -> ->].
  - split; [now intros -> | now intros lo -> ->].
Qed.

(** [relu], a function of one tensor, on two sources: its call on the two
    lower bounds raises. *)
Lemma monotonic_fn_propagates_exception_witness :
  let s := mkState [CombineExamples.AB] [] in
  IntervalBounds._monotonic_fn 0 Functions.relu s
  = (Raise TypeError,
     mkState [CombineExamples.AB]
             [("relu", [Tensor (Examples.scalar 1); Tensor (Examples.scalar 3)])]).
Proof.
  intros s.
  exact (proj1 (@monotonic_fn_propagates_exception s 0 _ _ Functions.relu TypeError
                  eq_refl eq_refl) eq_refl).
Defined.

(** X15.  [propagate_through] on an [IntervalBounds] runs the handler of the
    wrapper's layer with the parameters of its module, whatever other classes
    the program has: the linear and the convolution handler get the bias
    when the module has one and [None] otherwise, and the convolution
    handler gets the strides of the module without the first and the last,
    the two spatial ones of a stride [(s0, sh, sw, s3)]. *)
Theorem propagate_through_dispatches (others : string -> AbstractBounds.class)
        (s : state) (self : ref) (l u : value) :
  nth_error (heap s) self = Some (IntervalBoundsObj l u) ->
  (forall w b,
      propagate_through others self
        (verifiable_wrapper.LinearFCWrapper (snt.Linear.mk w b)) s
      = IntervalBounds._linear self w b s) /\
  (forall w b padding s0 sh sw s3,
      propagate_through others self
        (verifiable_wrapper.LinearConv2dWrapper
           (snt.Conv2D.mk w b padding [s0; sh; sw; s3])) s
      = IntervalBounds._conv2d self w b padding [sh; sw] s) /\
  (forall fn,
      propagate_through others self (verifiable_wrapper.MonotonicWrapper fn) s
      = IntervalBounds._monotonic_fn self fn s) /\
  (forall mean variance scale bias epsilon,
      propagate_through others self
        (verifiable_wrapper.BatchNormWrapper
           (ibp.BatchNorm.mk mean variance scale bias epsilon)) s
      = IntervalBounds._batch_norm self mean variance scale bias epsilon s) /\
  propagate_through others self verifiable_wrapper.BatchFlattenWrapper s
  = IntervalBounds._batch_flatten self s.
Proof.
  intros Hself. repeat split; intros;
    now rewrite (@Dispatch.run_propagate_through others s self l u _ Hself).
Qed.

(** The linear layer of the example through [propagate_through], in a
    program whose other classes define no handler. *)
Lemma propagate_through_dispatches_witness :
  let s := Examples.interval (Tensor (Examples.matrix11 1)) (Tensor (Examples.matrix11 3)) in
  propagate_through (fun _ => Unsupported.bare) 0
    (verifiable_wrapper.LinearFCWrapper
       (snt.Linear.mk (Examples.matrix11 2) (Some (Examples.vector1 1)))) s
  = IntervalBounds._linear 0 (Examples.matrix11 2) (Some (Examples.vector1 1)) s.
Proof.
  intros s.
  exact (proj1 (@propagate_through_dispatches (fun _ => Unsupported.bare) s 0 _ _ eq_refl)
           _ _).
Defined.
